(** * DEAR_ko/model.py: a video-conditioned bidirectional translation model

    The model of [src/DEAR_ko/model.py] is written against the tensor
    runtime it imports (torch).  The embedding follows that split: the
    runtime is an interface ([Torch]), every class and function of the
    source is a definition over that interface, Python exceptions are an
    error monad, and the one attribute a forward pass assigns
    ([MultiHeadedAttention.attn]) is threaded as explicit state.

    Three runtimes are used below: tensor shapes alone (what torch checks
    before it computes), shapes with the symbolic value of a tensor (which
    operation was applied to which operand), and shapes with a real number
    at every index, for the arithmetic of the softmax. *)

From Stdlib Require Import ZArith List String QArith Bool Lia Reals Qreals Lra.
Import ListNotations.
Open Scope Z_scope.

Set Implicit Arguments.

(** ** Python exceptions as an error monad *)

Inductive exn : Type :=
| AssertionError
| ZeroDivisionError
| UnboundLocalError
| ValueError
| TypeError
| KeyError
| IndexError
| RuntimeError.

Inductive res (A : Type) : Type :=
| Ok (a : A)
| Raise (e : exn).

Arguments Ok {A} a.
Arguments Raise {A} e.

Definition bind {A B : Type} (m : res A) (f : A -> res B) : res B :=
  match m with
  | Ok a => f a
  | Raise e => Raise e
  end.

Notation "x <- m ;; k" := (bind m (fun x => k))
  (at level 61, m at next level, right associativity).
Notation "' p <- m ;; k" := (bind m (fun x => match x with p => k end))
  (at level 61, p pattern, m at next level, right associativity).

(** [try: m except: k], with the bare [except:] of the source. *)
Definition try_except {A : Type} (m : res A) (k : res A) : res A :=
  match m with
  | Ok a => Ok a
  | Raise _ => k
  end.

Definition is_ok {A : Type} (m : res A) : bool :=
  match m with Ok _ => true | Raise _ => false end.

Definition raises {A : Type} (m : res A) (e : exn) : Prop :=
  m = Raise e.

Definition fails {A : Type} (m : res A) : Prop :=
  exists e, m = Raise e.

Fixpoint mapM {A B : Type} (f : A -> res B) (l : list A) : res (list B) :=
  match l with
  | [] => Ok []
  | a :: l' => b <- f a ;; bs <- mapM f l' ;; Ok (b :: bs)
  end.

(** ** The tensor runtime *)

(** Python floats the source writes: literals, and [math.sqrt] of an int. *)
Inductive scalar : Type :=
| Lit (q : Q)
| Sqrt (n : Z).

(** How the entries of a freshly created tensor are chosen. *)
Inductive init : Type :=
| Ones                (* torch.ones *)
| Zeros               (* torch.zeros *)
| LinearWeight        (* nn.Linear.reset_parameters, weight: uniform in a fan-in bound *)
| LinearBias          (* nn.Linear.reset_parameters, bias: uniform in a fan-in bound *)
| EmbeddingNormal     (* nn.Embedding.reset_parameters: standard normal *)
| XavierUniform       (* nn.init.xavier_uniform *)
| Sinusoid.           (* the table PositionalEncoding.__init__ fills *)

(** The operations of torch the source calls.  Each returns its result or
    the exception torch raises.  What a runtime draws at random (initial
    values, dropout) is the runtime's own: the model only fixes which
    operation is applied to which tensor. *)
Class Torch (T : Type) : Type := {
  size : T -> list Z;
  tensor_new : init -> list Z -> res T;
  (* nn.init.xavier_uniform(p), in place *)
  xavier_uniform : T -> T;
  t_add : T -> T -> res T;
  t_sub : T -> T -> res T;
  t_mul : T -> T -> res T;
  t_div : T -> T -> res T;
  add_scalar : T -> scalar -> res T;
  mul_scalar : T -> scalar -> res T;
  div_scalar : T -> scalar -> res T;
  mean : T -> Z -> bool -> res T;
  std : T -> Z -> bool -> res T;
  unsqueeze : T -> Z -> res T;
  expand_as : T -> T -> res T;
  view : T -> list Z -> res T;
  contiguous : T -> res T;
  transpose : T -> Z -> Z -> res T;
  (* x[:, :stop] *)
  slice1_to : T -> Z -> res T;
  matmul : T -> T -> res T;
  (* scores.masked_fill(mask == 0, v) *)
  masked_fill_eq0 : T -> T -> scalar -> res T;
  softmax : T -> Z -> res T;
  log_softmax : T -> Z -> res T;
  relu : T -> res T;
  (* F.linear(x, weight, bias) *)
  linear : T -> T -> option T -> res T;
  (* F.embedding(x, weight) *)
  embedding : T -> T -> res T;
  (* F.dropout(x, p) *)
  dropout : Q -> T -> res T;
  (* t.cuda(): the tensor on the CUDA device, or the error of a host that
     has none *)
  cuda : T -> res T
}.

(** Python's [l[i]] on a list, negative indices counted from the end. *)
Definition py_index {A : Type} (l : list A) (i : Z) : res A :=
  let n := Z.of_nat (List.length l) in
  let j := if i <? 0 then i + n else i in
  if (j <? 0) || (n <=? j) then Raise IndexError
  else match nth_error l (Z.to_nat j) with
       | Some a => Ok a
       | None => Raise IndexError
       end.

(** [F.softmax] and [F.log_softmax] called without [dim]: torch's
    [_get_softmax_dim] picks 0 for 0-, 1- and 3-dimensional input and 1
    otherwise. *)
Definition get_softmax_dim (ndim : nat) : Z :=
  match ndim with
  | 0%nat | 1%nat | 3%nat => 0
  | _ => 1
  end.

(** [range(N)]: empty when [N <= 0]. *)
Definition range_len (N : Z) : nat := Z.to_nat N.

(** * The model, over any runtime *)

Section Model.

Context {T : Type} {RT : Torch T}.

(** A learnable parameter: its tensor, and the initialisation that was
    applied to it last. *)
Record Param : Type := mkParam {
  pdata : T;
  pinit : init
}.

Definition Param_new (i : init) (shape : list Z) : res Param :=
  t <- tensor_new i shape ;;
  Ok (mkParam t i).

Definition Param_dim (p : Param) : nat := List.length (size (pdata p)).

(** ** nn.Linear, nn.Dropout *)

Record Linear : Type := mkLinear {
  lin_weight : Param;
  lin_bias : option Param
}.

Definition Linear_init (in_features out_features : Z) (bias : bool) : res Linear :=
  w <- Param_new LinearWeight [out_features; in_features] ;;
  if bias then
    b <- Param_new LinearBias [out_features] ;;
    Ok (mkLinear w (Some b))
  else Ok (mkLinear w None).

Definition Linear_forward (l : Linear) (x : T) : res T :=
  linear x (pdata (lin_weight l)) (option_map pdata (lin_bias l)).

(** [module.cuda()] moves every parameter of the module. *)
Definition Param_cuda (p : Param) : res Param :=
  t <- cuda (pdata p) ;;
  Ok (mkParam t (pinit p)).

Definition Linear_cuda (l : Linear) : res Linear :=
  w <- Param_cuda (lin_weight l) ;;
  match lin_bias l with
  | Some b => b' <- Param_cuda b ;; Ok (mkLinear w (Some b'))
  | None => Ok (mkLinear w None)
  end.

Record Dropout : Type := mkDropout { drop_p : Q }.

(** [nn.Dropout(p)] refuses a probability outside [0, 1]. *)
Definition Dropout_init (p : Q) : res Dropout :=
  if (Qle_bool 0 p && Qle_bool p 1)%bool then Ok (mkDropout p)
  else Raise ValueError.

Definition Dropout_forward (d : Dropout) (x : T) : res T :=
  dropout (drop_p d) x.

(** ** clones *)

(** [copy.deepcopy] of a value is the value: the copies are independent
    because every slot of the list is threaded on its own afterwards. *)
Definition clones {M : Type} (module : M) (N : Z) : list M :=
  repeat module (range_len N).

(** ** Generator *)

Record Generator : Type := mkGenerator { proj : Linear }.

Definition Generator_init (d_model vocab : Z) : res Generator :=
  l <- Linear_init d_model vocab true ;;
  Ok (mkGenerator l).

Definition Generator_forward (g : Generator) (x : T) : res T :=
  y <- Linear_forward (proj g) x ;;
  log_softmax y (-1).

Definition Generator_inference (g : Generator) (x : T) : res T :=
  Linear_forward (proj g) x.

(** ** LayerNorm *)

Record LayerNorm : Type := mkLayerNorm {
  a_2 : Param;
  b_2 : Param;
  eps : Q
}.

Definition LayerNorm_init (features : Z) : res LayerNorm :=
  a <- Param_new Ones [features] ;;
  b <- Param_new Zeros [features] ;;
  Ok (mkLayerNorm a b (1 # 1000000)).

Definition LayerNorm_forward (n : LayerNorm) (x : T) : res T :=
  mean_ <- mean x (-1) true ;;
  std_ <- std x (-1) true ;;
  c <- t_sub x mean_ ;;
  num <- t_mul (pdata (a_2 n)) c ;;
  den <- add_scalar std_ (Lit (eps n)) ;;
  q <- t_div num den ;;
  t_add q (pdata (b_2 n)).

(** ** SublayerConnection *)

Record SublayerConnection : Type := mkSublayerConnection {
  norm : LayerNorm;
  sc_dropout : Dropout
}.

Definition SublayerConnection_init (size_ : Z) (p : Q) : res SublayerConnection :=
  n <- LayerNorm_init size_ ;;
  d <- Dropout_init p ;;
  Ok (mkSublayerConnection n d).

(** The sublayer is a callable; [S] is whatever it updates while it runs. *)
Definition SublayerConnection_forward {S : Type}
    (sc : SublayerConnection) (x : T) (sublayer : T -> res (T * S)) : res (T * S) :=
  n <- LayerNorm_forward (norm sc) x ;;
  '(y, s) <- sublayer n ;;
  d <- Dropout_forward (sc_dropout sc) y ;;
  out <- t_add x d ;;
  Ok (out, s).

Definition SublayerConnection_expand_forward {S : Type}
    (sc : SublayerConnection) (x : T) (sublayer : T -> res (T * S)) : res (T * S) :=
  n <- LayerNorm_forward (norm sc) x ;;
  '(y, s) <- sublayer n ;;
  out <- Dropout_forward (sc_dropout sc) y ;;
  m <- mean out 1 false ;;
  u <- unsqueeze m 1 ;;
  out <- expand_as u x ;;
  r <- t_add x out ;;
  Ok (r, s).

Definition SublayerConnection_nosum_forward {S : Type}
    (sc : SublayerConnection) (x : T) (sublayer : T -> res (T * S)) : res (T * S) :=
  n <- LayerNorm_forward (norm sc) x ;;
  '(y, s) <- sublayer n ;;
  d <- Dropout_forward (sc_dropout sc) y ;;
  Ok (d, s).

(** ** attention *)

Definition attention (query key value : T) (mask : option T)
    (dropout_ : option Dropout) : res (T * T) :=
  d_k <- py_index (size query) (-1) ;;
  kt <- transpose key (-2) (-1) ;;
  qk <- matmul query kt ;;
  scores <- div_scalar qk (Sqrt d_k) ;;
  scores <- match mask with
            | Some m => masked_fill_eq0 scores m (Lit (- (1000000000 # 1)))
            | None => Ok scores
            end ;;
  p_attn <- softmax scores (-1) ;;
  p_attn <- match dropout_ with
            | Some d => Dropout_forward d p_attn
            | None => Ok p_attn
            end ;;
  out <- matmul p_attn value ;;
  Ok (out, p_attn).

(** ** MultiHeadedAttention *)

Record MultiHeadedAttention : Type := mkMHA {
  d_k : Z;
  mha_d_model : Z;
  h : Z;
  linears : list Linear;
  attn : option T;
  mha_dropout : Dropout
}.

Definition MultiHeadedAttention_init (h_ d_model d_in : Z) (p : Q)
    : res MultiHeadedAttention :=
  if h_ =? 0 then Raise ZeroDivisionError
  else if negb (d_model mod h_ =? 0) then Raise AssertionError
  else
    let d_in := if d_in <? 0 then d_model else d_in in
    l <- Linear_init d_in d_model true ;;
    l4 <- Linear_init d_model d_in true ;;
    d <- Dropout_init p ;;
    Ok (mkMHA (d_model / h_) d_model h_ (clones l 3 ++ [l4]) None d).

Definition set_attn (m : MultiHeadedAttention) (a : T) : MultiHeadedAttention :=
  mkMHA (d_k m) (mha_d_model m) (h m) (linears m) (Some a) (mha_dropout m).

(** [l(x).view(nbatches, -1, h, d_k).transpose(1, 2)] *)
Definition project_heads (m : MultiHeadedAttention) (nbatches : Z)
    (lx : Linear * T) : res T :=
  y <- Linear_forward (fst lx) (snd lx) ;;
  v <- view y [nbatches; -1; h m; d_k m] ;;
  transpose v 1 2.

Definition MultiHeadedAttention_forward (m : MultiHeadedAttention)
    (query key value : T) (mask : option T) : res (T * MultiHeadedAttention) :=
  mask <- match mask with
          | Some k => u <- unsqueeze k 1 ;; Ok (Some u)
          | None => Ok None
          end ;;
  match size query with
  | [nbatches; qT; qC] =>
      qkv <- mapM (project_heads m nbatches)
                  (combine (linears m) [query; key; value]) ;;
      match qkv with
      | [q; k; v] =>
          '(x, p_attn) <- attention q k v mask (Some (mha_dropout m)) ;;
          let m' := set_attn m p_attn in
          x <- transpose x 1 2 ;;
          x <- contiguous x ;;
          x <- view x [nbatches; -1; h m * d_k m] ;;
          last_ <- py_index (linears m) (-1) ;;
          out <- Linear_forward last_ x ;;
          Ok (out, m')
      | _ => Raise ValueError
      end
  | _ => Raise ValueError
  end.

(** ** PositionwiseFeedForward *)

Record PositionwiseFeedForward : Type := mkFF {
  w_1 : Linear;
  w_2 : Linear;
  ff_dropout : Dropout
}.

Definition PositionwiseFeedForward_init (d_model d_ff : Z) (p : Q) (d_out : Z)
    : res PositionwiseFeedForward :=
  w1 <- Linear_init d_model d_ff true ;;
  let d_out := if d_out <? 0 then d_model else d_out in
  w2 <- Linear_init d_ff d_out true ;;
  d <- Dropout_init p ;;
  Ok (mkFF w1 w2 d).

Definition PositionwiseFeedForward_forward (f : PositionwiseFeedForward) (x : T)
    : res T :=
  a <- Linear_forward (w_1 f) x ;;
  r <- relu a ;;
  d <- Dropout_forward (ff_dropout f) r ;;
  Linear_forward (w_2 f) d.

(** ** Embeddings *)

Record Embeddings : Type := mkEmbeddings {
  lut : Param;
  emb_d_model : Z
}.

Definition Embeddings_init (d_model vocab : Z) : res Embeddings :=
  w <- Param_new EmbeddingNormal [vocab; d_model] ;;
  Ok (mkEmbeddings w d_model).

Definition Embeddings_forward (e : Embeddings) (x : T) : res T :=
  y <- embedding x (pdata (lut e)) ;;
  mul_scalar y (Sqrt (emb_d_model e)).

(** ** PositionalEncoding *)

Record PositionalEncoding : Type := mkPositionalEncoding {
  pe_dropout : Dropout;
  pe : T                      (* a buffer, not a parameter *)
}.

(** The dropout module is built first.  The frequencies divide by
    [d_model].  The table is then filled by two strided assignments,
    [pe[:, 0::2]] and [pe[:, 1::2]], from one right-hand side of
    [ceil(d_model / 2)] columns: the second one does not fit when [d_model]
    is odd and above 1. *)
Definition PositionalEncoding_init (d_model : Z) (p : Q) (max_len : Z)
    : res PositionalEncoding :=
  d <- Dropout_init p ;;
  table <- tensor_new Sinusoid [max_len; d_model] ;;
  if d_model =? 0 then Raise ZeroDivisionError
  else if Z.odd d_model && (1 <? d_model) then Raise RuntimeError
  else
    pe_ <- unsqueeze table 0 ;;
    Ok (mkPositionalEncoding d pe_).

(** [x + self.pe[:, :x.size(1)]] *)
Definition add_pe (pos : PositionalEncoding) (x : T) : res T :=
  n <- py_index (size x) 1 ;;
  s <- slice1_to (pe pos) n ;;
  t_add x s.

Definition PositionalEncoding_forward (pos : PositionalEncoding) (x : T) : res T :=
  x <- try_except (add_pe pos x)
                  (x <- unsqueeze x 0 ;;
                   add_pe pos x) ;;
  Dropout_forward (pe_dropout pos) x.

(** ** EncoderLayer *)

(** What [make_model] passes as [classifier]: a module, or a dict of
    modules; the constructor's default is [None]. *)
Inductive Classifier : Type :=
| ClassifierNone
| ClassifierModule (l : Linear)
| ClassifierDict (d : list (string * Linear)).

Fixpoint dict_get {V : Type} (d : list (string * V)) (k : string) : res V :=
  match d with
  | [] => Raise KeyError
  | (k', v) :: d' => if String.eqb k k' then Ok v else dict_get d' k
  end.

Record EncoderLayer : Type := mkEncoderLayer {
  self_attn : MultiHeadedAttention;
  vid_attn : MultiHeadedAttention;
  ff1 : PositionwiseFeedForward;
  sublayer : list SublayerConnection;
  seq_attn : option MultiHeadedAttention;
  ff2 : option PositionwiseFeedForward;
  el_size : Z;
  classifier : Classifier
}.

Definition EncoderLayer_init (size_ : Z)
    (self_attn_ vid_attn_ : MultiHeadedAttention) (ff1_ : PositionwiseFeedForward)
    (p : Q) (seq_attn_ : option MultiHeadedAttention)
    (ff2_ : option PositionwiseFeedForward) (classifier_ : Classifier)
    : res EncoderLayer :=
  sc <- SublayerConnection_init size_ p ;;
  Ok (mkEncoderLayer self_attn_ vid_attn_ ff1_ (clones sc 5) seq_attn_ ff2_
                     size_ classifier_).

(** A module without state of its own, as a sublayer callable. *)
Definition stateless (f : T -> res T) (x : T) : res (T * unit) :=
  y <- f x ;; Ok (y, tt).

Definition call_option {M A : Type} (m : option M) (f : M -> res A) : res A :=
  match m with
  | Some m => f m
  | None => Raise TypeError
  end.

(** Lines 146 to 152: the action prediction from the fused video stream. *)
Definition EncoderLayer_act_pred (c : Classifier) (seq_vid : T) (type : string)
    : res T :=
  match c with
  | ClassifierDict d =>
      if String.eqb type "en2ko" then
        l <- dict_get d "en" ;;
        y <- Linear_forward l seq_vid ;;
        log_softmax y (-1)
      else
        l <- dict_get d "ko" ;;
        y <- Linear_forward l seq_vid ;;
        log_softmax y (-1)
  | ClassifierModule l =>
      y <- Linear_forward l seq_vid ;;
      log_softmax y (get_softmax_dim (List.length (size y)))
  | ClassifierNone => Raise TypeError
  end.

Definition EncoderLayer_set_attns (l : EncoderLayer)
    (sa va : MultiHeadedAttention) (qa : option MultiHeadedAttention)
    : EncoderLayer :=
  mkEncoderLayer sa va (ff1 l) (sublayer l) qa (ff2 l) (el_size l) (classifier l).

Definition EncoderLayer_forward (l : EncoderLayer)
    (seq seq_mask video video_mask : T) (type : string)
    : res ((T * T) * EncoderLayer) :=
  s0 <- py_index (sublayer l) 0 ;;
  '(seq, sa) <- SublayerConnection_forward s0 seq
      (fun seq => MultiHeadedAttention_forward (self_attn l) seq seq seq (Some seq_mask)) ;;
  s1 <- py_index (sublayer l) 1 ;;
  '(vid_seq, va) <- SublayerConnection_forward s1 seq
      (fun seq => MultiHeadedAttention_forward (vid_attn l) seq video video (Some video_mask)) ;;
  s2 <- py_index (sublayer l) 2 ;;
  '(seq_vid, qa) <- SublayerConnection_forward s2 video
      (fun video => call_option (seq_attn l) (fun a =>
         MultiHeadedAttention_forward a video seq seq (Some seq_mask))) ;;
  s3 <- py_index (sublayer l) 3 ;;
  '(seq_vid, _) <- SublayerConnection_forward s3 seq_vid
      (stateless (fun x => call_option (ff2 l) (fun f =>
         PositionwiseFeedForward_forward f x))) ;;
  act_pred <- EncoderLayer_act_pred (classifier l) seq_vid type ;;
  s4 <- py_index (sublayer l) 4 ;;
  '(out, _) <- SublayerConnection_forward s4 vid_seq
      (stateless (PositionwiseFeedForward_forward (ff1 l))) ;;
  Ok ((out, act_pred), EncoderLayer_set_attns l sa va (Some qa)).

(** ** Encoder *)

Record Encoder : Type := mkEncoder {
  enc_layers : list EncoderLayer;
  enc_norm : LayerNorm
}.

Definition Encoder_init (layer : EncoderLayer) (N : Z) : res Encoder :=
  n <- LayerNorm_init (el_size layer) ;;
  Ok (mkEncoder (clones layer N) n).

(** The [for] loop of [Encoder.forward]: [x] is rebound and [act_pred] is
    bound by each iteration; [None] is the variable not yet assigned. *)
Fixpoint Encoder_loop (layers : list EncoderLayer) (x : T) (act_pred : option T)
    (mask video video_mask : T) (type : string)
    : res ((T * option T) * list EncoderLayer) :=
  match layers with
  | [] => Ok ((x, act_pred), [])
  | layer :: rest =>
      '((x', a), layer') <- EncoderLayer_forward layer x mask video video_mask type ;;
      '(r, rest') <- Encoder_loop rest x' (Some a) mask video video_mask type ;;
      Ok (r, layer' :: rest')
  end.

Definition Encoder_forward (e : Encoder) (x mask video video_mask : T)
    (type : string) : res ((T * T) * Encoder) :=
  '((x, act_pred), layers') <-
      Encoder_loop (enc_layers e) x None mask video video_mask type ;;
  n <- LayerNorm_forward (enc_norm e) x ;;
  match act_pred with
  | Some a => Ok ((n, a), mkEncoder layers' (enc_norm e))
  | None => Raise UnboundLocalError
  end.

(** ** DecoderLayer, Decoder *)

Record DecoderLayer : Type := mkDecoderLayer {
  dl_size : Z;
  dl_self_attn : MultiHeadedAttention;
  src_attn : MultiHeadedAttention;
  feed_forward : PositionwiseFeedForward;
  dl_sublayer : list SublayerConnection
}.

Definition DecoderLayer_init (size_ : Z)
    (self_attn_ q_attn : MultiHeadedAttention)
    (feed_forward_ : PositionwiseFeedForward) (p : Q) : res DecoderLayer :=
  sc <- SublayerConnection_init size_ p ;;
  Ok (mkDecoderLayer size_ self_attn_ q_attn feed_forward_ (clones sc 3)).

Definition DecoderLayer_forward (l : DecoderLayer) (x q_memory q_mask tgt_mask : T)
    : res (T * DecoderLayer) :=
  let count := 0 in
  s <- py_index (dl_sublayer l) count ;;
  '(x, sa) <- SublayerConnection_forward s x
      (fun x => MultiHeadedAttention_forward (dl_self_attn l) x x x (Some tgt_mask)) ;;
  let count := count + 1 in
  s <- py_index (dl_sublayer l) count ;;
  '(x, qa) <- SublayerConnection_forward s x
      (fun x => MultiHeadedAttention_forward (src_attn l) x q_memory q_memory (Some q_mask)) ;;
  let count := count + 1 in
  s <- py_index (dl_sublayer l) count ;;
  '(out, _) <- SublayerConnection_forward s x
      (stateless (PositionwiseFeedForward_forward (feed_forward l))) ;;
  Ok (out, mkDecoderLayer (dl_size l) sa qa (feed_forward l) (dl_sublayer l)).

Record Decoder : Type := mkDecoder {
  dec_layers : list DecoderLayer;
  dec_norm : LayerNorm
}.

Definition Decoder_init (layer : DecoderLayer) (N : Z) : res Decoder :=
  n <- LayerNorm_init (dl_size layer) ;;
  Ok (mkDecoder (clones layer N) n).

Fixpoint Decoder_loop (layers : list DecoderLayer) (x query_memory query_mask tgt_mask : T)
    : res (T * list DecoderLayer) :=
  match layers with
  | [] => Ok (x, [])
  | layer :: rest =>
      '(x', layer') <- DecoderLayer_forward layer x query_memory query_mask tgt_mask ;;
      '(r, rest') <- Decoder_loop rest x' query_memory query_mask tgt_mask ;;
      Ok (r, layer' :: rest')
  end.

Definition Decoder_forward (d : Decoder) (x query_memory query_mask tgt_mask : T)
    : res (T * Decoder) :=
  '(x, layers') <- Decoder_loop (dec_layers d) x query_memory query_mask tgt_mask ;;
  n <- LayerNorm_forward (dec_norm d) x ;;
  Ok (n, mkDecoder layers' (dec_norm d)).

(** ** EncoderDecoder *)

(** [nn.Sequential(Embeddings, PositionalEncoding)] *)
Record Embed : Type := mkEmbed {
  emb : Embeddings;
  emb_position : PositionalEncoding
}.

Definition Embed_forward (e : Embed) (x : T) : res T :=
  y <- Embeddings_forward (emb e) x ;;
  PositionalEncoding_forward (emb_position e) y.

(** [nn.Sequential(nn.Linear(1024, d_model), nn.ReLU(), PositionalEncoding)] *)
Record VidEncoder : Type := mkVidEncoder {
  vid_linear : Linear;
  vid_position : PositionalEncoding
}.

Definition VidEncoder_forward (v : VidEncoder) (x : T) : res T :=
  y <- Linear_forward (vid_linear v) x ;;
  r <- relu y ;;
  PositionalEncoding_forward (vid_position v) r.

Record EncoderDecoder : Type := mkEncoderDecoder {
  en_embed : Embed;
  ko_embed : Embed;
  encoder : Encoder;
  vid_encoder : VidEncoder;
  decoder : Decoder;
  en_generator : Generator;
  ko_generator : Generator
}.

Definition set_encoder (m : EncoderDecoder) (e : Encoder) : EncoderDecoder :=
  mkEncoderDecoder (en_embed m) (ko_embed m) e (vid_encoder m) (decoder m)
                   (en_generator m) (ko_generator m).

Definition set_decoder (m : EncoderDecoder) (d : Decoder) : EncoderDecoder :=
  mkEncoderDecoder (en_embed m) (ko_embed m) (encoder m) (vid_encoder m) d
                   (en_generator m) (ko_generator m).

Definition vid_encode (m : EncoderDecoder) (video_features : T) : res T :=
  VidEncoder_forward (vid_encoder m) video_features.

Definition encode (m : EncoderDecoder) (query query_mask video video_mask : T)
    (type : string) : res ((T * T) * EncoderDecoder) :=
  if String.eqb type "en2ko" then
    q <- Embed_forward (en_embed m) query ;;
    v <- vid_encode m video ;;
    '(output, e) <- Encoder_forward (encoder m) q query_mask v video_mask type ;;
    Ok (output, set_encoder m e)
  else
    q <- Embed_forward (ko_embed m) query ;;
    v <- vid_encode m video ;;
    '(output, e) <- Encoder_forward (encoder m) q query_mask v video_mask type ;;
    Ok (output, set_encoder m e).

Definition decode (m : EncoderDecoder) (query_memory query_mask tgt tgt_mask : T)
    (type : string) : res (T * EncoderDecoder) :=
  encoded_tgt <- (if String.eqb type "en2ko"
                  then Embed_forward (ko_embed m) tgt
                  else Embed_forward (en_embed m) tgt) ;;
  '(out, d) <- Decoder_forward (decoder m) encoded_tgt query_memory query_mask tgt_mask ;;
  Ok (out, set_decoder m d).

Definition EncoderDecoder_forward (m : EncoderDecoder)
    (en ensrc_mask entgt_mask ko kosrc_mask kotgt_mask video video_mask : T)
    : res ((T * T * T * T) * EncoderDecoder) :=
  '((en_encoded, en_act_pred), m) <- encode m en ensrc_mask video video_mask "en2ko" ;;
  ko_in <- slice1_to ko (-1) ;;
  '(en_decoded, m) <- decode m en_encoded ensrc_mask ko_in kotgt_mask "en2ko" ;;
  '((ko_encoded, ko_act_pred), m) <- encode m ko kosrc_mask video video_mask "ko2en" ;;
  en_in <- slice1_to en (-1) ;;
  '(ko_decoded, m) <- decode m ko_encoded kosrc_mask en_in entgt_mask "ko2en" ;;
  Ok ((en_decoded, ko_decoded, en_act_pred, ko_act_pred), m).

(** ** model.parameters() *)

(** Parameters are found through registered attributes: a parameter, a
    module, a [ModuleList] or [Sequential] of modules.  A plain [dict] of
    modules is an ordinary attribute and is not searched. *)

Definition option_list {A : Type} (o : option A) : list A :=
  match o with Some a => [a] | None => [] end.

Definition Linear_parameters (l : Linear) : list Param :=
  lin_weight l :: option_list (lin_bias l).

Definition LayerNorm_parameters (n : LayerNorm) : list Param :=
  [a_2 n; b_2 n].

Definition SublayerConnection_parameters (s : SublayerConnection) : list Param :=
  LayerNorm_parameters (norm s).

Definition MultiHeadedAttention_parameters (m : MultiHeadedAttention) : list Param :=
  flat_map Linear_parameters (linears m).

Definition PositionwiseFeedForward_parameters (f : PositionwiseFeedForward)
    : list Param :=
  Linear_parameters (w_1 f) ++ Linear_parameters (w_2 f).

Definition Classifier_parameters (c : Classifier) : list Param :=
  match c with
  | ClassifierModule l => Linear_parameters l
  | ClassifierDict _ => []
  | ClassifierNone => []
  end.

Definition EncoderLayer_parameters (l : EncoderLayer) : list Param :=
  MultiHeadedAttention_parameters (self_attn l)
  ++ MultiHeadedAttention_parameters (vid_attn l)
  ++ PositionwiseFeedForward_parameters (ff1 l)
  ++ flat_map SublayerConnection_parameters (sublayer l)
  ++ flat_map MultiHeadedAttention_parameters (option_list (seq_attn l))
  ++ flat_map PositionwiseFeedForward_parameters (option_list (ff2 l))
  ++ Classifier_parameters (classifier l).

Definition Encoder_parameters (e : Encoder) : list Param :=
  flat_map EncoderLayer_parameters (enc_layers e)
  ++ LayerNorm_parameters (enc_norm e).

Definition DecoderLayer_parameters (l : DecoderLayer) : list Param :=
  MultiHeadedAttention_parameters (dl_self_attn l)
  ++ MultiHeadedAttention_parameters (src_attn l)
  ++ PositionwiseFeedForward_parameters (feed_forward l)
  ++ flat_map SublayerConnection_parameters (dl_sublayer l).

Definition Decoder_parameters (d : Decoder) : list Param :=
  flat_map DecoderLayer_parameters (dec_layers d)
  ++ LayerNorm_parameters (dec_norm d).

Definition parameters (m : EncoderDecoder) : list Param :=
  [lut (emb (en_embed m))]
  ++ [lut (emb (ko_embed m))]
  ++ Encoder_parameters (encoder m)
  ++ Linear_parameters (vid_linear (vid_encoder m))
  ++ Decoder_parameters (decoder m)
  ++ Linear_parameters (proj (en_generator m))
  ++ Linear_parameters (proj (ko_generator m)).


(** An in-place update of every registered parameter. *)
Section Update.

Variable f : Param -> Param.

Definition Linear_update (l : Linear) : Linear :=
  mkLinear (f (lin_weight l)) (option_map f (lin_bias l)).

Definition LayerNorm_update (n : LayerNorm) : LayerNorm :=
  mkLayerNorm (f (a_2 n)) (f (b_2 n)) (eps n).

Definition SublayerConnection_update (s : SublayerConnection) : SublayerConnection :=
  mkSublayerConnection (LayerNorm_update (norm s)) (sc_dropout s).

Definition MultiHeadedAttention_update (m : MultiHeadedAttention) : MultiHeadedAttention :=
  mkMHA (d_k m) (mha_d_model m) (h m) (map Linear_update (linears m)) (attn m)
        (mha_dropout m).

Definition PositionwiseFeedForward_update (p : PositionwiseFeedForward)
    : PositionwiseFeedForward :=
  mkFF (Linear_update (w_1 p)) (Linear_update (w_2 p)) (ff_dropout p).

Definition Classifier_update (c : Classifier) : Classifier :=
  match c with
  | ClassifierModule l => ClassifierModule (Linear_update l)
  | ClassifierDict d => ClassifierDict d
  | ClassifierNone => ClassifierNone
  end.

Definition EncoderLayer_update (l : EncoderLayer) : EncoderLayer :=
  mkEncoderLayer
    (MultiHeadedAttention_update (self_attn l))
    (MultiHeadedAttention_update (vid_attn l))
    (PositionwiseFeedForward_update (ff1 l))
    (map SublayerConnection_update (sublayer l))
    (option_map MultiHeadedAttention_update (seq_attn l))
    (option_map PositionwiseFeedForward_update (ff2 l))
    (el_size l)
    (Classifier_update (classifier l)).

Definition Encoder_update (e : Encoder) : Encoder :=
  mkEncoder (map EncoderLayer_update (enc_layers e)) (LayerNorm_update (enc_norm e)).

Definition DecoderLayer_update (l : DecoderLayer) : DecoderLayer :=
  mkDecoderLayer (dl_size l)
    (MultiHeadedAttention_update (dl_self_attn l))
    (MultiHeadedAttention_update (src_attn l))
    (PositionwiseFeedForward_update (feed_forward l))
    (map SublayerConnection_update (dl_sublayer l)).

Definition Decoder_update (d : Decoder) : Decoder :=
  mkDecoder (map DecoderLayer_update (dec_layers d)) (LayerNorm_update (dec_norm d)).

Definition Embed_update (e : Embed) : Embed :=
  mkEmbed (mkEmbeddings (f (lut (emb e))) (emb_d_model (emb e))) (emb_position e).

Definition update_parameters (m : EncoderDecoder) : EncoderDecoder :=
  mkEncoderDecoder
    (Embed_update (en_embed m))
    (Embed_update (ko_embed m))
    (Encoder_update (encoder m))
    (mkVidEncoder (Linear_update (vid_linear (vid_encoder m)))
                  (vid_position (vid_encoder m)))
    (Decoder_update (decoder m))
    (mkGenerator (Linear_update (proj (en_generator m))))
    (mkGenerator (Linear_update (proj (ko_generator m)))).

End Update.

(** ** make_model *)

(** The body of the loop that ends [make_model]. *)
Definition xavier_step (p : Param) : Param :=
  if (1 <? Param_dim p)%nat then mkParam (xavier_uniform (pdata p)) XavierUniform
  else p.

Definition make_classifier (d_model : Z) (share_classifier : bool) : res Classifier :=
  if share_classifier then
    c <- Linear_init d_model 401 false ;;
    Ok (ClassifierModule c)
  else
    en_linear <- Linear_init d_model 401 false ;;
    en_classifier <- Linear_cuda en_linear ;;
    ko_linear <- Linear_init d_model 401 false ;;
    ko_classifier <- Linear_cuda ko_linear ;;
    Ok (ClassifierDict [("en"%string, en_classifier); ("ko"%string, ko_classifier)]).

(** [make_model] up to the initialisation loop. *)
Definition make_model_build (en_vocab ko_vocab N d_model d_ff h_ : Z) (p : Q)
    (share_classifier : bool) : res EncoderDecoder :=
  attn_ <- MultiHeadedAttention_init h_ d_model (-1) (1 # 10) ;;
  ff <- PositionwiseFeedForward_init d_model d_ff p (-1) ;;
  position <- PositionalEncoding_init d_model p 5000 ;;
  en_generator_ <- Generator_init d_model en_vocab ;;
  ko_generator_ <- Generator_init d_model ko_vocab ;;
  en_emb <- Embeddings_init d_model en_vocab ;;
  let en_embed_ := mkEmbed en_emb position in
  ko_emb <- Embeddings_init d_model ko_vocab ;;
  let ko_embed_ := mkEmbed ko_emb position in
  classifier_ <- make_classifier d_model share_classifier ;;
  layer <- EncoderLayer_init d_model attn_ attn_ ff p (Some attn_) (Some ff) classifier_ ;;
  encoder_ <- Encoder_init layer N ;;
  vl <- Linear_init 1024 d_model true ;;
  let vid_encoder_ := mkVidEncoder vl position in
  dlayer <- DecoderLayer_init d_model attn_ attn_ ff p ;;
  decoder_ <- Decoder_init dlayer N ;;
  Ok (mkEncoderDecoder en_embed_ ko_embed_ encoder_ vid_encoder_ decoder_
                       en_generator_ ko_generator_).

Definition make_model (en_vocab ko_vocab N d_model d_ff h_ : Z) (p : Q)
    (share_classifier : bool) : res EncoderDecoder :=
  model <- make_model_build en_vocab ko_vocab N d_model d_ff h_ p share_classifier ;;
  Ok (update_parameters xavier_step model).

End Model.

(** * The shape runtime

    A tensor is its shape; every operation is the shape rule torch applies
    before it computes, and raises where torch raises on shapes.  Strides
    and element types are not tracked.  The two checks of the source that a
    shape cannot decide, the CUDA device and the range of the token ids,
    are answered by the host the runtime is on. *)

Module Shape.

Definition shape : Type := list Z.

Definition valid (s : shape) : bool := forallb (fun d => 0 <=? d) s.

Definition numel (s : shape) : Z := fold_right Z.mul 1 s.

Definition ndim (s : shape) : Z := Z.of_nat (List.length s).

(** A dimension argument in [-n, n-1], wrapped. *)
Definition wrap_dim (n dim : Z) : res Z :=
  let n' := if n =? 0 then 1 else n in
  if (dim <? - n') || (n' <=? dim) then Raise IndexError
  else Ok (if dim <? 0 then dim + n' else dim).

(** Broadcasting, on the reversed shapes. *)
Fixpoint broadcast_rev (a b : shape) : res shape :=
  match a, b with
  | [], _ => Ok b
  | _, [] => Ok a
  | x :: a', y :: b' =>
      r <- broadcast_rev a' b' ;;
      if x =? y then Ok (x :: r)
      else if x =? 1 then Ok (y :: r)
      else if y =? 1 then Ok (x :: r)
      else Raise RuntimeError
  end.

Definition broadcast (a b : shape) : res shape :=
  r <- broadcast_rev (rev a) (rev b) ;;
  Ok (rev r).

Definition shape_eqb (a b : shape) : bool :=
  if list_eq_dec Z.eq_dec a b then true else false.

Definition new (_ : init) (s : shape) : res shape :=
  if valid s then Ok s else Raise RuntimeError.

Definition scalar_op (x : shape) (_ : scalar) : res shape := Ok x.

Fixpoint set_nth (s : shape) (i : nat) (v : Z) : shape :=
  match s, i with
  | [], _ => []
  | _ :: s', O => v :: s'
  | d :: s', S i' => d :: set_nth s' i' v
  end.

Fixpoint remove_nth (s : shape) (i : nat) : shape :=
  match s, i with
  | [], _ => []
  | _ :: s', O => s'
  | d :: s', S i' => d :: remove_nth s' i'
  end.

Fixpoint insert_nth (s : shape) (i : nat) (v : Z) : shape :=
  match i, s with
  | O, _ => v :: s
  | S i', d :: s' => d :: insert_nth s' i' v
  | S _, [] => [v]
  end.

Definition reduce (x : shape) (dim : Z) (keepdim : bool) : res shape :=
  d <- wrap_dim (ndim x) dim ;;
  if keepdim then Ok (set_nth x (Z.to_nat d) 1)
  else Ok (remove_nth x (Z.to_nat d)).

Definition unsqueeze_shape (x : shape) (dim : Z) : res shape :=
  d <- wrap_dim (ndim x + 1) dim ;;
  Ok (insert_nth x (Z.to_nat d) 1).

Definition expand_as_shape (x y : shape) : res shape :=
  if (List.length y <? List.length x)%nat then Raise RuntimeError
  else
    r <- broadcast x y ;;
    if shape_eqb r y then Ok y else Raise RuntimeError.

Definition view_shape (x : shape) (s : shape) : res shape :=
  let unknown := List.length (filter (fun d => d =? -1) s) in
  let known := filter (fun d => negb (d =? -1)) s in
  if negb (valid known) then Raise RuntimeError
  else match unknown with
       | O => if numel s =? numel x then Ok s else Raise RuntimeError
       | 1%nat =>
           let p := numel known in
           if p =? 0 then Raise RuntimeError
           else if numel x mod p =? 0
                then Ok (map (fun d => if d =? -1 then numel x / p else d) s)
                else Raise RuntimeError
       | _ => Raise RuntimeError
       end.

Definition transpose_shape (x : shape) (dim0 dim1 : Z) : res shape :=
  d0 <- wrap_dim (ndim x) dim0 ;;
  d1 <- wrap_dim (ndim x) dim1 ;;
  let a := nth (Z.to_nat d0) x 1 in
  let b := nth (Z.to_nat d1) x 1 in
  Ok (set_nth (set_nth x (Z.to_nat d0) b) (Z.to_nat d1) a).

(** The length of [l[:stop]] for a list of length [n]. *)
Definition slice_len (n stop : Z) : Z :=
  let s := if stop <? 0 then stop + n else stop in
  Z.max 0 (Z.min s n).

Definition slice1_to_shape (x : shape) (stop : Z) : res shape :=
  match x with
  | b :: t :: rest => Ok (b :: slice_len t stop :: rest)
  | _ => Raise IndexError
  end.

(** [torch.matmul] on two operands of at least two dimensions each, the
    leading ones broadcast; one-dimensional operands are promoted as torch
    does. *)
Definition matmul2 (a b : shape) : res shape :=
  match rev a, rev b with
  | m :: n :: ba, p :: m' :: bb =>
      if m =? m' then
        r <- broadcast_rev ba bb ;;
        Ok (rev r ++ [n; p])
      else Raise RuntimeError
  | _, _ => Raise RuntimeError
  end.

Definition matmul_shape (a b : shape) : res shape :=
  match a, b with
  | [], _ | _, [] => Raise RuntimeError
  | [n], [m] => if n =? m then Ok [] else Raise RuntimeError
  | [n], _ => r <- matmul2 [1; n] b ;; Ok (remove_nth r (List.length r - 2))
  | _, [m] => r <- matmul2 a [m; 1] ;; Ok (removelast r)
  | _, _ => matmul2 a b
  end.

Definition masked_fill (x mask : shape) (_ : scalar) : res shape :=
  r <- broadcast x mask ;;
  if shape_eqb r x then Ok x else Raise RuntimeError.

Definition softmax_shape (x : shape) (dim : Z) : res shape :=
  _ <- wrap_dim (ndim x) dim ;;
  Ok x.

Definition linear_shape (x w : shape) (b : option shape) : res shape :=
  match w, rev x with
  | [out_f; in_f], last_ :: lead =>
      if last_ =? in_f then
        match b with
        | None => Ok (rev lead ++ [out_f])
        | Some [o] => if (o =? out_f) || (o =? 1) then Ok (rev lead ++ [out_f])
                      else Raise RuntimeError
        | Some _ => Raise RuntimeError
        end
      else Raise RuntimeError
  | _, _ => Raise RuntimeError
  end.

(** What a shape does not tell: whether the host has a CUDA device, and
    whether the token ids a tensor of a given shape holds are all within
    a vocabulary of a given size. *)
Class Host : Type := {
  cuda_device : res unit;
  ids_within : shape -> Z -> bool
}.

(** A host with a CUDA device, on which every tensor of ids presented to
    an embedding is within its vocabulary.  The statements below that name
    no host are about this one. *)
#[global] Instance cuda_host : Host | 100 := {|
  cuda_device := Ok tt;
  ids_within := fun _ _ => true
|}.

(** A host without a CUDA device, as a CPU-only build of torch reports
    it. *)
Definition cpu_host : Host := {|
  cuda_device := Raise AssertionError;
  ids_within := fun _ _ => true
|}.

(** The shape of [F.embedding(x, w)], the ids left aside. *)
Definition embedding_dims (x w : shape) : res shape :=
  match w with
  | [_; d] => Ok (x ++ [d])
  | _ => Raise RuntimeError
  end.

(** [F.embedding(x, w)]: an id outside [0, vocab) raises, so a tensor that
    holds any id at all needs a non-empty vocabulary. *)
Definition embedding_shape {H : Host} (x w : shape) : res shape :=
  r <- embedding_dims x w ;;
  if numel x =? 0 then Ok r
  else if (0 <? nth 0 w 0) && ids_within x (nth 0 w 0) then Ok r
  else Raise IndexError.

Definition cuda_shape {H : Host} (x : shape) : res shape :=
  _ <- cuda_device ;;
  Ok x.

Definition dropout_shape (p : Q) (x : shape) : res shape :=
  if (Qle_bool 0 p && Qle_bool p 1)%bool then Ok x else Raise ValueError.

#[global] Instance runtime {H : Host} : Torch shape := {|
  size := fun s => s;
  tensor_new := new;
  xavier_uniform := fun s => s;
  t_add := broadcast;
  t_sub := broadcast;
  t_mul := broadcast;
  t_div := broadcast;
  add_scalar := scalar_op;
  mul_scalar := scalar_op;
  div_scalar := scalar_op;
  mean := reduce;
  std := reduce;
  unsqueeze := unsqueeze_shape;
  expand_as := expand_as_shape;
  view := view_shape;
  contiguous := fun s => Ok s;
  transpose := transpose_shape;
  slice1_to := slice1_to_shape;
  matmul := matmul_shape;
  masked_fill_eq0 := masked_fill;
  softmax := softmax_shape;
  log_softmax := softmax_shape;
  relu := fun s => Ok s;
  linear := linear_shape;
  embedding := embedding_shape;
  dropout := dropout_shape;
  cuda := cuda_shape
|}.

End Shape.

(** * The symbolic runtime

    A tensor is its shape together with the expression that computed it:
    the inputs it was built from and the operations applied to them, in
    order.  Shapes are checked as in [Shape]; values are never merged, so
    two tensors are equal only when they were computed the same way. *)

Module Symbolic.

Inductive op : Type :=
| OAdd | OSub | OMul | ODiv
| OAddScalar (s : scalar) | OMulScalar (s : scalar) | ODivScalar (s : scalar)
| OMean (dim : Z) (keepdim : bool) | OStd (dim : Z) (keepdim : bool)
| OUnsqueeze (dim : Z) | OExpandAs | OView (s : list Z) | OContiguous
| OTranspose (dim0 dim1 : Z) | OSlice1To (stop : Z)
| OMatmul | OMaskedFillEq0 (s : scalar)
| OSoftmax (dim : Z) | OLogSoftmax (dim : Z) | ORelu
| OLinear | OLinearNoBias | OEmbedding | ODropout (p : Q) | OXavier.

#[warnings="-register-all"]
Inductive term : Type :=
| Input (name : string)
| New (i : init) (s : list Z)
| Op (o : op) (args : list term).

Record tensor : Type := mkTensor {
  sh : Shape.shape;
  ex : term
}.

Definition input (name : string) (s : Shape.shape) : tensor :=
  mkTensor s (Input name).

Definition un (o : op) (f : Shape.shape -> res Shape.shape) (a : tensor)
    : res tensor :=
  s <- f (sh a) ;;
  Ok (mkTensor s (Op o [ex a])).

Definition bin (o : op) (f : Shape.shape -> Shape.shape -> res Shape.shape)
    (a b : tensor) : res tensor :=
  s <- f (sh a) (sh b) ;;
  Ok (mkTensor s (Op o [ex a; ex b])).

Definition linear_sym (x w : tensor) (b : option tensor) : res tensor :=
  s <- Shape.linear_shape (sh x) (sh w) (option_map sh b) ;;
  match b with
  | Some b => Ok (mkTensor s (Op OLinear [ex x; ex w; ex b]))
  | None => Ok (mkTensor s (Op OLinearNoBias [ex x; ex w]))
  end.

#[global] Instance runtime {H : Shape.Host} : Torch tensor := {|
  size := sh;
  tensor_new := fun i s => s' <- Shape.new i s ;; Ok (mkTensor s' (New i s));
  xavier_uniform := fun a => mkTensor (sh a) (Op OXavier [ex a]);
  t_add := bin OAdd Shape.broadcast;
  t_sub := bin OSub Shape.broadcast;
  t_mul := bin OMul Shape.broadcast;
  t_div := bin ODiv Shape.broadcast;
  add_scalar := fun a s => un (OAddScalar s) (fun x => Shape.scalar_op x s) a;
  mul_scalar := fun a s => un (OMulScalar s) (fun x => Shape.scalar_op x s) a;
  div_scalar := fun a s => un (ODivScalar s) (fun x => Shape.scalar_op x s) a;
  mean := fun a d k => un (OMean d k) (fun x => Shape.reduce x d k) a;
  std := fun a d k => un (OStd d k) (fun x => Shape.reduce x d k) a;
  unsqueeze := fun a d => un (OUnsqueeze d) (fun x => Shape.unsqueeze_shape x d) a;
  expand_as := bin OExpandAs Shape.expand_as_shape;
  view := fun a s => un (OView s) (fun x => Shape.view_shape x s) a;
  contiguous := un OContiguous (fun x => Ok x);
  transpose := fun a d0 d1 =>
    un (OTranspose d0 d1) (fun x => Shape.transpose_shape x d0 d1) a;
  slice1_to := fun a n => un (OSlice1To n) (fun x => Shape.slice1_to_shape x n) a;
  matmul := bin OMatmul Shape.matmul_shape;
  masked_fill_eq0 := fun a m s =>
    bin (OMaskedFillEq0 s) (fun x y => Shape.masked_fill x y s) a m;
  softmax := fun a d => un (OSoftmax d) (fun x => Shape.softmax_shape x d) a;
  log_softmax := fun a d => un (OLogSoftmax d) (fun x => Shape.softmax_shape x d) a;
  relu := un ORelu (fun x => Ok x);
  linear := linear_sym;
  embedding := bin OEmbedding Shape.embedding_shape;
  dropout := fun p a => un (ODropout p) (Shape.dropout_shape p) a;
  cuda := fun a => _ <- Shape.cuda_device ;; Ok a
|}.

(** Whether a value was computed from the input of that name. *)
Fixpoint mentions (name : string) (t : term) : bool :=
  match t with
  | Input n => String.eqb n name
  | New _ _ => false
  | Op _ args =>
      (fix any (l : list term) : bool :=
         match l with
         | [] => false
         | a :: l' => mentions name a || any l'
         end) args
  end.

(** The operation a value was computed by last. *)
Definition head (t : term) : option op :=
  match t with
  | Op o _ => Some o
  | _ => None
  end.

(** How many operations satisfying [p] a value went through. *)
Fixpoint count_op (p : op -> bool) (t : term) : nat :=
  match t with
  | Op o args =>
      ((if p o then 1 else 0) +
       (fix sum (l : list term) : nat :=
          match l with
          | [] => 0
          | a :: l' => count_op p a + sum l'
          end) args)%nat
  | _ => 0%nat
  end.

Definition is_expand_as (o : op) : bool :=
  match o with OExpandAs => true | _ => false end.

End Symbolic.

(** * The numeric runtime

    A tensor is its shape and the real number at every index.  Shapes are
    checked as in [Shape]; the arithmetic is that of the reals, so the
    rounding, the underflow and the NaN of floating point are left out.
    Dropout follows the mode the modules are in, and the entries of
    randomly initialised tensors are read from [draw]. *)

Module Numeric.

Import Shape.

Definition index : Type := list Z.

Record tensor : Type := mkTensor {
  sh : shape;
  dat : index -> R
}.

Definition rsum (l : list R) : R := fold_right Rplus 0%R l.

(** [0, 1, ..., n-1] *)
Definition range (n : Z) : list Z := map Z.of_nat (seq 0 (Z.to_nat n)).

(** The sum of [f k] for [k] in [range n]. *)
Definition sum_over (n : Z) (f : Z -> R) : R := rsum (map f (range n)).

Definition scalar_value (s : scalar) : R :=
  match s with
  | Lit q => Q2R q
  | Sqrt n => sqrt (IZR n)
  end.

(** The index into an operand of shape [s] that the index [idx] of the
    broadcast result reads; both reversed. *)
Fixpoint bidx_rev (s : shape) (idx : index) : index :=
  match s, idx with
  | d :: s', i :: idx' => (if d =? 1 then 0 else i) :: bidx_rev s' idx'
  | _, _ => []
  end.

Definition bidx (s : shape) (idx : index) : index :=
  rev (bidx_rev (rev s) (rev idx)).

Definition dim_len (s : shape) (d : Z) : Z := nth (Z.to_nat d) s 1.

Definition bin (f : R -> R -> R) (a b : tensor) : res tensor :=
  s <- broadcast (sh a) (sh b) ;;
  Ok (mkTensor s (fun idx => f (dat a (bidx (sh a) idx)) (dat b (bidx (sh b) idx)))).

Definition un (f : R -> R) (a : tensor) : res tensor :=
  Ok (mkTensor (sh a) (fun idx => f (dat a idx))).

(** The index of the operand of a reduction over [d]: position [d] is
    overwritten when the dimension was kept, inserted when it was not. *)
Definition reduce_idx (keepdim : bool) (idx : index) (d : Z) (k : Z) : index :=
  if keepdim then set_nth idx (Z.to_nat d) k
  else insert_nth idx (Z.to_nat d) k.

Definition mean_num (x : tensor) (dim : Z) (keepdim : bool) : res tensor :=
  d <- wrap_dim (ndim (sh x)) dim ;;
  s <- reduce (sh x) dim keepdim ;;
  let n := dim_len (sh x) d in
  Ok (mkTensor s (fun idx =>
        (sum_over n (fun k => dat x (reduce_idx keepdim idx d k)) / IZR n)%R)).

(** [Tensor.std]: the unbiased estimate, for two entries or more.  On a
    single entry torch returns NaN, which the reals do not have. *)
Definition std_num (x : tensor) (dim : Z) (keepdim : bool) : res tensor :=
  d <- wrap_dim (ndim (sh x)) dim ;;
  s <- reduce (sh x) dim keepdim ;;
  let n := dim_len (sh x) d in
  Ok (mkTensor s (fun idx =>
        let m := (sum_over n (fun k => dat x (reduce_idx keepdim idx d k)) / IZR n)%R in
        sqrt (sum_over n (fun k =>
                (dat x (reduce_idx keepdim idx d k) - m) *
                (dat x (reduce_idx keepdim idx d k) - m)) / IZR (n - 1))%R)).

Definition unsqueeze_num (x : tensor) (dim : Z) : res tensor :=
  d <- wrap_dim (ndim (sh x) + 1) dim ;;
  s <- unsqueeze_shape (sh x) dim ;;
  Ok (mkTensor s (fun idx => dat x (remove_nth idx (Z.to_nat d)))).

Definition expand_as_num (x y : tensor) : res tensor :=
  s <- expand_as_shape (sh x) (sh y) ;;
  Ok (mkTensor s (fun idx => dat x (bidx (sh x) idx))).

(** Row-major offsets. *)
Fixpoint ravel (s : shape) (idx : index) : Z :=
  match s, idx with
  | d :: s', i :: idx' => i * numel s' + ravel s' idx'
  | _, _ => 0
  end.

Fixpoint unravel (s : shape) (off : Z) : index :=
  match s with
  | [] => []
  | d :: s' => (off / numel s') :: unravel s' (off mod numel s')
  end.

Definition view_num (x : tensor) (s : shape) : res tensor :=
  s' <- view_shape (sh x) s ;;
  Ok (mkTensor s' (fun idx => dat x (unravel (sh x) (ravel s' idx)))).

Definition swap_idx (idx : index) (d0 d1 : Z) : index :=
  let a := nth (Z.to_nat d0) idx 0 in
  let b := nth (Z.to_nat d1) idx 0 in
  set_nth (set_nth idx (Z.to_nat d0) b) (Z.to_nat d1) a.

Definition transpose_num (x : tensor) (dim0 dim1 : Z) : res tensor :=
  d0 <- wrap_dim (ndim (sh x)) dim0 ;;
  d1 <- wrap_dim (ndim (sh x)) dim1 ;;
  s <- transpose_shape (sh x) dim0 dim1 ;;
  Ok (mkTensor s (fun idx => dat x (swap_idx idx d0 d1))).

Definition slice1_to_num (x : tensor) (stop : Z) : res tensor :=
  s <- slice1_to_shape (sh x) stop ;;
  Ok (mkTensor s (dat x)).

(** The last two entries of an index replaced. *)
Definition set_last2 (idx : index) (i j : Z) : index :=
  firstn (List.length idx - 2) idx ++ [i; j].

Definition row_of (idx : index) : Z := nth (List.length idx - 2) idx 0.
Definition col_of (idx : index) : Z := nth (List.length idx - 1) idx 0.

(** [torch.matmul].  On operands of two dimensions or more, entry [(i, j)]
    of every matrix of the batch is the sum over [k] of [a(i, k) * b(k, j)].
    A one-dimensional operand is a row on the left and a column on the
    right, and the dimension added for it is removed from the result. *)
Definition matmul_num (a b : tensor) : res tensor :=
  match sh a, sh b with
  | _ :: _ :: _, _ :: _ :: _ =>
      s <- matmul_shape (sh a) (sh b) ;;
      let m := dim_len (sh a) (ndim (sh a) - 1) in
      Ok (mkTensor s (fun idx =>
            sum_over m (fun k =>
              dat a (bidx (sh a) (set_last2 idx (row_of idx) k)) *
              dat b (bidx (sh b) (set_last2 idx k (col_of idx))))%R))
  | [n], [_] =>
      s <- matmul_shape (sh a) (sh b) ;;
      Ok (mkTensor s (fun _ => sum_over n (fun k => dat a [k] * dat b [k])%R))
  | [n], _ :: _ :: _ =>
      s <- matmul_shape (sh a) (sh b) ;;
      Ok (mkTensor s (fun idx =>
            sum_over n (fun k =>
              dat a [k] * dat b (removelast idx ++ [k; col_of idx]))%R))
  | _ :: _ :: _, [m] =>
      s <- matmul_shape (sh a) (sh b) ;;
      Ok (mkTensor s (fun idx =>
            sum_over m (fun k => dat a (idx ++ [k]) * dat b [k])%R))
  | _, _ => Raise RuntimeError
  end.

Definition is_zero (r : R) : bool :=
  if Req_dec_T r 0%R then true else false.

Definition masked_fill_num (x mask : tensor) (v : scalar) : res tensor :=
  s <- masked_fill (sh x) (sh mask) v ;;
  Ok (mkTensor s (fun idx =>
        if is_zero (dat mask (bidx (sh mask) idx)) then scalar_value v
        else dat x idx)).

(** The normaliser of a softmax over dimension [d] at [idx]. *)
Definition exp_sum (x : tensor) (d : Z) (idx : index) : R :=
  sum_over (dim_len (sh x) d) (fun k => exp (dat x (set_nth idx (Z.to_nat d) k))).

Definition softmax_num (x : tensor) (dim : Z) : res tensor :=
  d <- wrap_dim (ndim (sh x)) dim ;;
  Ok (mkTensor (sh x) (fun idx => (exp (dat x idx) / exp_sum x d idx)%R)).

Definition log_softmax_num (x : tensor) (dim : Z) : res tensor :=
  d <- wrap_dim (ndim (sh x)) dim ;;
  Ok (mkTensor (sh x) (fun idx => (dat x idx - ln (exp_sum x d idx))%R)).

Definition linear_num (x w : tensor) (b : option tensor) : res tensor :=
  s <- linear_shape (sh x) (sh w) (option_map sh b) ;;
  let n := dim_len (sh w) 1 in
  Ok (mkTensor s (fun idx =>
        let o := nth (List.length idx - 1) idx 0 in
        let y := sum_over n (fun k =>
                   dat x (set_nth idx (List.length idx - 1) k) * dat w [o; k])%R in
        match b with
        | Some b => (y + dat b (bidx (sh b) [o]))%R
        | None => y
        end)).

(** Every index of a tensor of shape [s]. *)
Fixpoint indices (s : shape) : list index :=
  match s with
  | [] => [[]]
  | d :: s' => flat_map (fun i => map (cons i) (indices s')) (range d)
  end.

(** Whether [r] is a row of a table of [vocab] rows. *)
Definition is_id (vocab : Z) (r : R) : bool :=
  if Rle_dec 0 r then (if Rlt_dec r (IZR vocab) then true else false)
  else false.

(** Token ids are stored as reals with integer values; an id outside the
    table raises. *)
Definition embedding_num (x w : tensor) : res tensor :=
  s <- embedding_dims (sh x) (sh w) ;;
  if forallb (fun idx => is_id (dim_len (sh w) 0) (dat x idx)) (indices (sh x))
  then
    Ok (mkTensor s (fun idx =>
          dat w [Int_part (dat x (removelast idx)); nth (List.length idx - 1) idx 0]))
  else Raise IndexError.

(** The mode the modules are in: training, the default, or evaluation,
    after [model.eval()].  In training mode [keep p x idx] is what dropout
    at rate [p] draws for the entry [idx] of [x]. *)
Inductive mode : Type :=
| Evaluation
| Training (keep : Q -> tensor -> index -> bool).

(** In training mode the entries that are not kept become zero and the
    others are divided by [1 - p]; at rate 1 all become zero. *)
Definition dropout_num (m : mode) (p : Q) (x : tensor) : res tensor :=
  s <- dropout_shape p (sh x) ;;
  match m with
  | Evaluation => Ok (mkTensor s (dat x))
  | Training keep =>
      Ok (mkTensor s (fun idx =>
            if Qeq_bool p 1 then 0%R
            else if keep p x idx then (dat x idx / (1 - Q2R p))%R
            else 0%R))
  end.

(** The table of [PositionalEncoding]: sine at even columns, cosine at odd
    ones, of the position times [exp (2i * -(log 10000 / d_model))]. *)
Definition sinusoid (d_model : Z) (idx : index) : R :=
  let pos := IZR (nth 0 idx 0) in
  let j := nth 1 idx 0 in
  let div_term := exp (IZR (2 * (j / 2)) * - (ln 10000 / IZR d_model))%R in
  if Z.even j then sin (pos * div_term) else cos (pos * div_term).

Section Runtime.

Context {H : Host}.

Variable draw : init -> shape -> index -> R.

Definition new_num (i : init) (s : shape) : res tensor :=
  s' <- new i s ;;
  Ok (mkTensor s'
        match i with
        | Ones => fun _ => 1%R
        | Zeros => fun _ => 0%R
        | Sinusoid => sinusoid (nth 1 s 0)
        | _ => draw i s
        end).

Definition runtime_in (m : mode) : Torch tensor := {|
  size := sh;
  tensor_new := new_num;
  xavier_uniform := fun a => mkTensor (sh a) (draw XavierUniform (sh a));
  t_add := bin Rplus;
  t_sub := bin Rminus;
  t_mul := bin Rmult;
  t_div := bin Rdiv;
  add_scalar := fun a s => un (fun r => r + scalar_value s)%R a;
  mul_scalar := fun a s => un (fun r => r * scalar_value s)%R a;
  div_scalar := fun a s => un (fun r => r / scalar_value s)%R a;
  mean := mean_num;
  std := std_num;
  unsqueeze := unsqueeze_num;
  expand_as := expand_as_num;
  view := view_num;
  contiguous := fun a => Ok a;
  transpose := transpose_num;
  slice1_to := slice1_to_num;
  matmul := matmul_num;
  masked_fill_eq0 := masked_fill_num;
  softmax := softmax_num;
  log_softmax := log_softmax_num;
  relu := un (Rmax 0);
  linear := linear_num;
  embedding := embedding_num;
  dropout := dropout_num m;
  cuda := fun a => _ <- cuda_device ;; Ok a
|}.

(** The runtime in evaluation mode: dropout is the identity. *)
Definition runtime : Torch tensor := runtime_in Evaluation.

End Runtime.

End Numeric.

(** * The encoder layer as the specification words it *)

Section EncoderLayerSpec.

Context {T : Type} {RT : Torch T}.

(** Step 1 of the layer: self-attention on the text, residual and norm. *)
Definition EncoderLayer_step1 (l : EncoderLayer) (seq seq_mask : T)
    : res (T * MultiHeadedAttention) :=
  s0 <- py_index (sublayer l) 0 ;;
  SublayerConnection_forward s0 seq
    (fun seq => MultiHeadedAttention_forward (self_attn l) seq seq seq (Some seq_mask)).

(** The text-over-video cross-attention, as a sublayer callable. *)
Definition text_over_video (l : EncoderLayer) (video video_mask : T) (seq : T)
    : res (T * MultiHeadedAttention) :=
  MultiHeadedAttention_forward (vid_attn l) seq video video (Some video_mask).

(** The video-over-text cross-attention, as a sublayer callable. *)
Definition video_over_text (l : EncoderLayer) (seq seq_mask : T) (video : T)
    : res (T * MultiHeadedAttention) :=
  call_option (seq_attn l) (fun a =>
    MultiHeadedAttention_forward a video seq seq (Some seq_mask)).

(** The final call: the primary feed-forward, residual and norm, on [x]. *)
Definition EncoderLayer_final (l : EncoderLayer) (x : T) : res T :=
  s4 <- py_index (sublayer l) 4 ;;
  '(out, _) <- SublayerConnection_forward s4 x
      (stateless (PositionwiseFeedForward_forward (ff1 l))) ;;
  Ok out.

(** The fused video stream and the action prediction made from it, given
    the text after step 1. *)
Definition EncoderLayer_video_branch (l : EncoderLayer)
    (seq1 seq_mask video : T) (type : string)
    : res (T * MultiHeadedAttention) :=
  s2 <- py_index (sublayer l) 2 ;;
  '(seq_vid, qa) <- SublayerConnection_forward s2 video
      (video_over_text l seq1 seq_mask) ;;
  s3 <- py_index (sublayer l) 3 ;;
  '(seq_vid, _) <- SublayerConnection_forward s3 seq_vid
      (stateless (fun x => call_option (ff2 l) (fun f =>
         PositionwiseFeedForward_forward f x))) ;;
  act_pred <- EncoderLayer_act_pred (classifier l) seq_vid type ;;
  Ok (act_pred, qa).

(** The text-over-video fusion as the layer computes it. *)
Definition EncoderLayer_vid_seq (l : EncoderLayer) (seq1 video video_mask : T)
    : res (T * MultiHeadedAttention) :=
  s1 <- py_index (sublayer l) 1 ;;
  SublayerConnection_forward s1 seq1 (text_over_video l video video_mask).

(** The video-over-text fusion as the layer computes it. *)
Definition EncoderLayer_seq_vid (l : EncoderLayer) (seq1 seq_mask video : T)
    : res (T * MultiHeadedAttention) :=
  s2 <- py_index (sublayer l) 2 ;;
  SublayerConnection_forward s2 video (video_over_text l seq1 seq_mask).

(** The text output when the final call reads the output of step 1. *)
Definition text_from_step1 (l : EncoderLayer) (seq seq_mask : T) : res T :=
  '(seq1, _) <- EncoderLayer_step1 l seq seq_mask ;;
  EncoderLayer_final l seq1.

(** The text output when the final call reads the fusion of step 2. *)
Definition text_from_fusion (l : EncoderLayer) (seq seq_mask video video_mask : T)
    : res T :=
  '(seq1, _) <- EncoderLayer_step1 l seq seq_mask ;;
  '(vid_seq, _) <- EncoderLayer_vid_seq l seq1 video video_mask ;;
  EncoderLayer_final l vid_seq.

(** The two fusions wrapped as the pooling and the pass-through variant. *)
Definition vid_seq_pooled (l : EncoderLayer) (seq1 video video_mask : T)
    : res (T * MultiHeadedAttention) :=
  s1 <- py_index (sublayer l) 1 ;;
  SublayerConnection_expand_forward s1 seq1 (text_over_video l video video_mask).

Definition seq_vid_passed_through (l : EncoderLayer) (seq1 seq_mask video : T)
    : res (T * MultiHeadedAttention) :=
  s2 <- py_index (sublayer l) 2 ;;
  SublayerConnection_nosum_forward s2 video (video_over_text l seq1 seq_mask).

(** The layer with the text-over-video attention under the pooling variant
    and the video-over-text attention under the pass-through variant, all
    else as in [EncoderLayer_forward]. *)
Definition EncoderLayer_forward_variants (l : EncoderLayer)
    (seq seq_mask video video_mask : T) (type : string)
    : res ((T * T) * EncoderLayer) :=
  '(seq, sa) <- EncoderLayer_step1 l seq seq_mask ;;
  '(vid_seq, va) <- vid_seq_pooled l seq video video_mask ;;
  '(seq_vid, qa) <- seq_vid_passed_through l seq seq_mask video ;;
  s3 <- py_index (sublayer l) 3 ;;
  '(seq_vid, _) <- SublayerConnection_forward s3 seq_vid
      (stateless (fun x => call_option (ff2 l) (fun f =>
         PositionwiseFeedForward_forward f x))) ;;
  act_pred <- EncoderLayer_act_pred (classifier l) seq_vid type ;;
  out <- EncoderLayer_final l vid_seq ;;
  Ok ((out, act_pred), EncoderLayer_set_attns l sa va (Some qa)).

(** What follows the two fusions in [EncoderLayer_forward]. *)
Definition EncoderLayer_after_fusion (l : EncoderLayer) (vid_seq seq_vid : T)
    (type : string) : res (T * T) :=
  s3 <- py_index (sublayer l) 3 ;;
  '(seq_vid, _) <- SublayerConnection_forward s3 seq_vid
      (stateless (fun x => call_option (ff2 l) (fun f =>
         PositionwiseFeedForward_forward f x))) ;;
  act_pred <- EncoderLayer_act_pred (classifier l) seq_vid type ;;
  out <- EncoderLayer_final l vid_seq ;;
  Ok (out, act_pred).

Definition text_of {S : Type} (r : res ((T * T) * S)) : res T :=
  '((out, _), _) <- r ;; Ok out.

Definition act_pred_of {S : Type} (r : res ((T * T) * S)) : res T :=
  '((_, a), _) <- r ;; Ok a.

Definition value_of {A S : Type} (r : res (A * S)) : res A :=
  '(a, _) <- r ;; Ok a.

End EncoderLayerSpec.

(** * A small layer to run symbolically

    Width 4, two heads, feed-forward width 8, built by the constructors
    [make_model] calls; text of length 2 and video of length 3 in a batch
    of one. *)

Module Example.

Import Symbolic.

Definition layer (share_classifier : bool) : res (EncoderLayer (T := tensor)) :=
  a <- MultiHeadedAttention_init 2 4 (-1) (1 # 10) ;;
  f <- PositionwiseFeedForward_init 4 8 (1 # 10) (-1) ;;
  c <- make_classifier 4 share_classifier ;;
  EncoderLayer_init 4 a a f (1 # 10) (Some a) (Some f) c.

Definition seq : tensor := input "seq" [1; 2; 4].
Definition seq_mask : tensor := input "seq_mask" [1; 1; 2].
Definition video : tensor := input "video" [1; 3; 4].
Definition video_mask : tensor := input "video_mask" [1; 1; 3].

End Example.

(** [d_model % h == 0], with Python's error on a zero divisor. *)
Definition evenly_divisible (d_model h_ : Z) : Prop :=
  h_ <> 0 /\ d_model mod h_ = 0.

(** * The end-to-end scenario, on shapes

    Vocabularies of 100 and 120 tokens, two layers, width 512, eight heads;
    a batch of two, five tokens per language, three video frames of 1024
    features.  A source mask has one row per sentence, a target mask one
    row per position of the target without its last token. *)

Module Scenario.

Import Shape.

Definition model (share_classifier : bool) : res (EncoderDecoder (T := shape)) :=
  make_model 100 120 2 512 2048 8 (1 # 10) share_classifier.

Definition en : shape := [2; 5].
Definition ensrc_mask : shape := [2; 1; 5].
Definition entgt_mask : shape := [2; 4; 4].
Definition ko : shape := [2; 5].
Definition kosrc_mask : shape := [2; 1; 5].
Definition kotgt_mask : shape := [2; 4; 4].
Definition video : shape := [2; 3; 1024].
Definition video_mask : shape := [2; 1; 3].

Definition forward (share_classifier : bool) : res (shape * shape * shape * shape) :=
  m <- model share_classifier ;;
  '(out, _) <- EncoderDecoder_forward m en ensrc_mask entgt_mask
                 ko kosrc_mask kotgt_mask video video_mask ;;
  Ok out.

(** One attention module and one encoder layer of that width. *)
Definition attn_module : res (MultiHeadedAttention (T := shape)) :=
  MultiHeadedAttention_init 8 512 (-1) (1 # 10).

Definition layer (share_classifier : bool) : res (EncoderLayer (T := shape)) :=
  a <- attn_module ;;
  f <- PositionwiseFeedForward_init 512 2048 (1 # 10) (-1) ;;
  c <- make_classifier 512 share_classifier ;;
  EncoderLayer_init 512 a a f (1 # 10) (Some a) (Some f) c.

Definition position : res (PositionalEncoding (T := shape)) :=
  PositionalEncoding_init 512 (1 # 10) 5000.

End Scenario.

(** * The action classifier on numbers *)

Module SharedClassifier.

Import Shape Numeric.

Local Open Scope R_scope.

Section Batch.

Variable draw : init -> shape -> index -> R.

(** Any weights of a 401-way classifier without bias, on width 512, and any
    fused video stream for a batch of two and three frames. *)
Variables w x : index -> R.

Definition shared : Linear (T := tensor) :=
  mkLinear (mkParam (mkTensor [401; 512]%Z w) LinearWeight) None.

Definition seq_vid : tensor := mkTensor [2; 3; 512]%Z x.

Definition act_pred (type : string) : res tensor :=
  EncoderLayer_act_pred (RT := runtime draw) (ClassifierModule shared) seq_vid type.

Definition per_language_act_pred (type : string) : res tensor :=
  EncoderLayer_act_pred (RT := runtime draw)
    (ClassifierDict [("en"%string, shared); ("ko"%string, shared)]) seq_vid type.

(** The probability mass a prediction puts on the 401 classes, for one
    sample [b] and one frame [i]. *)
Definition class_mass (a : tensor) (b i : Z) : R :=
  sum_over 401 (fun j => exp (dat a [b; i; j])).

End Batch.

End SharedClassifier.

(** * The attention primitive on numbers *)

Module AttentionSpec.

Import Shape Numeric.

Local Open Scope R_scope.

(** The constant written [-1e9] in the source. *)
Definition minus_1e9 : R := scalar_value (Lit (- (1000000000 # 1))%Q).

(** The position of the key axis, the last one, in a tensor of the shape
    of [scores]. *)
Definition key_axis (scores : tensor) : nat := Z.to_nat (ndim (sh scores) - 1).

Definition keys (scores : tensor) : Z := dim_len (sh scores) (ndim (sh scores) - 1).

(** Whether the mask, broadcast to the scores, is 0 at [idx]. *)
Definition masked (mask : tensor) (idx : index) : bool :=
  is_zero (dat mask (bidx (sh mask) idx)).

(** The score that enters the softmax at [idx]. *)
Definition masked_score (scores mask : tensor) (idx : index) : R :=
  if masked mask idx then minus_1e9 else dat scores idx.

(** [query . key^T / sqrt(d_k)] at [idx], [kt] being the transposed key. *)
Definition scaled_dot (query kt : tensor) (d_k : Z) (idx : index) : R :=
  sum_over (dim_len (sh query) (ndim (sh query) - 1))
    (fun c => dat query (bidx (sh query) (set_last2 idx (row_of idx) c)) *
              dat kt (bidx (sh kt) (set_last2 idx c (col_of idx))))
  / sqrt (IZR d_k).

(** The sum of the value vectors weighted by [p], at [idx]. *)
Definition weighted_sum (p value : tensor) (idx : index) : R :=
  sum_over (dim_len (sh p) (ndim (sh p) - 1))
    (fun j => dat p (bidx (sh p) (set_last2 idx (row_of idx) j)) *
              dat value (bidx (sh value) (set_last2 idx j (col_of idx)))).

(** A runtime whose random draws are all 0. *)
Definition draw0 : init -> shape -> index -> R := fun _ _ _ => 0.

(** One query of width 1 against two keys, both masked. *)
Definition q1 : tensor := mkTensor [1; 1]%Z (fun _ => 1).
Definition k2 : tensor := mkTensor [2; 1]%Z (fun _ => 1).
Definition v2 : tensor := mkTensor [2; 1]%Z (fun idx => IZR (nth 0 idx 0%Z)).
Definition all_masked : tensor := mkTensor [1; 2]%Z (fun _ => 0).

(** The same, with the second key visible. *)
Definition first_masked : tensor :=
  mkTensor [1; 2]%Z (fun idx => IZR (nth 1 idx 0%Z)).

End AttentionSpec.

(** * Initialisation, parameter by parameter *)

Section InitSpec.

Context {T : Type} {RT : Torch T}.




(** The parts of the model [encode] and [decode] never write. *)
Definition same_but_stacks (m m' : EncoderDecoder (T := T)) : Prop :=
  en_embed m' = en_embed m /\ ko_embed m' = ko_embed m /\
  vid_encoder m' = vid_encoder m /\
  en_generator m' = en_generator m /\ ko_generator m' = ko_generator m.

End InitSpec.


(** * More inputs for the examples *)

Module Inputs.

(** An encoder layer built with the constructor's defaults: no
    [seq_attn], no [ff2], no [classifier]. *)
Definition bare_layer : res (EncoderLayer (T := Shape.shape)) :=
  a <- Scenario.attn_module ;;
  f <- PositionwiseFeedForward_init 512 2048 (1 # 10) (-1) ;;
  EncoderLayer_init 512 a a f (1 # 10) None None ClassifierNone.

(** Another mask for the video of [Example]. *)
Definition other_video_mask : Symbolic.tensor :=
  Symbolic.input "other_video_mask" [1; 1; 3].

(** The decoder layer of the scenario. *)
Definition decoder_layer : res (DecoderLayer (T := Shape.shape)) :=
  a <- Scenario.attn_module ;;
  f <- PositionwiseFeedForward_init 512 2048 (1 # 10) (-1) ;;
  DecoderLayer_init 512 a a f (1 # 10).

End Inputs.

(** The attention module [MultiHeadedAttention(h, h * dk, d_in)] builds, on
    shapes, [d] being the width of its input. *)
Definition attn_module_of (h_ dk d : Z) (p : Q) : MultiHeadedAttention (T := Shape.shape) :=
  let l := mkLinear (mkParam [h_ * dk; d] LinearWeight)
                    (Some (mkParam [h_ * dk] LinearBias)) in
  let l4 := mkLinear (mkParam [d; h_ * dk] LinearWeight)
                     (Some (mkParam [d] LinearBias)) in
  mkMHA dk (h_ * dk) h_ [l; l; l; l4] None (mkDropout p).

(** * Distributions along the last axis *)

Module LastAxis.

Import Shape Numeric.

Local Open Scope R_scope.

Definition last_axis (x : tensor) : nat := Z.to_nat (ndim (sh x) - 1).

Definition last_len (x : tensor) : Z := dim_len (sh x) (ndim (sh x) - 1).

(** The sum of [f] over the entries that differ from [idx] in the last
    position only. *)
Definition along_last (x : tensor) (f : R -> R) (idx : index) : R :=
  sum_over (last_len x) (fun j => f (dat x (set_nth idx (last_axis x) j))).

(** A generator of three words on width 2, and one position to project. *)
Definition small_generator : Generator (T := tensor) :=
  mkGenerator
    (mkLinear (mkParam (mkTensor [3; 2]%Z (fun idx => IZR (nth 0 idx 0%Z))) LinearWeight)
              (Some (mkParam (mkTensor [3]%Z (fun _ => 0)) LinearBias))).

Definition small_hidden : tensor := mkTensor [1; 1; 2]%Z (fun _ => 1).

(** A layer norm over three features, with scale and shift of any
    values. *)
Definition small_norm : LayerNorm (T := tensor) :=
  mkLayerNorm (mkParam (mkTensor [3]%Z (fun idx => IZR (nth 0 idx 0%Z) + 1)) Ones)
              (mkParam (mkTensor [3]%Z (fun idx => IZR (nth 0 idx 0%Z))) Zeros)
              (1 # 1000000).

(** Two positions of three features. *)
Definition small_text : tensor :=
  mkTensor [1; 2; 3]%Z (fun idx => IZR (nth 1 idx 0%Z) + IZR (nth 2 idx 0%Z)).

(** A sublayer that returns the same tensor whatever it is given. *)
Definition constant_sublayer (_ : tensor) : res (tensor * unit) :=
  Ok (small_text, tt).

Definition small_connection : SublayerConnection (T := tensor) :=
  mkSublayerConnection small_norm (mkDropout (1 # 10)).

(** A feed-forward module of width 2 and inner width 3, and two texts of
    two positions that agree at the first position only. *)
Definition small_ff : PositionwiseFeedForward (T := tensor) :=
  mkFF (mkLinear (mkParam (mkTensor [3; 2]%Z (fun idx => IZR (nth 0 idx 0%Z) - 1))
                          LinearWeight)
                 (Some (mkParam (mkTensor [3]%Z (fun _ => 0)) LinearBias)))
       (mkLinear (mkParam (mkTensor [2; 3]%Z (fun _ => 1)) LinearWeight)
                 (Some (mkParam (mkTensor [2]%Z (fun _ => 0)) LinearBias)))
       (mkDropout (1 # 10)).

(** The last position of an index. *)
Definition feature (idx : index) : nat := (List.length idx - 1)%nat.

(** [a] and [b] hold the same vector at the position of [idx]. *)
Definition same_row (a b : tensor) (idx : index) : Prop :=
  forall k, dat a (set_nth idx (feature idx) k) = dat b (set_nth idx (feature idx) k).

Definition two_positions : tensor :=
  mkTensor [1; 2; 2]%Z (fun idx => IZR (nth 2 idx 0%Z)).

Definition two_positions_changed : tensor :=
  mkTensor [1; 2; 2]%Z
    (fun idx => if (nth 1 idx 0 =? 0)%Z then IZR (nth 2 idx 0%Z) else 5).

End LastAxis.

(** * Well-shaped modules

    What the shape of every parameter of a module has to be for a model of
    width [D = h * dk]; the initialisation tags and the stored attention
    weights are free. *)

Module WellShaped.

Import Shape.

Definition dropout_valid (dp : Dropout) : Prop :=
  (Qle_bool 0 (drop_p dp) && Qle_bool (drop_p dp) 1)%bool = true.

Definition linear_ok (i o : Z) (l : Linear (T := shape)) : Prop :=
  pdata (lin_weight l) = [o; i] /\ option_map pdata (lin_bias l) = Some [o].

Definition norm_ok (D : Z) (n : LayerNorm (T := shape)) : Prop :=
  pdata (a_2 n) = [D] /\ pdata (b_2 n) = [D].

Definition connection_ok (D : Z) (sc : SublayerConnection (T := shape)) : Prop :=
  norm_ok D (norm sc) /\ dropout_valid (sc_dropout sc).

Definition attn_ok (h_ dk : Z) (m : MultiHeadedAttention (T := shape)) : Prop :=
  h m = h_ /\ d_k m = dk /\ dropout_valid (mha_dropout m) /\
  exists l1 l2 l3 l4,
    linears m = [l1; l2; l3; l4] /\
    linear_ok (h_ * dk) (h_ * dk) l1 /\ linear_ok (h_ * dk) (h_ * dk) l2 /\
    linear_ok (h_ * dk) (h_ * dk) l3 /\ linear_ok (h_ * dk) (h_ * dk) l4.

Definition ff_ok (D d_ff : Z) (f : PositionwiseFeedForward (T := shape)) : Prop :=
  linear_ok D d_ff (w_1 f) /\ linear_ok d_ff D (w_2 f) /\ dropout_valid (ff_dropout f).

Definition classifier_ok (D : Z) (c : Classifier (T := shape)) : Prop :=
  match c with
  | ClassifierModule l =>
      pdata (lin_weight l) = [401; D] /\ lin_bias l = None
  | ClassifierDict d =>
      exists en_c ko_c,
        d = [("en"%string, en_c); ("ko"%string, ko_c)] /\
        pdata (lin_weight en_c) = [401; D] /\ lin_bias en_c = None /\
        pdata (lin_weight ko_c) = [401; D] /\ lin_bias ko_c = None
  | ClassifierNone => False
  end.

Definition encoder_layer_ok (h_ dk d_ff : Z) (l : EncoderLayer (T := shape)) : Prop :=
  attn_ok h_ dk (self_attn l) /\ attn_ok h_ dk (vid_attn l) /\
  ff_ok (h_ * dk) d_ff (ff1 l) /\
  (exists s0 s1 s2 s3 s4,
     sublayer l = [s0; s1; s2; s3; s4] /\
     connection_ok (h_ * dk) s0 /\ connection_ok (h_ * dk) s1 /\
     connection_ok (h_ * dk) s2 /\ connection_ok (h_ * dk) s3 /\
     connection_ok (h_ * dk) s4) /\
  (exists a, seq_attn l = Some a /\ attn_ok h_ dk a) /\
  (exists f, ff2 l = Some f /\ ff_ok (h_ * dk) d_ff f) /\
  classifier_ok (h_ * dk) (classifier l).

Definition decoder_layer_ok (h_ dk d_ff : Z) (l : DecoderLayer (T := shape)) : Prop :=
  attn_ok h_ dk (dl_self_attn l) /\ attn_ok h_ dk (src_attn l) /\
  ff_ok (h_ * dk) d_ff (feed_forward l) /\
  exists s0 s1 s2,
    dl_sublayer l = [s0; s1; s2] /\
    connection_ok (h_ * dk) s0 /\ connection_ok (h_ * dk) s1 /\
    connection_ok (h_ * dk) s2.

Definition encoder_ok (h_ dk d_ff : Z) (e : Encoder (T := shape)) : Prop :=
  enc_layers e <> [] /\
  Forall (encoder_layer_ok h_ dk d_ff) (enc_layers e) /\
  norm_ok (h_ * dk) (enc_norm e).

Definition decoder_ok (h_ dk d_ff : Z) (d : Decoder (T := shape)) : Prop :=
  Forall (decoder_layer_ok h_ dk d_ff) (dec_layers d) /\
  norm_ok (h_ * dk) (dec_norm d).

Definition position_ok (D : Z) (pos : PositionalEncoding (T := shape)) : Prop :=
  pe pos = [1; 5000; D] /\ dropout_valid (pe_dropout pos).

Definition embed_ok (vocab D : Z) (e : Embed (T := shape)) : Prop :=
  pdata (lut (emb e)) = [vocab; D] /\ position_ok D (emb_position e).

Definition vid_encoder_ok (D : Z) (v : VidEncoder (T := shape)) : Prop :=
  linear_ok 1024 D (vid_linear v) /\ position_ok D (vid_position v).

Definition model_ok (en_vocab ko_vocab h_ dk d_ff : Z)
    (m : EncoderDecoder (T := shape)) : Prop :=
  embed_ok en_vocab (h_ * dk) (en_embed m) /\
  embed_ok ko_vocab (h_ * dk) (ko_embed m) /\
  vid_encoder_ok (h_ * dk) (vid_encoder m) /\
  encoder_ok h_ dk d_ff (encoder m) /\ decoder_ok h_ dk d_ff (decoder m).

End WellShaped.

(** * Theorems *)

Unset Implicit Arguments.

(** ** The error monad *)

Lemma bind_ok {A B : Type} (a : A) (f : A -> res B) : bind (Ok a) f = f a.
Proof. reflexivity. Qed.

Lemma bind_raise {A B : Type} (e : exn) (f : A -> res B) :
  bind (Raise e) f = Raise e.
Proof. reflexivity. Qed.

Lemma bind_assoc {A B C : Type} (m : res A) (f : A -> res B) (g : B -> res C) :
  bind (bind m f) g = bind m (fun a => bind (f a) g).
Proof. destruct m; reflexivity. Qed.

Lemma bind_inv {A B : Type} (m : res A) (f : A -> res B) (b : B) :
  bind m f = Ok b -> exists a, m = Ok a /\ f a = Ok b.
Proof.
  destruct m as [a|e]; simpl; intros H; [eauto | discriminate].
Qed.

(** Case analysis on the first computation under a [bind]. *)
Ltac bind_case :=
  match goal with
  | |- context [bind ?m _] =>
      lazymatch m with
      | Ok _ => rewrite bind_ok
      | Raise _ => rewrite bind_raise
      | bind _ _ => rewrite !bind_assoc
      | _ => let E := fresh "E" in destruct m as [?|?] eqn:E
      end
  end.

Ltac pair_case :=
  match goal with
  | |- context [match ?p with (_, _) => _ end] =>
      is_var p; destruct p
  end.

Ltac run_binds := repeat (first [pair_case | bind_case]; cbn [bind]); try reflexivity.

(** ** The encoder layer *)

Section EncoderLayerFacts.

Context {T : Type} {RT : Torch T}.

(** [EncoderLayer.forward], line by line. *)
Lemma EncoderLayer_forward_steps (l : EncoderLayer)
    (seq seq_mask video video_mask : T) (type : string) :
  EncoderLayer_forward l seq seq_mask video video_mask type =
  '(seq1, sa) <- EncoderLayer_step1 l seq seq_mask ;;
  '(vid_seq, va) <- EncoderLayer_vid_seq l seq1 video video_mask ;;
  '(seq_vid, qa) <- EncoderLayer_seq_vid l seq1 seq_mask video ;;
  '(out, act_pred) <- EncoderLayer_after_fusion l vid_seq seq_vid type ;;
  Ok ((out, act_pred), EncoderLayer_set_attns l sa va (Some qa)).
Proof.
  unfold EncoderLayer_forward, EncoderLayer_step1, EncoderLayer_vid_seq,
    EncoderLayer_seq_vid, EncoderLayer_after_fusion, EncoderLayer_final,
    text_over_video, video_over_text.
  run_binds.
Qed.

End EncoderLayerFacts.

Section EncoderLayerWiring.

Context {T : Type} {RT : Torch T}.

(** C1 (as the code has it): the text a layer returns is the primary
    feed-forward, with residual and norm, applied to [vid_seq], the
    text-over-video fusion of step 2, itself computed from the output of
    step 1; the video branch runs in between and only contributes the
    action prediction. *)
Theorem EncoderLayer_text_reads_fusion (l : EncoderLayer)
    (seq seq_mask video video_mask : T) (type : string) :
  text_of (EncoderLayer_forward l seq seq_mask video video_mask type) =
  '(seq1, _) <- EncoderLayer_step1 l seq seq_mask ;;
  '(vid_seq, _) <- EncoderLayer_vid_seq l seq1 video video_mask ;;
  _ <- EncoderLayer_video_branch l seq1 seq_mask video type ;;
  EncoderLayer_final l vid_seq.
Proof.
  rewrite EncoderLayer_forward_steps.
  unfold text_of, EncoderLayer_video_branch, EncoderLayer_seq_vid,
    EncoderLayer_after_fusion.
  run_binds.
Qed.

(** The residual wrapper: [x + dropout(sublayer(norm(x)))]. *)
Lemma SublayerConnection_forward_residual {S : Type} (sc : SublayerConnection)
    (x : T) (f : T -> res (T * S)) :
  SublayerConnection_forward sc x f =
  n <- LayerNorm_forward (norm sc) x ;;
  '(y, s) <- f n ;;
  d <- dropout (drop_p (sc_dropout sc)) y ;;
  r <- t_add x d ;;
  Ok (r, s).
Proof. reflexivity. Qed.

(** C2 (as the code has it): both cross-attentions, text over video and
    video over text, are wrapped by the plain residual variant
    [SublayerConnection.forward], which adds its input back to the
    transformed value; neither the pooling nor the pass-through variant is
    called. *)
Theorem EncoderLayer_fusions_are_residual (l : EncoderLayer)
    (seq seq_mask video video_mask : T) (type : string) :
  EncoderLayer_forward l seq seq_mask video video_mask type =
  '(seq1, sa) <- EncoderLayer_step1 l seq seq_mask ;;
  s1 <- py_index (sublayer l) 1 ;;
  '(vid_seq, va) <-
     (n <- LayerNorm_forward (norm s1) seq1 ;;
      '(y, s) <- MultiHeadedAttention_forward (vid_attn l) n video video
                   (Some video_mask) ;;
      d <- dropout (drop_p (sc_dropout s1)) y ;;
      r <- t_add seq1 d ;;
      Ok (r, s)) ;;
  s2 <- py_index (sublayer l) 2 ;;
  '(seq_vid, qa) <-
     (n <- LayerNorm_forward (norm s2) video ;;
      '(y, s) <- call_option (seq_attn l) (fun a =>
                   MultiHeadedAttention_forward a n seq1 seq1 (Some seq_mask)) ;;
      d <- dropout (drop_p (sc_dropout s2)) y ;;
      r <- t_add video d ;;
      Ok (r, s)) ;;
  '(out, act_pred) <- EncoderLayer_after_fusion l vid_seq seq_vid type ;;
  Ok ((out, act_pred), EncoderLayer_set_attns l sa va (Some qa)).
Proof.
  rewrite EncoderLayer_forward_steps.
  unfold EncoderLayer_vid_seq, EncoderLayer_seq_vid, text_over_video,
    video_over_text, SublayerConnection_forward, Dropout_forward.
  run_binds.
Qed.

End EncoderLayerWiring.

(** C1, refuted as stated: on the example layer the text output is computed
    from the video, while the feed-forward of the output of step 1 is not. *)
Lemma EncoderLayer_text_is_not_from_step1 :
  exists l out claimed,
    Example.layer false = Ok l /\
    text_of (EncoderLayer_forward l Example.seq Example.seq_mask
               Example.video Example.video_mask "en2ko") = Ok out /\
    text_from_step1 l Example.seq Example.seq_mask = Ok claimed /\
    Symbolic.mentions "video" (Symbolic.ex out) = true /\
    Symbolic.mentions "video" (Symbolic.ex claimed) = false /\
    out <> claimed.
Proof.
  eexists. eexists. eexists.
  split; [vm_compute; reflexivity|].
  split; [vm_compute; reflexivity|].
  split; [vm_compute; reflexivity|].
  split; [vm_compute; reflexivity|].
  split; [vm_compute; reflexivity|].
  intros H.
  apply (f_equal (fun t => Symbolic.mentions "video" (Symbolic.ex t))) in H.
  vm_compute in H. discriminate H.
Qed.

(** C2, refuted as stated: on the example layer the code and the layer
    with the pooling and pass-through variants disagree on both outputs;
    the text the code returns went through no [expand_as], and the fused
    video stream of the code is a sum with the video where the
    pass-through variant ends in the dropout. *)
Lemma EncoderLayer_fusions_are_not_the_variants :
  exists l out act out' act' seq1 sv sv',
    Example.layer false = Ok l /\
    value_of (EncoderLayer_forward l Example.seq Example.seq_mask
      Example.video Example.video_mask "en2ko") = Ok (out, act) /\
    value_of (EncoderLayer_forward_variants l Example.seq Example.seq_mask
      Example.video Example.video_mask "en2ko") = Ok (out', act') /\
    out <> out' /\ act <> act' /\
    Symbolic.count_op Symbolic.is_expand_as (Symbolic.ex out) = 0%nat /\
    Symbolic.count_op Symbolic.is_expand_as (Symbolic.ex out') <> 0%nat /\
    value_of (EncoderLayer_step1 l Example.seq Example.seq_mask) = Ok seq1 /\
    value_of (EncoderLayer_seq_vid l seq1 Example.seq_mask Example.video) = Ok sv /\
    value_of (seq_vid_passed_through l seq1 Example.seq_mask Example.video) = Ok sv' /\
    Symbolic.head (Symbolic.ex sv) = Some Symbolic.OAdd /\
    Symbolic.head (Symbolic.ex sv') = Some (Symbolic.ODropout (1 # 10)).
Proof.
  do 8 eexists.
  split; [vm_compute; reflexivity|].
  split; [vm_compute; reflexivity|].
  split; [vm_compute; reflexivity|].
  split.
  { intros H.
    apply (f_equal (fun t => Symbolic.count_op Symbolic.is_expand_as (Symbolic.ex t))) in H.
    vm_compute in H. discriminate H. }
  split.
  { intros H.
    apply (f_equal (fun t => Symbolic.count_op (fun _ => true) (Symbolic.ex t))) in H.
    vm_compute in H. discriminate H. }
  split; [vm_compute; reflexivity|].
  split; [vm_compute; discriminate|].
  split; [vm_compute; reflexivity|].
  split; [vm_compute; reflexivity|].
  split; [vm_compute; reflexivity|].
  split; vm_compute; reflexivity.
Qed.

(** ** The encoder stack *)

Section EncoderFacts.

Context {T : Type} {RT : Torch T}.

Lemma Encoder_loop_app (l1 l2 : list EncoderLayer) (x : T) (a : option T)
    (mask video video_mask : T) (type : string) :
  Encoder_loop (l1 ++ l2) x a mask video video_mask type =
  '((x1, a1), l1') <- Encoder_loop l1 x a mask video video_mask type ;;
  '((x2, a2), l2') <- Encoder_loop l2 x1 a1 mask video video_mask type ;;
  Ok ((x2, a2), l1' ++ l2').
Proof.
  revert x a.
  induction l1 as [|layer l1 IH]; intros x a; cbn [Encoder_loop app].
  - rewrite bind_ok.
    destruct (Encoder_loop l2 x a mask video video_mask type) as [[[x2 a2] l2']|e];
      reflexivity.
  - destruct (EncoderLayer_forward layer x mask video video_mask type)
      as [[[x' a'] layer']|e]; cbn [bind]; [|reflexivity].
    rewrite IH.
    destruct (Encoder_loop l1 x' (Some a') mask video video_mask type)
      as [[[x1 a1] l1']|e]; cbn [bind]; [|reflexivity].
    destruct (Encoder_loop l2 x1 a1 mask video video_mask type)
      as [[[x2 a2] l2']|e]; reflexivity.
Qed.

Lemma clones_snoc {M : Type} (module : M) (N : Z) :
  1 <= N -> clones module N = clones module (N - 1) ++ [module].
Proof.
  intros HN. unfold clones, range_len.
  replace (Z.to_nat N) with (S (Z.to_nat (N - 1))) by lia.
  cbn [repeat]. apply repeat_cons.
Qed.

Lemma clones_nil {M : Type} (module : M) (N : Z) :
  N <= 0 -> clones module N = [].
Proof.
  intros HN. unfold clones, range_len.
  replace (Z.to_nat N) with 0%nat by lia. reflexivity.
Qed.

(** A stack that ends in [last]: the result is the closing norm of the text
    [last] returns, with the action prediction [last] returns. *)
Lemma Encoder_forward_snoc (e : Encoder) (front : list EncoderLayer)
    (last_ : EncoderLayer) (x mask video video_mask : T) (type : string) :
  enc_layers e = front ++ [last_] ->
  Encoder_forward e x mask video video_mask type =
  '((x1, _), front') <- Encoder_loop front x None mask video video_mask type ;;
  '((x2, a), last') <- EncoderLayer_forward last_ x1 mask video video_mask type ;;
  n <- LayerNorm_forward (enc_norm e) x2 ;;
  Ok ((n, a), mkEncoder (front' ++ [last']) (enc_norm e)).
Proof.
  intros E. unfold Encoder_forward. rewrite E, Encoder_loop_app.
  destruct (Encoder_loop front x None mask video video_mask type)
    as [[[x1 a1] front']|err]; cbn [bind]; [|reflexivity].
  cbn [Encoder_loop].
  destruct (EncoderLayer_forward last_ x1 mask video video_mask type)
    as [[[x2 a] last']|err]; cbn [bind]; reflexivity.
Qed.

Lemma Encoder_forward_nil (e : Encoder) (x mask video video_mask : T)
    (type : string) :
  enc_layers e = [] ->
  Encoder_forward e x mask video video_mask type =
  (_ <- LayerNorm_forward (enc_norm e) x ;; Raise UnboundLocalError).
Proof.
  intros E. unfold Encoder_forward. rewrite E. reflexivity.
Qed.

(** C10: an encoder built with [N >= 1] layers returns the closing norm of
    the last layer's text with exactly the last layer's action prediction,
    and has no path to the unassigned variable; built with [N <= 0] layers
    it never assigns [act_pred] and the call fails. *)
Theorem Encoder_forward_needs_a_layer (layer : EncoderLayer) (N : Z) (e : Encoder)
    (x mask video video_mask : T) (type : string) :
  Encoder_init layer N = Ok e ->
  (1 <= N ->
   Encoder_forward e x mask video video_mask type =
   '((x1, _), front') <-
      Encoder_loop (clones layer (N - 1)) x None mask video video_mask type ;;
   '((x2, a), last') <- EncoderLayer_forward layer x1 mask video video_mask type ;;
   n <- LayerNorm_forward (enc_norm e) x2 ;;
   Ok ((n, a), mkEncoder (front' ++ [last']) (enc_norm e)))
  /\
  (N <= 0 ->
   enc_layers e = [] /\
   fails (Encoder_forward e x mask video video_mask type) /\
   Encoder_forward e x mask video video_mask type =
   (_ <- LayerNorm_forward (enc_norm e) x ;; Raise UnboundLocalError)).
Proof.
  intros Hinit. unfold Encoder_init in Hinit.
  apply bind_inv in Hinit. destruct Hinit as [n [_ Hn]].
  injection Hn as <-. cbn [enc_layers enc_norm].
  split; intros HN.
  - apply Encoder_forward_snoc. cbn [enc_layers]. apply clones_snoc, HN.
  - assert (El : clones layer N = []) by (apply clones_nil, HN).
    split; [exact El|].
    rewrite (Encoder_forward_nil _ x mask video video_mask type)
      by (cbn [enc_layers]; exact El).
    split; [|reflexivity].
    cbn [enc_norm].
    destruct (LayerNorm_forward n x) as [y|err]; cbn [bind]; eexists; reflexivity.
Qed.

End EncoderFacts.

Lemma Encoder_forward_needs_a_layer_witness :
  exists layer e,
    Scenario.layer false = Ok layer /\
    Encoder_init layer 2 = Ok e /\
    Encoder_forward e [2; 5; 512] Scenario.ensrc_mask [2; 3; 512]
      Scenario.video_mask "en2ko"%string =
    ('((x1, _), front') <-
        Encoder_loop (clones layer (2 - 1)) [2; 5; 512] None Scenario.ensrc_mask
          [2; 3; 512] Scenario.video_mask "en2ko"%string ;;
     '((x2, a), last') <-
        EncoderLayer_forward layer x1 Scenario.ensrc_mask [2; 3; 512]
          Scenario.video_mask "en2ko"%string ;;
     n <- LayerNorm_forward (enc_norm e) x2 ;;
     Ok ((n, a), mkEncoder (front' ++ [last']) (enc_norm e))).
Proof.
  eexists. eexists.
  split; [vm_compute; reflexivity|].
  match goal with
  | |- ?A /\ _ => assert (H : A) by (vm_compute; reflexivity); split; [exact H|]
  end.
  exact (proj1 (Encoder_forward_needs_a_layer _ 2 _ [2; 5; 512] Scenario.ensrc_mask
                  [2; 3; 512] Scenario.video_mask "en2ko"%string H) ltac:(lia)).
Defined.

(** The scenario's encoder stack returns text of shape (2, 5, 512) and an
    action prediction of shape (2, 3, 401); without layers it raises. *)
Example Encoder_forward_runs :
  (layer <- Scenario.layer false ;;
   e <- Encoder_init layer 2 ;;
   value_of (Encoder_forward e [2; 5; 512] Scenario.ensrc_mask [2; 3; 512]
               Scenario.video_mask "en2ko"%string))
  = Ok ([2; 5; 512], [2; 3; 401])
  /\
  (layer <- Scenario.layer false ;;
   e <- Encoder_init layer 0 ;;
   value_of (Encoder_forward e [2; 5; 512] Scenario.ensrc_mask [2; 3; 512]
               Scenario.video_mask "en2ko"%string))
  = Raise UnboundLocalError.
Proof. split; vm_compute; reflexivity. Qed.

(** ** Multi-headed attention *)

Section AttentionState.

Context {T : Type} {RT : Torch T}.

Lemma mapM_length {A B : Type} (f : A -> res B) (l : list A) (r : list B) :
  mapM f l = Ok r -> List.length r = List.length l.
Proof.
  revert r. induction l as [|a l IH]; intros r H; cbn [mapM] in H.
  - injection H as <-. reflexivity.
  - apply bind_inv in H. destruct H as [b [_ H]].
    apply bind_inv in H. destruct H as [bs [Hbs H]].
    injection H as <-. cbn. rewrite (IH _ Hbs). reflexivity.
Qed.

(** What a call that returns went through: the three projections of the
    query, the key and the value by the first three linear maps, in that
    order, one call of [attention] on them, and the assignment of the
    distribution that call returned to [attn]. *)
Lemma MultiHeadedAttention_forward_inv (m m' : MultiHeadedAttention)
    (query key value out : T) (mask : option T) :
  MultiHeadedAttention_forward m query key value mask = Ok (out, m') ->
  exists nbatches qT qC l1 l2 l3 rest q k v mask' x p,
    size query = [nbatches; qT; qC] /\
    linears m = l1 :: l2 :: l3 :: rest /\
    project_heads m nbatches (l1, query) = Ok q /\
    project_heads m nbatches (l2, key) = Ok k /\
    project_heads m nbatches (l3, value) = Ok v /\
    match mask with
    | Some km => u <- unsqueeze km 1 ;; Ok (Some u)
    | None => Ok None
    end = Ok mask' /\
    attention q k v mask' (Some (mha_dropout m)) = Ok (x, p) /\
    m' = set_attn m p.
Proof.
  unfold MultiHeadedAttention_forward. intros H.
  apply bind_inv in H. destruct H as [mask' [Hmask H]].
  destruct (size query) as [|nbatches [|qT [|qC [|? ?]]]]; try discriminate H.
  apply bind_inv in H. destruct H as [qkv [Hqkv H]].
  destruct qkv as [|q [|k [|v [|? ?]]]]; try discriminate H.
  apply bind_inv in H. destruct H as [[x p] [Hatt H]].
  apply bind_inv in H. destruct H as [x1 [_ H]].
  apply bind_inv in H. destruct H as [x2 [_ H]].
  apply bind_inv in H. destruct H as [x3 [_ H]].
  apply bind_inv in H. destruct H as [last_ [_ H]].
  apply bind_inv in H. destruct H as [o [_ H]].
  injection H as _ <-.
  destruct (linears m) as [|l1 [|l2 [|l3 rest]]];
    try (apply mapM_length in Hqkv; discriminate Hqkv).
  cbn [combine mapM] in Hqkv.
  apply bind_inv in Hqkv. destruct Hqkv as [q0 [Hq Hqkv]].
  apply bind_inv in Hqkv. destruct Hqkv as [r1 [Hr1 Hqkv]].
  apply bind_inv in Hr1. destruct Hr1 as [k0 [Hk Hr1]].
  apply bind_inv in Hr1. destruct Hr1 as [r2 [Hr2 Hr1]].
  apply bind_inv in Hr2. destruct Hr2 as [v0 [Hv Hr2]].
  rewrite combine_nil in Hr2. cbn [mapM bind] in Hr2.
  injection Hr2 as <-. injection Hr1 as <-. injection Hqkv as <- <- <-.
  exists nbatches, qT, qC, l1, l2, l3, rest, q0, k0, v0, mask', x, p.
  repeat split; assumption.
Qed.

End AttentionState.

(** C8, refuted as stated: a fresh module has no stored weights; after one
    call on the scenario's text it holds a tensor of shape
    (batch, heads, time, time) = (2, 8, 5, 5), so the module has changed. *)
Lemma MultiHeadedAttention_forward_changes_module :
  exists m out m',
    Scenario.attn_module = Ok m /\
    MultiHeadedAttention_forward m [2; 5; 512] [2; 5; 512] [2; 5; 512]
      (Some [2; 1; 5]) = Ok (out, m') /\
    attn m = None /\
    attn m' = Some [2; 8; 5; 5] /\
    m' <> m.
Proof.
  eexists. eexists. eexists.
  split; [vm_compute; reflexivity|].
  split; [vm_compute; reflexivity|].
  split; [reflexivity|].
  split; [reflexivity|].
  intros H. apply (f_equal (fun x => attn x)) in H. discriminate H.
Qed.

(** ** Construction *)

Lemma Linear_init_shape (i o : Z) (b : bool) :
  0 <= i -> 0 <= o ->
  exists l : Linear (T := Shape.shape), Linear_init i o b = Ok l.
Proof.
  intros Hi Ho. unfold Linear_init, Param_new. cbn.
  unfold Shape.new, Shape.valid. cbn.
  destruct (Z.leb_spec 0 o); [|lia].
  destruct (Z.leb_spec 0 i); [|lia].
  cbn. destruct b; cbn; eexists; reflexivity.
Qed.

(** C7 (as the code has it): the constructor raises [ZeroDivisionError]
    when the head count is 0 and [AssertionError] when it is not 0 and does
    not evenly divide the width, before anything else is looked at; when it
    divides a non-negative width and the dropout rate is within [0, 1] the
    module is built with [d_k = d_model // h]; a module is built under
    these three conditions only; and [make_model], which constructs the
    attention module first, fails with the exception of the constructor. *)
Theorem MultiHeadedAttention_init_divisible (h_ d_model d_in : Z) (p : Q) :
  (h_ = 0 ->
   MultiHeadedAttention_init (T := Shape.shape) h_ d_model d_in p
   = Raise ZeroDivisionError)
  /\
  (h_ <> 0 -> d_model mod h_ <> 0 ->
   MultiHeadedAttention_init (T := Shape.shape) h_ d_model d_in p
   = Raise AssertionError)
  /\
  (evenly_divisible d_model h_ -> 0 <= d_model ->
   (Qle_bool 0 p && Qle_bool p 1)%bool = true ->
   exists m, MultiHeadedAttention_init (T := Shape.shape) h_ d_model d_in p = Ok m /\
             d_k m = d_model / h_ /\ d_k m * h_ = d_model /\ h m = h_)
  /\
  (forall m,
     MultiHeadedAttention_init (T := Shape.shape) h_ d_model d_in p = Ok m ->
     evenly_divisible d_model h_ /\ 0 <= d_model /\
     (Qle_bool 0 p && Qle_bool p 1)%bool = true)
  /\
  (forall en_vocab ko_vocab N d_ff q share e,
     MultiHeadedAttention_init (T := Shape.shape) h_ d_model (-1) (1 # 10) = Raise e ->
     make_model (T := Shape.shape) en_vocab ko_vocab N d_model d_ff h_ q share
     = Raise e).
Proof.
  split; [|split; [|split; [|split]]].
  - intros ->. reflexivity.
  - intros Hh Hm. unfold MultiHeadedAttention_init.
    destruct (Z.eqb_spec h_ 0) as [|_]; [contradiction|].
    destruct (Z.eqb_spec (d_model mod h_) 0) as [|_]; [contradiction|].
    reflexivity.
  - intros [Hh Hm] Hd Hp. unfold MultiHeadedAttention_init.
    destruct (Z.eqb_spec h_ 0) as [|_]; [contradiction|].
    destruct (Z.eqb_spec (d_model mod h_) 0) as [_|]; [|contradiction].
    cbn [negb].
    set (d := if d_in <? 0 then d_model else d_in).
    assert (0 <= d) by (subst d; destruct (Z.ltb_spec d_in 0); lia).
    destruct (Linear_init_shape d d_model true) as [l E1]; try assumption.
    rewrite E1; cbn [bind].
    destruct (Linear_init_shape d_model d true) as [l4 E4]; try assumption.
    rewrite E4. cbn [bind]. unfold Dropout_init. rewrite Hp. cbn [bind].
    eexists. split; [reflexivity|]. cbn.
    repeat split.
    pose proof (Z.div_mod d_model h_ Hh). lia.
  - intros m. unfold MultiHeadedAttention_init.
    destruct (Z.eqb_spec h_ 0) as [|Hh]; [discriminate|].
    destruct (Z.eqb_spec (d_model mod h_) 0) as [Hm|_]; [|discriminate].
    cbn [negb]. intros H.
    apply bind_inv in H. destruct H as [l [El H]].
    apply bind_inv in H. destruct H as [l4 [_ H]].
    apply bind_inv in H. destruct H as [dp [Hdp _]].
    split; [split; assumption|]. split.
    + unfold Linear_init, Param_new in El.
      apply bind_inv in El. destruct El as [w [Ew _]].
      apply bind_inv in Ew. destruct Ew as [t [Et _]].
      cbn in Et. unfold Shape.new, Shape.valid in Et. cbn in Et.
      destruct (Z.leb_spec 0 d_model); [assumption|discriminate Et].
    + unfold Dropout_init in Hdp.
      destruct (Qle_bool 0 p && Qle_bool p 1)%bool; [reflexivity|discriminate Hdp].
  - intros en_vocab ko_vocab N d_ff q share e He.
    unfold make_model, make_model_build. rewrite He. reflexivity.
Qed.

Lemma MultiHeadedAttention_init_divisible_witness :
  MultiHeadedAttention_init (T := Shape.shape) 7 512 (-1) (1 # 10) = Raise AssertionError
  /\
  (exists m, MultiHeadedAttention_init (T := Shape.shape) 8 512 (-1) (1 # 10) = Ok m /\
             d_k m = 512 / 8 /\ d_k m * 8 = 512 /\ h m = 8)
  /\
  make_model (T := Shape.shape) 100 120 2 512 2048 7 (1 # 10) true
  = Raise AssertionError.
Proof.
  split; [|split].
  - exact (proj1 (proj2 (MultiHeadedAttention_init_divisible 7 512 (-1) (1 # 10)))
             ltac:(lia) ltac:(vm_compute; discriminate)).
  - apply (proj1 (proj2 (proj2 (MultiHeadedAttention_init_divisible 8 512 (-1) (1 # 10)))));
      [split; [lia|reflexivity]|lia|reflexivity].
  - exact (proj2 (proj2 (proj2 (proj2
             (MultiHeadedAttention_init_divisible 7 512 (-1) (1 # 10)))))
             100 120 2 2048 (1 # 10) true AssertionError
             (proj1 (proj2 (MultiHeadedAttention_init_divisible 7 512 (-1) (1 # 10)))
                ltac:(lia) ltac:(vm_compute; discriminate))).
Defined.

(** C7, refuted as stated: eight heads divide 512, and the constructor
    still fails on a dropout rate of 1.5; three heads divide 9, the
    constructor succeeds, and [make_model] still fails, on the odd width. *)
Lemma MultiHeadedAttention_init_needs_more_than_divisibility :
  evenly_divisible 512 8 /\
  MultiHeadedAttention_init (T := Shape.shape) 8 512 (-1) (3 # 2) = Raise ValueError /\
  evenly_divisible 9 3 /\
  is_ok (MultiHeadedAttention_init (T := Shape.shape) 3 9 (-1) (1 # 10)) = true /\
  make_model (T := Shape.shape) 100 120 2 9 2048 3 (1 # 10) true = Raise RuntimeError.
Proof.
  split; [split; [lia|reflexivity]|].
  split; [vm_compute; reflexivity|].
  split; [split; [lia|reflexivity]|].
  split; vm_compute; reflexivity.
Qed.

(** Eight heads on width 512 give heads of width 64; seven heads are
    refused, and so is the model. *)
Example MultiHeadedAttention_init_runs :
  (m <- MultiHeadedAttention_init (T := Shape.shape) 8 512 (-1) (1 # 10) ;;
   Ok (d_k m, h m, List.length (linears m))) = Ok (64, 8, 4%nat)
  /\ MultiHeadedAttention_init (T := Shape.shape) 7 512 (-1) (1 # 10)
     = Raise AssertionError
  /\ MultiHeadedAttention_init (T := Shape.shape) 0 512 (-1) (1 # 10)
     = Raise ZeroDivisionError
  /\ make_model (T := Shape.shape) 100 120 2 512 2048 7 (1 # 10) true
     = Raise AssertionError
  /\ is_ok (make_model (T := Shape.shape) 100 120 2 512 2048 8 (1 # 10) true) = true.
Proof. repeat split; vm_compute; reflexivity. Qed.

(** ** The end-to-end scenario *)

(** C3 (as the code has it): in the scenario [make_model] succeeds and
    [forward], on its eight tensors, returns the two decoder outputs, of
    shape (2, 4, 512) each, since the target is fed without its last token
    and no generator is applied, and the two action predictions, of shape
    (2, 3, 401) each; with the per-language classifiers or the shared one. *)
Theorem forward_shapes :
  Scenario.forward false = Ok ([2; 4; 512], [2; 4; 512], [2; 3; 401], [2; 3; 401])
  /\
  Scenario.forward true = Ok ([2; 4; 512], [2; 4; 512], [2; 3; 401], [2; 3; 401]).
Proof. split; vm_compute; reflexivity. Qed.

(** C3, refuted as stated: the first tensor [forward] returns is not of
    shape (2, 5, 120), nor the second of shape (2, 5, 100). *)
Lemma forward_returns_no_logits :
  exists en_decoded ko_decoded en_act_pred ko_act_pred,
    Scenario.forward false = Ok (en_decoded, ko_decoded, en_act_pred, ko_act_pred) /\
    en_decoded <> [2; 5; 120] /\
    ko_decoded <> [2; 5; 100].
Proof.
  do 4 eexists.
  split; [vm_compute; reflexivity|].
  split; discriminate.
Qed.

(** The logits of the claim's width come from the generators, which
    [forward] leaves to the caller; their length is still 4. *)
Example generators_on_decoded :
  (m <- Scenario.model false ;;
   a <- Generator_forward (ko_generator m) [2; 4; 512] ;;
   b <- Generator_forward (en_generator m) [2; 4; 512] ;;
   Ok (a, b)) = Ok ([2; 4; 120], [2; 4; 100]).
Proof. vm_compute; reflexivity. Qed.

(** ** Positional encoding *)

Section PositionalEncodingShapes.

Context {host : Shape.Host}.

Variable pos : PositionalEncoding (T := Shape.shape).
Variables max_len d_model : Z.
Hypothesis pe_shape : pe pos = [1; max_len; d_model].
Hypothesis dropout_ok :
  forall x : Shape.shape, Dropout_forward (pe_dropout pos) x = Ok x.
Hypothesis max_len_pos : 0 <= max_len.

Lemma slice_len_le (n stop : Z) : 0 <= stop <= n -> Shape.slice_len n stop = stop.
Proof.
  intros H. unfold Shape.slice_len.
  destruct (Z.ltb_spec stop 0); lia.
Qed.

(** Batched input of a length the table covers: the first add succeeds and
    the fallback is not taken. *)
Lemma PositionalEncoding_forward_batched (b t : Z) :
  0 <= t <= max_len ->
  add_pe pos [b; t; d_model] = Ok [b; t; d_model] /\
  PositionalEncoding_forward pos [b; t; d_model] = Ok [b; t; d_model].
Proof.
  intros Ht.
  assert (E : add_pe pos [b; t; d_model] = Ok [b; t; d_model]).
  { unfold add_pe. simpl. rewrite pe_shape. simpl.
    rewrite slice_len_le by lia.
    unfold Shape.broadcast. cbn.
    rewrite !Z.eqb_refl. cbn.
    destruct (Z.eqb_spec b 1) as [->|Hb]; reflexivity. }
  split; [exact E|].
  unfold PositionalEncoding_forward. rewrite E. cbn. apply dropout_ok.
Qed.

(** Un-batched input whose length is neither 1 nor the width: the first
    add fails on shapes and the fallback returns the single-batch result. *)
Lemma PositionalEncoding_forward_unbatched (t : Z) :
  0 <= t <= max_len -> 1 < d_model <= max_len -> t <> 1 -> t <> d_model ->
  fails (add_pe pos [t; d_model]) /\
  PositionalEncoding_forward pos [t; d_model] = Ok [1; t; d_model].
Proof.
  intros Ht Hd H1 Hd'.
  assert (E : add_pe pos [t; d_model] = Raise RuntimeError).
  { unfold add_pe. simpl. rewrite pe_shape. simpl.
    rewrite slice_len_le by lia.
    unfold Shape.broadcast. cbn.
    rewrite Z.eqb_refl. cbn.
    destruct (Z.eqb_spec t d_model) as [|_]; [contradiction|].
    destruct (Z.eqb_spec t 1) as [|_]; [contradiction|].
    destruct (Z.eqb_spec d_model 1) as [|_]; [lia|].
    reflexivity. }
  split; [eexists; exact E|].
  unfold PositionalEncoding_forward. rewrite E. cbn [try_except].
  change (unsqueeze [t; d_model] 0) with (Ok (A := Shape.shape) [1; t; d_model]).
  cbn [bind].
  rewrite (proj1 (PositionalEncoding_forward_batched 1 t Ht)).
  cbn. apply dropout_ok.
Qed.

(** Un-batched input of length 1, or of length equal to the width: the
    first add broadcasts the text against the first [d_model] rows of the
    table, no exception is raised and the fallback is not taken. *)
Lemma PositionalEncoding_forward_unbatched_broadcasts (t : Z) :
  0 < d_model <= max_len -> t = 1 \/ t = d_model ->
  add_pe pos [t; d_model] = Ok [1; d_model; d_model] /\
  PositionalEncoding_forward pos [t; d_model] = Ok [1; d_model; d_model].
Proof.
  intros Hd Ht.
  assert (E : add_pe pos [t; d_model] = Ok [1; d_model; d_model]).
  { unfold add_pe. simpl. rewrite pe_shape. simpl.
    rewrite slice_len_le by lia.
    unfold Shape.broadcast. cbn.
    rewrite Z.eqb_refl. cbn.
    destruct Ht as [-> | ->].
    - destruct (Z.eqb_spec 1 d_model) as [<-|_]; reflexivity.
    - rewrite Z.eqb_refl. reflexivity. }
  split; [exact E|].
  unfold PositionalEncoding_forward. rewrite E. cbn. apply dropout_ok.
Qed.

End PositionalEncodingShapes.

(** C9, at the failing input: one un-batched token of width 512.  The first
    add raises nothing, the fallback is skipped and the result has 512
    positions, where the single-batch encoding of the same token has one. *)
Theorem PositionalEncoding_forward_single_token :
  exists pos,
    Scenario.position = Ok pos /\
    add_pe pos [1; 512] = Ok [1; 512; 512] /\
    PositionalEncoding_forward pos [1; 512] = Ok [1; 512; 512] /\
    PositionalEncoding_forward pos [1; 1; 512] = Ok [1; 1; 512] /\
    PositionalEncoding_forward pos [7; 512] = Ok [1; 7; 512] /\
    PositionalEncoding_forward pos [2; 7; 512] = Ok [2; 7; 512].
Proof.
  eexists. split; [vm_compute; reflexivity|].
  repeat split; vm_compute; reflexivity.
Qed.

(** ** Sums, and the softmax, over the reals *)

Module NumericFacts.

Import Shape Numeric.

Local Open Scope R_scope.

Lemma in_range (n k : Z) : In k (range n) <-> (0 <= k < n)%Z.
Proof.
  unfold range. rewrite in_map_iff. split.
  - intros [i [<- Hi]]. apply in_seq in Hi. lia.
  - intros H. exists (Z.to_nat k). split; [lia|].
    apply in_seq. lia.
Qed.

Lemma rsum_cons (a : R) (l : list R) : rsum (a :: l) = a + rsum l.
Proof. reflexivity. Qed.

Lemma rsum_nil : rsum [] = 0.
Proof. reflexivity. Qed.

Lemma rsum_nonneg (l : list R) :
  (forall r, In r l -> 0 <= r) -> 0 <= rsum l.
Proof.
  induction l as [|a l IH]; intros H; [rewrite rsum_nil | rewrite rsum_cons].
  - lra.
  - assert (0 <= a) by (apply H; left; reflexivity).
    assert (0 <= rsum l) by (apply IH; intros r Hr; apply H; right; exact Hr).
    lra.
Qed.

Lemma rsum_ge_member (l : list R) (a : R) :
  (forall r, In r l -> 0 <= r) -> In a l -> a <= rsum l.
Proof.
  induction l as [|b l IH]; intros H Ha; [contradiction|].
  rewrite rsum_cons.
  assert (Hb : 0 <= b) by (apply H; left; reflexivity).
  assert (Hl : 0 <= rsum l)
    by (apply rsum_nonneg; intros r Hr; apply H; right; exact Hr).
  destruct Ha as [->|Ha].
  - lra.
  - assert (a <= rsum l) by (apply IH; [intros r Hr; apply H; right; exact Hr|exact Ha]).
    lra.
Qed.

Lemma rsum_map_scale {A : Type} (f : A -> R) (c : R) (l : list A) :
  rsum (map (fun a => f a * c) l) = rsum (map f l) * c.
Proof.
  induction l as [|a l IH]; cbn [map]; [rewrite !rsum_nil; lra|].
  rewrite !rsum_cons, IH. lra.
Qed.

Lemma rsum_map_ext {A : Type} (f g : A -> R) (l : list A) :
  (forall a, In a l -> f a = g a) -> rsum (map f l) = rsum (map g l).
Proof.
  induction l as [|a l IH]; intros H; cbn [map]; [reflexivity|].
  rewrite !rsum_cons.
  rewrite (H a) by (left; reflexivity).
  rewrite IH by (intros b Hb; apply H; right; exact Hb).
  reflexivity.
Qed.

Lemma rsum_map_const {A : Type} (c : R) (l : list A) :
  rsum (map (fun _ => c) l) = INR (List.length l) * c.
Proof.
  induction l as [|a l IH]; [cbn [map List.length INR]; rewrite rsum_nil; lra|].
  cbn [map List.length]. rewrite rsum_cons, IH, S_INR. lra.
Qed.

Lemma range_length (n : Z) : List.length (range n) = Z.to_nat n.
Proof. unfold range. rewrite length_map, length_seq. reflexivity. Qed.

(** A sum of exponentials over a non-empty range is positive, and at
    least each of its terms. *)
Lemma sum_over_exp_ge (n : Z) (f : Z -> R) (k : Z) :
  (0 <= k < n)%Z -> exp (f k) <= sum_over n (fun j => exp (f j)).
Proof.
  intros Hk. unfold sum_over.
  apply rsum_ge_member.
  - intros r Hr. apply in_map_iff in Hr. destruct Hr as [j [<- _]].
    left. apply exp_pos.
  - apply in_map_iff. exists k. split; [reflexivity|]. apply in_range, Hk.
Qed.

Lemma sum_over_exp_pos (n : Z) (f : Z -> R) :
  (0 < n)%Z -> 0 < sum_over n (fun j => exp (f j)).
Proof.
  intros Hn.
  apply Rlt_le_trans with (exp (f 0%Z)); [apply exp_pos|].
  apply sum_over_exp_ge. lia.
Qed.

Lemma set_nth_set_nth (idx : index) (d : nat) (a b : Z) :
  set_nth (set_nth idx d a) d b = set_nth idx d b.
Proof.
  revert d. induction idx as [|i idx IH]; intros [|d]; cbn; try reflexivity.
  rewrite IH. reflexivity.
Qed.

Lemma exp_sum_set_nth (x : tensor) (d : Z) (idx : index) (k : Z) :
  exp_sum x d (set_nth idx (Z.to_nat d) k) = exp_sum x d idx.
Proof.
  unfold exp_sum, sum_over. apply rsum_map_ext. intros j _.
  rewrite set_nth_set_nth. reflexivity.
Qed.

(** The exponentials of a log-softmax sum to one along its dimension. *)
Lemma log_softmax_num_normalised (x r : tensor) (dim d : Z) (idx : index) :
  wrap_dim (ndim (sh x)) dim = Ok d ->
  (0 < dim_len (sh x) d)%Z ->
  log_softmax_num x dim = Ok r ->
  sum_over (dim_len (sh x) d)
    (fun k => exp (dat r (set_nth idx (Z.to_nat d) k))) = 1.
Proof.
  intros Hd Hn Hr. unfold log_softmax_num in Hr. rewrite Hd in Hr. cbn in Hr.
  injection Hr as <-. cbn [dat].
  assert (Hpos : 0 < exp_sum x d idx).
  { unfold exp_sum.
    apply (sum_over_exp_pos _ (fun k => dat x (set_nth idx (Z.to_nat d) k))), Hn. }
  unfold sum_over.
  rewrite (rsum_map_ext _
             (fun k => exp (dat x (set_nth idx (Z.to_nat d) k)) * / exp_sum x d idx)).
  - rewrite rsum_map_scale.
    change (rsum (map (fun k => exp (dat x (set_nth idx (Z.to_nat d) k)))
                      (range (dim_len (sh x) d))))
      with (exp_sum x d idx).
    field. lra.
  - intros k _. rewrite exp_sum_set_nth.
    unfold Rminus. rewrite exp_plus, exp_Ropp, exp_ln by exact Hpos.
    reflexivity.
Qed.

(** Along a dimension of length one the log-softmax is zero. *)
Lemma log_softmax_num_singleton (x r : tensor) (dim d : Z) (idx : index) :
  wrap_dim (ndim (sh x)) dim = Ok d ->
  dim_len (sh x) d = 1%Z ->
  nth (Z.to_nat d) idx 1%Z = 0%Z ->
  (Z.to_nat d < List.length idx)%nat ->
  log_softmax_num x dim = Ok r ->
  dat r idx = 0.
Proof.
  intros Hd Hn Hi Hlen Hr. unfold log_softmax_num in Hr. rewrite Hd in Hr.
  cbn in Hr. injection Hr as <-. cbn [dat].
  unfold exp_sum. rewrite Hn. unfold sum_over.
  change (range 1) with [0%Z]. cbn [map].
  rewrite rsum_cons, rsum_nil.
  assert (E : set_nth idx (Z.to_nat d) 0%Z = idx).
  { clear - Hi Hlen. revert idx Hi Hlen.
    induction (Z.to_nat d) as [|n IH]; intros [|i idx] Hi Hlen; cbn in *;
      try lia.
    - subst i. reflexivity.
    - rewrite IH by (assumption || lia). reflexivity. }
  rewrite E, Rplus_0_r, ln_exp. lra.
Qed.

Lemma sum_over_plus (n : Z) (f g : Z -> R) :
  sum_over n (fun k => f k + g k) = sum_over n f + sum_over n g.
Proof.
  unfold sum_over. induction (range n) as [|k l IH]; cbn [map].
  - rewrite !rsum_nil. lra.
  - rewrite !rsum_cons, IH. lra.
Qed.

Lemma sum_over_const (n : Z) (c : R) :
  (0 <= n)%Z -> sum_over n (fun _ => c) = IZR n * c.
Proof.
  intros Hn. unfold sum_over.
  rewrite rsum_map_const, range_length, INR_IZR_INZ, Z2Nat.id by exact Hn.
  reflexivity.
Qed.

Lemma sum_over_two (f : Z -> R) : sum_over 2 f = f 0%Z + f 1%Z.
Proof.
  unfold sum_over. change (range 2) with [0%Z; 1%Z]. cbn [map].
  rewrite !rsum_cons, rsum_nil. lra.
Qed.

End NumericFacts.

(** ** The action classifier *)

Section ClassifierFacts.

Context {T : Type} {RT : Torch T}.

(** The shared classifier: [F.log_softmax] is called without [dim]. *)
Lemma EncoderLayer_act_pred_shared (c : Linear) (seq_vid : T) (type : string) :
  EncoderLayer_act_pred (ClassifierModule c) seq_vid type =
  y <- Linear_forward c seq_vid ;;
  log_softmax y (get_softmax_dim (List.length (size y))).
Proof. reflexivity. Qed.

(** The per-language classifiers: ['en'] for [en2ko], ['ko'] for any other
    flag, normalised over the last axis. *)
Lemma EncoderLayer_act_pred_per_language (en_c ko_c : Linear) (seq_vid : T)
    (type : string) :
  EncoderLayer_act_pred
    (ClassifierDict [("en"%string, en_c); ("ko"%string, ko_c)]) seq_vid type =
  y <- Linear_forward (if String.eqb type "en2ko" then en_c else ko_c) seq_vid ;;
  log_softmax y (-1).
Proof.
  unfold EncoderLayer_act_pred.
  destruct (String.eqb type "en2ko"); reflexivity.
Qed.

(** What [make_model] hands to the encoder layer. *)
Lemma make_classifier_kind (d_model : Z) (share : bool) (c : Classifier) :
  make_classifier d_model share = Ok c ->
  if share then exists l, c = ClassifierModule l /\ lin_bias l = None
  else exists en_c ko_c,
         c = ClassifierDict [("en"%string, en_c); ("ko"%string, ko_c)].
Proof.
  unfold make_classifier, Linear_init. intros H.
  destruct share.
  - apply bind_inv in H. destruct H as [l [Hl H]]. injection H as <-.
    apply bind_inv in Hl. destruct Hl as [w [_ Hl]]. injection Hl as <-.
    eexists. split; reflexivity.
  - apply bind_inv in H. destruct H as [e0 [_ H]].
    apply bind_inv in H. destruct H as [e [_ H]].
    apply bind_inv in H. destruct H as [k0 [_ H]].
    apply bind_inv in H. destruct H as [k [_ H]]. injection H as <-.
    eexists. eexists. reflexivity.
Qed.

End ClassifierFacts.

Module SharedClassifierFacts.

Import Shape Numeric NumericFacts SharedClassifier.

Local Open Scope R_scope.

Section Batch.

Variable draw : init -> shape -> index -> R.
Variables w x : index -> R.

Lemma classifier_output :
  exists y, Linear_forward (RT := runtime draw) (shared w) (seq_vid x) = Ok y /\
            sh y = [2; 3; 401]%Z.
Proof. eexists. split; reflexivity. Qed.

(** C4, where the code departs from it: with the shared classifier the
    log-softmax runs over dimension 0 of the (2, 3, 401) scores, the batch.
    For every frame and class the two samples' probabilities sum to one, so
    the mass the two samples put on the 401 classes sums to 401, and they
    cannot both be distributions over the classes. *)
Theorem shared_classifier_normalises_over_batch (type : string) :
  exists a,
    act_pred draw w x type = Ok a /\
    sh a = [2; 3; 401]%Z /\
    (forall i j, exp (dat a [0; i; j]%Z) + exp (dat a [1; i; j]%Z) = 1) /\
    (forall i, class_mass a 0 i + class_mass a 1 i = 401) /\
    (forall i, ~ (class_mass a 0 i = 1 /\ class_mass a 1 i = 1)).
Proof.
  unfold act_pred. rewrite EncoderLayer_act_pred_shared.
  destruct classifier_output as [y [Hy Hs]]. rewrite Hy. cbn [bind].
  change (size y) with (sh y). rewrite Hs. cbn [List.length get_softmax_dim].
  change (log_softmax y 0) with (log_softmax_num y 0).
  assert (Hw : wrap_dim (ndim (sh y)) 0 = Ok 0%Z) by (rewrite Hs; reflexivity).
  destruct (log_softmax_num y 0) as [a|e] eqn:Ha.
  2:{ unfold log_softmax_num in Ha. rewrite Hw in Ha. discriminate Ha. }
  assert (Hpair : forall i j,
             exp (dat a [0; i; j]%Z) + exp (dat a [1; i; j]%Z) = 1).
  { intros i j.
    pose proof (log_softmax_num_normalised y a 0 0 [0; i; j]%Z Hw) as Hn.
    rewrite Hs in Hn. specialize (Hn ltac:(reflexivity) Ha).
    change (dim_len [2; 3; 401]%Z 0) with 2%Z in Hn.
    rewrite sum_over_two in Hn. exact Hn. }
  assert (Hmass : forall i, class_mass a 0 i + class_mass a 1 i = 401).
  { intros i. unfold class_mass. rewrite <- sum_over_plus.
    unfold sum_over. rewrite (rsum_map_ext _ (fun _ => 1)).
    - fold (sum_over 401 (fun _ => 1)). rewrite sum_over_const by lia. lra.
    - intros j _. apply Hpair. }
  exists a. split; [reflexivity|]. split.
  - unfold log_softmax_num in Ha. rewrite Hw in Ha. cbn [bind] in Ha.
    injection Ha as <-. exact Hs.
  - split; [exact Hpair|]. split; [exact Hmass|].
    intros i [H0 H1]. specialize (Hmass i). lra.
Qed.

(** With the per-language classifiers the log-softmax runs over the last
    axis and every sample's prediction is a distribution over the classes. *)
Lemma per_language_classifier_normalises_over_classes (type : string) :
  exists a,
    per_language_act_pred draw w x type = Ok a /\
    sh a = [2; 3; 401]%Z /\
    forall b i, class_mass a b i = 1.
Proof.
  unfold per_language_act_pred. rewrite EncoderLayer_act_pred_per_language.
  assert (E : (if String.eqb type "en2ko" then shared w else shared w) = shared w)
    by (destruct (String.eqb type "en2ko"); reflexivity).
  rewrite E.
  destruct classifier_output as [y [Hy Hs]]. rewrite Hy. cbn [bind].
  change (log_softmax y (-1)) with (log_softmax_num y (-1)).
  assert (Hw : wrap_dim (ndim (sh y)) (-1) = Ok 2%Z) by (rewrite Hs; reflexivity).
  destruct (log_softmax_num y (-1)) as [a|e] eqn:Ha.
  2:{ unfold log_softmax_num in Ha. rewrite Hw in Ha. discriminate Ha. }
  exists a. split; [reflexivity|]. split.
  - unfold log_softmax_num in Ha. rewrite Hw in Ha. cbn [bind] in Ha.
    injection Ha as <-. exact Hs.
  - intros b i. unfold class_mass.
    pose proof (log_softmax_num_normalised y a (-1) 2 [b; i; 0]%Z Hw) as Hn.
    rewrite Hs in Hn. specialize (Hn ltac:(reflexivity) Ha).
    exact Hn.
Qed.

End Batch.

End SharedClassifierFacts.

(** ** The attention primitive *)

Module AttentionFacts.

Import Shape Numeric NumericFacts AttentionSpec.

Local Open Scope R_scope.

Lemma minus_1e9_value : minus_1e9 = -1000000000.
Proof. unfold minus_1e9, scalar_value, Q2R. cbn. lra. Qed.

Lemma set_nth_length (idx : index) (d : nat) (v : Z) :
  List.length (set_nth idx d v) = List.length idx.
Proof.
  revert d. induction idx as [|i idx IH]; intros [|d]; cbn; try reflexivity.
  rewrite IH. reflexivity.
Qed.

Lemma wrap_minus_two (n : nat) (d : Z) :
  wrap_dim (Z.of_nat n) (-2) = Ok d -> (2 <= n)%nat.
Proof.
  unfold wrap_dim. cbv zeta.
  destruct (Z.of_nat n =? 0)%Z eqn:E.
  - cbn. discriminate.
  - apply Z.eqb_neq in E.
    destruct (Z.ltb_spec (-2) (- Z.of_nat n)); cbn [orb]; [discriminate|].
    intros _. lia.
Qed.

Lemma transpose_keys_dims (key kt : tensor) :
  transpose_num key (-2) (-1) = Ok kt -> (2 <= List.length (sh kt))%nat.
Proof.
  unfold transpose_num. intros H.
  apply bind_inv in H. destruct H as [d0 [H0 H]].
  apply bind_inv in H. destruct H as [d1 [_ H]].
  apply bind_inv in H. destruct H as [s [Hs H]]. injection H as <-. cbn [sh].
  unfold transpose_shape in Hs.
  apply bind_inv in Hs. destruct Hs as [e0 [_ Hs]].
  apply bind_inv in Hs. destruct Hs as [e1 [_ Hs]].
  injection Hs as <-. rewrite !set_nth_length.
  exact (wrap_minus_two _ _ H0).
Qed.

(** The product of two operands of two dimensions or more, entry by
    entry. *)
Lemma matmul_num_dat (a b c : tensor) :
  (2 <= List.length (sh a))%nat -> (2 <= List.length (sh b))%nat ->
  matmul_num a b = Ok c ->
  forall idx,
    dat c idx =
    sum_over (dim_len (sh a) (ndim (sh a) - 1))
      (fun k => dat a (bidx (sh a) (set_last2 idx (row_of idx) k)) *
                dat b (bidx (sh b) (set_last2 idx k (col_of idx)))).
Proof.
  unfold matmul_num.
  intros Ha Hb H idx.
  destruct (sh a) as [|? [|? ?]]; try (cbn in Ha; lia);
    destruct (sh b) as [|? [|? ?]]; try (cbn in Hb; lia).
  apply bind_inv in H. destruct H as [s [_ H]]. injection H as <-.
  reflexivity.
Qed.

Lemma masked_fill_num_dat (x mask filled : tensor) (v : scalar) :
  masked_fill_num x mask v = Ok filled ->
  sh filled = sh x /\
  forall idx,
    dat filled idx = if masked mask idx then scalar_value v else dat x idx.
Proof.
  unfold masked_fill_num, masked_fill. intros H.
  apply bind_inv in H. destruct H as [s [Hs H]]. injection H as <-.
  apply bind_inv in Hs. destruct Hs as [r [_ Hs]].
  destruct (shape_eqb r (sh x)); [|discriminate Hs].
  injection Hs as <-. split; reflexivity.
Qed.

Lemma wrap_last (n d : Z) :
  wrap_dim n (-1) = Ok d -> Z.to_nat d = Z.to_nat (n - 1).
Proof.
  unfold wrap_dim. intros H.
  destruct (Z.eqb_spec n 0) as [->|Hn].
  - cbn in H. injection H as <-. reflexivity.
  - destruct ((-1 <? - n)%Z || (n <=? -1)%Z)%bool; [discriminate H|].
    injection H as <-.
    change (Z.to_nat (-1 + n) = Z.to_nat (n - 1)). f_equal. lia.
Qed.

Lemma softmax_num_dat (x p : tensor) :
  softmax_num x (-1) = Ok p ->
  sh p = sh x /\
  forall idx,
    dat p idx =
    exp (dat x idx) /
    sum_over (keys x) (fun j => exp (dat x (set_nth idx (key_axis x) j))).
Proof.
  unfold softmax_num. intros H.
  apply bind_inv in H. destruct H as [d [Hd H]]. injection H as <-.
  split; [reflexivity|]. intros idx. cbn [dat].
  unfold exp_sum, keys, key_axis, dim_len.
  rewrite (wrap_last _ _ Hd). reflexivity.
Qed.

Lemma matmul_num_dims (a b c : tensor) :
  (2 <= List.length (sh a))%nat -> (2 <= List.length (sh b))%nat ->
  matmul_num a b = Ok c -> (2 <= List.length (sh c))%nat.
Proof.
  unfold matmul_num. intros Ha Hb H.
  destruct (sh a) as [|a0 [|a1 sa]] eqn:Ea; try (cbn in Ha; lia);
    destruct (sh b) as [|b0 [|b1 sb]] eqn:Eb; try (cbn in Hb; lia).
  apply bind_inv in H. destruct H as [s [Hs H]]. injection H as <-. cbn [sh].
  cbn [matmul_shape] in Hs. unfold matmul2 in Hs.
  destruct (rev (a0 :: a1 :: sa)) as [|m [|n ba]]; try discriminate Hs.
  destruct (rev (b0 :: b1 :: sb)) as [|q [|m' bb]]; try discriminate Hs.
  destruct (m =? m')%Z; [|discriminate Hs].
  apply bind_inv in Hs. destruct Hs as [r [_ Hs]]. injection Hs as <-.
  rewrite length_app. cbn. lia.
Qed.

Section Attention.

Variable draw : init -> shape -> index -> R.

(** Dropout changes no entry when it is off: no dropout module is passed,
    or the modules are in evaluation mode. *)
Lemma dropout_option_dat (md : mode) (d : option Dropout) (p p' : tensor) :
  d = None \/ md = Evaluation ->
  match d with
  | Some d => Dropout_forward (RT := runtime_in draw md) d p
  | None => Ok p
  end = Ok p' ->
  sh p' = sh p /\ dat p' = dat p.
Proof.
  intros Hoff H. destruct d as [d|].
  - destruct Hoff as [Hn| ->]; [discriminate Hn|].
    unfold Dropout_forward in H. cbn in H. unfold dropout_num in H.
    apply bind_inv in H. destruct H as [s [Hs H]]. injection H as <-.
    unfold dropout_shape in Hs.
    destruct (Qle_bool 0 (drop_p d) && Qle_bool (drop_p d) 1)%bool;
      [|discriminate Hs].
    injection Hs as <-. split; reflexivity.
  - injection H as <-. split; reflexivity.
Qed.

(** What a call of [attention] with a mask went through. *)
Lemma attention_inv (md : mode) (query key value mask out p : tensor)
    (d : option Dropout) :
  d = None \/ md = Evaluation ->
  attention (RT := runtime_in draw md) query key value (Some mask) d = Ok (out, p) ->
  exists d_k kt qk scores filled p0,
    py_index (sh query) (-1) = Ok d_k /\
    transpose_num key (-2) (-1) = Ok kt /\
    matmul_num query kt = Ok qk /\
    scores = mkTensor (sh qk) (fun idx => dat qk idx / sqrt (IZR d_k)) /\
    masked_fill_num scores mask (Lit (- (1000000000 # 1))%Q) = Ok filled /\
    softmax_num filled (-1) = Ok p0 /\
    sh p = sh p0 /\ dat p = dat p0 /\
    matmul_num p value = Ok out.
Proof.
  unfold attention. intros Hoff H.
  apply bind_inv in H. destruct H as [d_k [Hd H]].
  apply bind_inv in H. destruct H as [kt [Hkt H]].
  apply bind_inv in H. destruct H as [qk [Hqk H]].
  apply bind_inv in H. destruct H as [scores [Hsc H]].
  apply bind_inv in H. destruct H as [filled [Hf H]].
  apply bind_inv in H. destruct H as [p0 [Hp0 H]].
  apply bind_inv in H. destruct H as [p1 [Hp1 H]].
  apply bind_inv in H. destruct H as [o [Ho H]].
  injection H as <- <-.
  apply (dropout_option_dat md d _ _ Hoff) in Hp1. destruct Hp1 as [Hs1 Hd1].
  cbn in Hsc. unfold un in Hsc. injection Hsc as <-.
  exists d_k, kt, qk, (mkTensor (sh qk) (fun idx => dat qk idx / sqrt (IZR d_k))),
    filled, p0.
  repeat split; assumption.
Qed.

(** The distribution and the output of a masked call on matrices, with
    dropout off, entry by entry. *)
Lemma attention_masked_entries (md : mode)
    (query key value mask out p : tensor) (d : option Dropout) :
  d = None \/ md = Evaluation ->
  (2 <= List.length (sh query))%nat ->
  (2 <= List.length (sh value))%nat ->
  attention (RT := runtime_in draw md) query key value (Some mask) d = Ok (out, p) ->
  exists d_k kt scores,
    py_index (sh query) (-1) = Ok d_k /\
    transpose_num key (-2) (-1) = Ok kt /\
    sh scores = sh p /\
    (forall idx, dat scores idx = scaled_dot query kt d_k idx) /\
    (forall idx,
       dat p idx =
       exp (masked_score scores mask idx) /
       sum_over (keys scores)
         (fun j => exp (masked_score scores mask (set_nth idx (key_axis scores) j)))) /\
    (forall idx j,
       (0 <= j < keys scores)%Z ->
       masked mask idx = true ->
       masked mask (set_nth idx (key_axis scores) j) = false ->
       0 <= dat p idx <=
       exp (minus_1e9 - dat scores (set_nth idx (key_axis scores) j))) /\
    (forall idx,
       (0 < keys scores)%Z ->
       masked mask idx = true ->
       (forall j, (0 <= j < keys scores)%Z ->
                  masked mask (set_nth idx (key_axis scores) j) = true) ->
       dat p idx = 1 / IZR (keys scores)) /\
    (forall idx, dat out idx = weighted_sum p value idx).
Proof.
  intros Hoff Hq2 Hv2 H. apply (attention_inv md _ _ _ _ _ _ _ Hoff) in H.
  destruct H as (d_k & kt & qk & scores & filled & p0 &
                 Hd & Hkt & Hqk & Hsc & Hf & Hp0 & Hsh & Hdat & Hout).
  pose proof (transpose_keys_dims _ _ Hkt) as Hk2.
  pose proof (matmul_num_dims _ _ _ Hq2 Hk2 Hqk) as Hqk2.
  apply masked_fill_num_dat in Hf. destruct Hf as [Hfs Hfd].
  apply softmax_num_dat in Hp0. destruct Hp0 as [Hps Hpd].
  assert (Hp2 : (2 <= List.length (sh p))%nat)
    by (rewrite Hsh, Hps, Hfs, Hsc; exact Hqk2).
  assert (Hkeys : keys filled = keys scores)
    by (unfold keys; rewrite Hfs; reflexivity).
  assert (Haxis : key_axis filled = key_axis scores)
    by (unfold key_axis; rewrite Hfs; reflexivity).
  assert (Hm : forall idx, dat filled idx = masked_score scores mask idx).
  { intros idx. rewrite Hfd. reflexivity. }
  assert (Hp : forall idx,
    dat p idx =
    exp (masked_score scores mask idx) /
    sum_over (keys scores)
      (fun j => exp (masked_score scores mask (set_nth idx (key_axis scores) j)))).
  { intros idx. rewrite Hdat, Hpd, Hkeys, Haxis, Hm.
    f_equal. unfold sum_over. apply rsum_map_ext. intros j _.
    rewrite Hm. reflexivity. }
  exists d_k, kt, scores.
  split; [exact Hd|]. split; [exact Hkt|].
  split; [rewrite Hsh, Hps, Hfs; reflexivity|].
  split.
  { intros idx. rewrite Hsc. cbn [dat]. unfold scaled_dot.
    rewrite (matmul_num_dat _ _ _ Hq2 Hk2 Hqk). reflexivity. }
  split; [exact Hp|].
  split.
  { intros idx j Hj Hmasked Hvisible. rewrite Hp.
    pose proof (sum_over_exp_ge (keys scores)
                  (fun j => masked_score scores mask (set_nth idx (key_axis scores) j))
                  j Hj) as Hge.
    cbv beta in Hge.
    assert (Hi : masked_score scores mask idx = minus_1e9)
      by (unfold masked_score; rewrite Hmasked; reflexivity).
    rewrite Hi.
    replace (masked_score scores mask (set_nth idx (key_axis scores) j))
      with (dat scores (set_nth idx (key_axis scores) j)) in Hge
      by (unfold masked_score; rewrite Hvisible; reflexivity).
    pose proof (exp_pos (dat scores (set_nth idx (key_axis scores) j))) as He.
    pose proof (exp_pos minus_1e9) as Hn.
    set (S := sum_over (keys scores) _) in *.
    assert (HS : 0 < S) by lra.
    split.
    - left. apply Rdiv_lt_0_compat; assumption.
    - unfold Rminus. rewrite exp_plus, exp_Ropp.
      unfold Rdiv. apply Rmult_le_compat_l; [lra|].
      apply Rinv_le_contravar; assumption. }
  split.
  { intros idx Hn Hmasked Hall. rewrite Hp.
    assert (Hi : masked_score scores mask idx = minus_1e9)
      by (unfold masked_score; rewrite Hmasked; reflexivity).
    rewrite Hi.
    assert (Hsum : sum_over (keys scores)
              (fun j => exp (masked_score scores mask
                               (set_nth idx (key_axis scores) j)))
            = IZR (keys scores) * exp minus_1e9).
    { rewrite <- sum_over_const by lia. unfold sum_over.
      apply rsum_map_ext. intros j Hj. apply in_range in Hj.
      unfold masked_score. rewrite (Hall j Hj). reflexivity. }
    rewrite Hsum.
    pose proof (exp_pos minus_1e9) as He.
    assert (Hk : 0 < IZR (keys scores)) by (apply IZR_lt; exact Hn).
    field. split; lra. }
  intros idx. unfold weighted_sum. rewrite (matmul_num_dat _ _ _ Hp2 Hv2 Hout).
  reflexivity.
Qed.

(** C6 (as the code has it), for a call on matrices with dropout off: the
    scores are [query . key^T / sqrt(d_k)]; where the mask is 0 the score
    is replaced by -1e9; the returned distribution is the softmax of these
    over the key axis; a masked key gets at most [exp (-1e9 - s)] from a
    query that has an unmasked key of score [s]; a query whose keys are all
    masked gives each of them the same weight; the output is the sum of the
    values weighted by the distribution. *)
Theorem attention_masks_then_normalises (md : mode)
    (query key value mask out p : tensor) (d : option Dropout) :
  d = None \/ md = Evaluation ->
  (2 <= List.length (sh query))%nat ->
  (2 <= List.length (sh value))%nat ->
  attention (RT := runtime_in draw md) query key value (Some mask) d = Ok (out, p) ->
  exists d_k kt scores,
    py_index (sh query) (-1) = Ok d_k /\
    transpose_num key (-2) (-1) = Ok kt /\
    sh scores = sh p /\
    (forall idx, dat scores idx = scaled_dot query kt d_k idx) /\
    (forall idx,
       dat p idx =
       exp (masked_score scores mask idx) /
       sum_over (keys scores)
         (fun j => exp (masked_score scores mask (set_nth idx (key_axis scores) j)))) /\
    (forall idx j,
       (0 <= j < keys scores)%Z ->
       masked mask idx = true ->
       masked mask (set_nth idx (key_axis scores) j) = false ->
       0 <= dat p idx <=
       exp (minus_1e9 - dat scores (set_nth idx (key_axis scores) j))) /\
    (forall idx,
       (0 < keys scores)%Z ->
       masked mask idx = true ->
       (forall j, (0 <= j < keys scores)%Z ->
                  masked mask (set_nth idx (key_axis scores) j) = true) ->
       dat p idx = 1 / IZR (keys scores)) /\
    (forall idx, dat out idx = weighted_sum p value idx).
Proof. exact (attention_masked_entries md query key value mask out p d). Qed.

End Attention.

Lemma is_zero_0 : is_zero 0 = true.
Proof.
  unfold is_zero. destruct (Req_dec_T 0 0) as [_|H]; [reflexivity|].
  exfalso. apply H. reflexivity.
Qed.

Lemma is_zero_1 : is_zero 1 = false.
Proof.
  unfold is_zero. destruct (Req_dec_T 1 0) as [H|_]; [|reflexivity].
  exfalso. lra.
Qed.

Lemma attention_masks_then_normalises_witness :
  exists out p,
    attention (RT := runtime draw0) q1 k2 v2 (Some first_masked) None = Ok (out, p) /\
    masked first_masked [0; 0]%Z = true /\
    masked first_masked [0; 1]%Z = false /\
    0 <= dat p [0; 0]%Z <= exp (minus_1e9 - 1).
Proof.
  eexists. eexists.
  match goal with
  | |- ?A /\ _ => assert (H : A) by reflexivity; split; [exact H|]
  end.
  assert (Hm0 : masked first_masked [0; 0]%Z = true) by (exact is_zero_0).
  assert (Hm1 : masked first_masked [0; 1]%Z = false) by (exact is_zero_1).
  split; [exact Hm0|]. split; [exact Hm1|].
  destruct (attention_masks_then_normalises draw0 Evaluation q1 k2 v2 first_masked _ _ None
              (or_introl eq_refl) (le_n 2%nat) (le_n 2%nat) H)
    as (d_k & kt & scores & Hd & Hkt & Hsh & Hsc & _ & Hbound & _).
  assert (Hk : keys scores = 2%Z) by (unfold keys; rewrite Hsh; reflexivity).
  assert (Ha : key_axis scores = 1%nat) by (unfold key_axis; rewrite Hsh; reflexivity).
  specialize (Hbound [0; 0]%Z 1%Z).
  rewrite Hk, Ha in Hbound. cbn [set_nth] in Hbound.
  specialize (Hbound ltac:(lia) Hm0 Hm1).
  assert (Hs : dat scores [0; 1]%Z = 1).
  { rewrite Hsc. injection Hd as <-. injection Hkt as <-.
    unfold scaled_dot. change (dim_len (sh q1) (ndim (sh q1) - 1)) with 1%Z.
    unfold sum_over. change (range 1) with [0%Z]. cbn [map].
    rewrite rsum_cons, rsum_nil. cbn [dat q1].
    rewrite sqrt_1. lra. }
  rewrite Hs in Hbound. exact Hbound.
Defined.

(** C6, refuted as stated: one query, two keys, the mask 0 at both.  Every
    score is replaced by the same constant and the softmax gives each
    masked key one half. *)
Lemma attention_all_keys_masked :
  exists out p,
    attention (RT := runtime draw0) q1 k2 v2 (Some all_masked) None = Ok (out, p) /\
    masked all_masked [0; 0]%Z = true /\
    masked all_masked [0; 1]%Z = true /\
    dat p [0; 0]%Z = 1 / 2 /\
    dat p [0; 1]%Z = 1 / 2.
Proof.
  eexists. eexists.
  match goal with
  | |- ?A /\ _ => assert (H : A) by reflexivity; split; [exact H|]
  end.
  assert (Hm : forall idx, masked all_masked idx = true)
    by (intros idx; exact is_zero_0).
  split; [apply Hm|]. split; [apply Hm|].
  destruct (attention_masked_entries draw0 Evaluation q1 k2 v2 all_masked _ _ None
              (or_introl eq_refl) (le_n 2%nat) (le_n 2%nat) H)
    as (d_k & kt & scores & _ & _ & Hsh & _ & Hp & _).
  assert (Hk : keys scores = 2%Z) by (unfold keys; rewrite Hsh; reflexivity).
  assert (Hs : forall idx, masked_score scores all_masked idx = minus_1e9)
    by (intros idx; unfold masked_score; rewrite Hm; reflexivity).
  pose proof (exp_pos minus_1e9) as He.
  split; rewrite Hp, Hk, sum_over_two, !Hs; field; lra.
Qed.

End AttentionFacts.

(** ** Parameters and their initialisation *)

Section ParametersFacts.

Context {T : Type} {RT : Torch T}.

Variable f : @Param T -> @Param T.

Lemma flat_map_update {A : Type} (g : A -> list Param) (u : A -> A) (l : list A) :
  (forall a, g (u a) = map f (g a)) ->
  flat_map g (map u l) = map f (flat_map g l).
Proof.
  intros H. induction l as [|a l IH]; cbn; [reflexivity|].
  rewrite H, IH, map_app. reflexivity.
Qed.

Lemma option_list_update {A : Type} (g : A -> list Param) (u : A -> A) (o : option A) :
  (forall a, g (u a) = map f (g a)) ->
  flat_map g (option_list (option_map u o)) = map f (flat_map g (option_list o)).
Proof.
  intros H. destruct o as [a|]; cbn; [|reflexivity].
  rewrite H, !app_nil_r. reflexivity.
Qed.

Lemma Linear_parameters_update (l : Linear) :
  Linear_parameters (Linear_update f l) = map f (Linear_parameters l).
Proof. destruct l as [w [b|]]; reflexivity. Qed.

Lemma SublayerConnection_parameters_update (s : SublayerConnection) :
  SublayerConnection_parameters (SublayerConnection_update f s)
  = map f (SublayerConnection_parameters s).
Proof. reflexivity. Qed.

Lemma MultiHeadedAttention_parameters_update (m : MultiHeadedAttention) :
  MultiHeadedAttention_parameters (MultiHeadedAttention_update f m)
  = map f (MultiHeadedAttention_parameters m).
Proof.
  unfold MultiHeadedAttention_parameters. cbn [linears MultiHeadedAttention_update].
  apply flat_map_update, Linear_parameters_update.
Qed.

Lemma PositionwiseFeedForward_parameters_update (p : PositionwiseFeedForward) :
  PositionwiseFeedForward_parameters (PositionwiseFeedForward_update f p)
  = map f (PositionwiseFeedForward_parameters p).
Proof.
  unfold PositionwiseFeedForward_parameters. cbn [w_1 w_2 PositionwiseFeedForward_update].
  rewrite !Linear_parameters_update, map_app. reflexivity.
Qed.

Lemma Classifier_parameters_update (c : Classifier) :
  Classifier_parameters (Classifier_update f c) = map f (Classifier_parameters c).
Proof.
  destruct c as [|l|d]; cbn; [reflexivity| apply Linear_parameters_update | reflexivity].
Qed.

Lemma EncoderLayer_parameters_update (l : EncoderLayer) :
  EncoderLayer_parameters (EncoderLayer_update f l)
  = map f (EncoderLayer_parameters l).
Proof.
  unfold EncoderLayer_parameters.
  cbn [self_attn vid_attn ff1 sublayer seq_attn ff2 classifier EncoderLayer_update].
  rewrite !MultiHeadedAttention_parameters_update,
    PositionwiseFeedForward_parameters_update, Classifier_parameters_update.
  rewrite (flat_map_update _ _ _ SublayerConnection_parameters_update).
  rewrite (option_list_update _ _ _ MultiHeadedAttention_parameters_update).
  rewrite (option_list_update _ _ _ PositionwiseFeedForward_parameters_update).
  rewrite !map_app. reflexivity.
Qed.

Lemma DecoderLayer_parameters_update (l : DecoderLayer) :
  DecoderLayer_parameters (DecoderLayer_update f l)
  = map f (DecoderLayer_parameters l).
Proof.
  unfold DecoderLayer_parameters.
  cbn [dl_self_attn src_attn feed_forward dl_sublayer DecoderLayer_update].
  rewrite !MultiHeadedAttention_parameters_update,
    PositionwiseFeedForward_parameters_update.
  rewrite (flat_map_update _ _ _ SublayerConnection_parameters_update).
  rewrite !map_app. reflexivity.
Qed.

(** The loop over [model.parameters()] reaches the registered parameters,
    each once, and nothing else. *)
Lemma parameters_update (m : EncoderDecoder) :
  parameters (update_parameters f m) = map f (parameters m).
Proof.
  unfold parameters, Encoder_parameters, Decoder_parameters.
  cbn [update_parameters en_embed ko_embed encoder vid_encoder decoder
       en_generator ko_generator Embed_update emb lut Encoder_update
       Decoder_update enc_layers enc_norm dec_layers dec_norm vid_linear proj].
  rewrite !Linear_parameters_update.
  rewrite (flat_map_update _ _ _ EncoderLayer_parameters_update).
  rewrite (flat_map_update _ _ _ DecoderLayer_parameters_update).
  rewrite !map_app. reflexivity.
Qed.

End ParametersFacts.

Module InitFacts.

Import Shape.

Ltac inv_bind H :=
  let a := fresh "a" in
  let E := fresh "E" in
  apply bind_inv in H; destruct H as [a [E H]].

Tactic Notation "inv_bind_as" hyp(H) ident(a) ident(E) :=
  apply bind_inv in H; destruct H as [a [E H]].

Section OnHost.

Context {host : Host}.


Lemma Param_new_shape (i : init) (s : shape) (p : Param) :
  Param_new (T := shape) i s = Ok p -> pdata p = s /\ pinit p = i.
Proof.
  unfold Param_new. intros H. inv_bind H. injection H as <-.
  cbn in E. unfold new in E. destruct (valid s); [|discriminate E].
  injection E as <-. split; reflexivity.
Qed.

(** On shapes, moving a module to the device leaves it as it is. *)
Lemma Linear_cuda_same (l l' : Linear (T := shape)) :
  Linear_cuda l = Ok l' -> l' = l.
Proof.
  unfold Linear_cuda, Param_cuda. cbn. unfold cuda_shape.
  destruct cuda_device as [[]|e]; cbn; [|discriminate].
  destruct l as [[w wi] [[b bi]|]]; cbn; intros E; injection E as <-; reflexivity.
Qed.
















End OnHost.



End InitFacts.

(** ** What a forward pass leaves alone *)

Section Frame.

Context {T : Type} {RT : Torch T}.

Lemma MultiHeadedAttention_forward_linears (m m' : MultiHeadedAttention)
    (query key value out : T) (mask : option T) :
  MultiHeadedAttention_forward m query key value mask = Ok (out, m') ->
  linears m' = linears m.
Proof.
  unfold MultiHeadedAttention_forward. intros H.
  apply bind_inv in H. destruct H as [mask' [_ H]].
  destruct (size query) as [|nbatches [|qT [|qC [|? ?]]]]; try discriminate H.
  apply bind_inv in H. destruct H as [qkv [_ H]].
  destruct qkv as [|q [|k [|v [|? ?]]]]; try discriminate H.
  apply bind_inv in H. destruct H as [[x p] [_ H]].
  apply bind_inv in H. destruct H as [x1 [_ H]].
  apply bind_inv in H. destruct H as [x2 [_ H]].
  apply bind_inv in H. destruct H as [x3 [_ H]].
  apply bind_inv in H. destruct H as [last_ [_ H]].
  apply bind_inv in H. destruct H as [o [_ H]].
  injection H as _ <-. reflexivity.
Qed.

Lemma MultiHeadedAttention_forward_parameters (m m' : MultiHeadedAttention)
    (query key value out : T) (mask : option T) :
  MultiHeadedAttention_forward m query key value mask = Ok (out, m') ->
  MultiHeadedAttention_parameters m' = MultiHeadedAttention_parameters m.
Proof.
  intros H. unfold MultiHeadedAttention_parameters.
  rewrite (MultiHeadedAttention_forward_linears _ _ _ _ _ _ _ H). reflexivity.
Qed.

(** A sublayer connection that returned has called its sublayer, once, and
    hands on the state the sublayer returned. *)
Lemma SublayerConnection_forward_called {S : Type} (sc : SublayerConnection)
    (x r : T) (s : S) (f : T -> res (T * S)) :
  SublayerConnection_forward sc x f = Ok (r, s) ->
  exists n y, f n = Ok (y, s).
Proof.
  unfold SublayerConnection_forward. intros H.
  apply bind_inv in H. destruct H as [n [_ H]].
  apply bind_inv in H. destruct H as [[y s'] [Hf H]].
  apply bind_inv in H. destruct H as [d [_ H]].
  apply bind_inv in H. destruct H as [o [_ H]].
  injection H as _ <-. exists n, y. exact Hf.
Qed.

Lemma EncoderLayer_forward_parameters (l l' : EncoderLayer)
    (seq seq_mask video video_mask out act : T) (type : string) :
  EncoderLayer_forward l seq seq_mask video video_mask type = Ok ((out, act), l') ->
  EncoderLayer_parameters l' = EncoderLayer_parameters l /\
  classifier l' = classifier l /\ ff1 l' = ff1 l /\ ff2 l' = ff2 l /\
  sublayer l' = sublayer l /\ el_size l' = el_size l.
Proof.
  rewrite EncoderLayer_forward_steps. intros H.
  apply bind_inv in H. destruct H as [[seq1 sa] [H1 H]].
  apply bind_inv in H. destruct H as [[vid_seq va] [H2 H]].
  apply bind_inv in H. destruct H as [[seq_vid qa] [H3 H]].
  apply bind_inv in H. destruct H as [[o a] [_ H]].
  injection H as _ _ <-.
  unfold EncoderLayer_step1 in H1.
  apply bind_inv in H1. destruct H1 as [s0 [_ H1]].
  apply SublayerConnection_forward_called in H1. destruct H1 as [n1 [y1 H1]].
  apply MultiHeadedAttention_forward_parameters in H1.
  unfold EncoderLayer_vid_seq in H2.
  apply bind_inv in H2. destruct H2 as [s1 [_ H2]].
  apply SublayerConnection_forward_called in H2. destruct H2 as [n2 [y2 H2]].
  unfold text_over_video in H2.
  apply MultiHeadedAttention_forward_parameters in H2.
  unfold EncoderLayer_seq_vid in H3.
  apply bind_inv in H3. destruct H3 as [s2 [_ H3]].
  apply SublayerConnection_forward_called in H3. destruct H3 as [n3 [y3 H3]].
  unfold video_over_text, call_option in H3.
  destruct (seq_attn l) as [a0|] eqn:Ea; [|discriminate H3].
  apply MultiHeadedAttention_forward_parameters in H3.
  split; [|repeat split].
  unfold EncoderLayer_parameters.
  cbn [EncoderLayer_set_attns self_attn vid_attn ff1 sublayer seq_attn ff2 classifier].
  rewrite H1, H2, Ea. cbn [option_list flat_map]. rewrite H3. reflexivity.
Qed.

Lemma Encoder_loop_parameters (layers layers' : list EncoderLayer) (x : T)
    (a : option T) (mask video video_mask : T) (type : string) (r : T * option T) :
  Encoder_loop layers x a mask video video_mask type = Ok (r, layers') ->
  flat_map EncoderLayer_parameters layers' = flat_map EncoderLayer_parameters layers /\
  List.length layers' = List.length layers.
Proof.
  revert layers' x a r.
  induction layers as [|layer rest IH]; intros layers' x a r H; cbn [Encoder_loop] in H.
  - injection H as _ <-. split; reflexivity.
  - apply bind_inv in H. destruct H as [[[x' a'] layer'] [Hl H]].
    apply bind_inv in H. destruct H as [[r' rest'] [Hr H]].
    injection H as _ <-.
    apply EncoderLayer_forward_parameters in Hl. destruct Hl as [Hl _].
    apply IH in Hr. destruct Hr as [Hr Hn].
    cbn [flat_map List.length]. rewrite Hl, Hr, Hn. split; reflexivity.
Qed.

Lemma Encoder_forward_parameters (e e' : Encoder) (x mask video video_mask : T)
    (type : string) (r : T * T) :
  Encoder_forward e x mask video video_mask type = Ok (r, e') ->
  Encoder_parameters e' = Encoder_parameters e /\
  List.length (enc_layers e') = List.length (enc_layers e).
Proof.
  unfold Encoder_forward. intros H.
  apply bind_inv in H. destruct H as [[[x' a] layers'] [Hl H]].
  apply bind_inv in H. destruct H as [n [_ H]].
  destruct a as [a|]; [|discriminate H]. injection H as _ <-.
  apply Encoder_loop_parameters in Hl. destruct Hl as [Hl Hn].
  unfold Encoder_parameters. cbn [enc_layers enc_norm].
  rewrite Hl, Hn. split; reflexivity.
Qed.

Lemma DecoderLayer_forward_parameters (l l' : DecoderLayer)
    (x q_memory q_mask tgt_mask out : T) :
  DecoderLayer_forward l x q_memory q_mask tgt_mask = Ok (out, l') ->
  DecoderLayer_parameters l' = DecoderLayer_parameters l.
Proof.
  unfold DecoderLayer_forward. intros H.
  apply bind_inv in H. destruct H as [s0 [_ H]].
  apply bind_inv in H. destruct H as [[x1 sa] [H1 H]].
  apply bind_inv in H. destruct H as [s1 [_ H]].
  apply bind_inv in H. destruct H as [[x2 qa] [H2 H]].
  apply bind_inv in H. destruct H as [s2 [_ H]].
  apply bind_inv in H. destruct H as [[o u] [_ H]].
  injection H as _ <-.
  apply SublayerConnection_forward_called in H1. destruct H1 as [n1 [y1 H1]].
  apply MultiHeadedAttention_forward_parameters in H1.
  apply SublayerConnection_forward_called in H2. destruct H2 as [n2 [y2 H2]].
  apply MultiHeadedAttention_forward_parameters in H2.
  unfold DecoderLayer_parameters.
  cbn [dl_self_attn src_attn feed_forward dl_sublayer].
  rewrite H1, H2. reflexivity.
Qed.

Lemma Decoder_loop_parameters (layers layers' : list DecoderLayer)
    (x query_memory query_mask tgt_mask r : T) :
  Decoder_loop layers x query_memory query_mask tgt_mask = Ok (r, layers') ->
  flat_map DecoderLayer_parameters layers' = flat_map DecoderLayer_parameters layers.
Proof.
  revert layers' x r.
  induction layers as [|layer rest IH]; intros layers' x r H; cbn [Decoder_loop] in H.
  - injection H as _ <-. reflexivity.
  - apply bind_inv in H. destruct H as [[x' layer'] [Hl H]].
    apply bind_inv in H. destruct H as [[r' rest'] [Hr H]].
    injection H as _ <-.
    apply DecoderLayer_forward_parameters in Hl. apply IH in Hr.
    cbn [flat_map]. rewrite Hl, Hr. reflexivity.
Qed.

Lemma Decoder_forward_parameters (d d' : Decoder)
    (x query_memory query_mask tgt_mask r : T) :
  Decoder_forward d x query_memory query_mask tgt_mask = Ok (r, d') ->
  Decoder_parameters d' = Decoder_parameters d.
Proof.
  unfold Decoder_forward. intros H.
  apply bind_inv in H. destruct H as [[x' layers'] [Hl H]].
  apply bind_inv in H. destruct H as [n [_ H]].
  injection H as _ <-.
  apply Decoder_loop_parameters in Hl.
  unfold Decoder_parameters. cbn [dec_layers dec_norm]. rewrite Hl. reflexivity.
Qed.

Lemma encode_frame (m m' : EncoderDecoder) (query query_mask video video_mask : T)
    (type : string) (r : T * T) :
  encode m query query_mask video video_mask type = Ok (r, m') ->
  parameters m' = parameters m /\ same_but_stacks m m' /\ decoder m' = decoder m.
Proof.
  unfold encode. intros H.
  assert (He : exists q v e,
             Encoder_forward (encoder m) q query_mask v video_mask type = Ok (r, e)
             /\ m' = set_encoder m e).
  { destruct (String.eqb type "en2ko");
      apply bind_inv in H; destruct H as [q [_ H]];
      apply bind_inv in H; destruct H as [v [_ H]];
      apply bind_inv in H; destruct H as [[o e] [He H]];
      injection H as <- <-; exists q, v, e; (split; [exact He|reflexivity]). }
  destruct He as (q & v & e & He & ->).
  apply Encoder_forward_parameters in He. destruct He as [He _].
  unfold parameters, same_but_stacks.
  cbn [set_encoder en_embed ko_embed encoder vid_encoder decoder en_generator ko_generator].
  rewrite He. repeat split.
Qed.

Lemma decode_frame (m m' : EncoderDecoder) (query_memory query_mask tgt tgt_mask : T)
    (type : string) (r : T) :
  decode m query_memory query_mask tgt tgt_mask type = Ok (r, m') ->
  parameters m' = parameters m /\ same_but_stacks m m' /\ encoder m' = encoder m.
Proof.
  unfold decode. intros H.
  apply bind_inv in H. destruct H as [t [_ H]].
  apply bind_inv in H. destruct H as [[o d] [Hd H]].
  injection H as _ <-.
  apply Decoder_forward_parameters in Hd.
  unfold parameters, same_but_stacks.
  cbn [set_decoder en_embed ko_embed encoder vid_encoder decoder en_generator ko_generator].
  rewrite Hd. repeat split.
Qed.

(** X1: a forward pass of the whole model that returns has changed no
    parameter and none of the embeddings, the video encoder or the
    generators; what it writes is inside the two stacks (the attention
    weights each attention module keeps). *)
Theorem EncoderDecoder_forward_frame (m m' : EncoderDecoder)
    (en ensrc_mask entgt_mask ko kosrc_mask kotgt_mask video video_mask : T)
    (out : T * T * T * T) :
  EncoderDecoder_forward m en ensrc_mask entgt_mask ko kosrc_mask kotgt_mask
    video video_mask = Ok (out, m') ->
  parameters m' = parameters m /\ same_but_stacks m m'.
Proof.
  unfold EncoderDecoder_forward. intros H.
  apply bind_inv in H. destruct H as [[[e1 a1] m1] [H1 H]].
  apply bind_inv in H. destruct H as [ko_in [_ H]].
  apply bind_inv in H. destruct H as [[d1 m2] [H2 H]].
  apply bind_inv in H. destruct H as [[[e2 a2] m3] [H3 H]].
  apply bind_inv in H. destruct H as [en_in [_ H]].
  apply bind_inv in H. destruct H as [[d2 m4] [H4 H]].
  injection H as _ <-.
  apply encode_frame in H1, H3. apply decode_frame in H2, H4.
  destruct H1 as [P1 [S1 _]], H2 as [P2 [S2 _]], H3 as [P3 [S3 _]], H4 as [P4 [S4 _]].
  split; [congruence|].
  unfold same_but_stacks in *.
  destruct S1 as (A1 & B1 & C1 & D1 & E1), S2 as (A2 & B2 & C2 & D2 & E2),
    S3 as (A3 & B3 & C3 & D3 & E3), S4 as (A4 & B4 & C4 & D4 & E4).
  repeat split; congruence.
Qed.

End Frame.

Lemma EncoderDecoder_forward_frame_witness :
  exists m out m',
    Scenario.model false = Ok m /\
    EncoderDecoder_forward m Scenario.en Scenario.ensrc_mask Scenario.entgt_mask
      Scenario.ko Scenario.kosrc_mask Scenario.kotgt_mask
      Scenario.video Scenario.video_mask = Ok (out, m') /\
    parameters m' = parameters m /\ same_but_stacks m m'.
Proof.
  eexists. eexists. eexists.
  split; [vm_compute; reflexivity|].
  match goal with
  | |- ?A /\ _ => assert (H : A) by (vm_compute; reflexivity); split; [exact H|]
  end.
  exact (EncoderDecoder_forward_frame _ _ _ _ _ _ _ _ _ _ _ H).
Defined.

(** ** More on the encoder layer *)

Section EncoderLayerMore.

Context {T : Type} {RT : Torch T}.

Lemma not_ok_fails {A : Type} (m : res A) :
  (forall a, m <> Ok a) -> fails m.
Proof.
  intros H. destruct m as [a|e]; [destruct (H a eq_refl)|exists e; reflexivity].
Qed.

(** X2: a layer built without [seq_attn], without [ff2] or without
    [classifier] (the defaults of the constructor) cannot run: every call
    of [forward] raises, whatever the input. *)
Theorem EncoderLayer_forward_needs_optional_modules (l : EncoderLayer)
    (seq seq_mask video video_mask : T) (type : string) :
  seq_attn l = None \/ ff2 l = None \/ classifier l = ClassifierNone ->
  fails (EncoderLayer_forward l seq seq_mask video video_mask type).
Proof.
  intros Hnone. apply not_ok_fails. intros [[out act] l'] H.
  rewrite EncoderLayer_forward_steps in H.
  apply bind_inv in H. destruct H as [[seq1 sa] [_ H]].
  apply bind_inv in H. destruct H as [[vid_seq va] [_ H]].
  apply bind_inv in H. destruct H as [[seq_vid qa] [H3 H]].
  apply bind_inv in H. destruct H as [[o a] [H4 _]].
  destruct Hnone as [Hn | [Hn | Hn]].
  - unfold EncoderLayer_seq_vid in H3.
    apply bind_inv in H3. destruct H3 as [s2 [_ H3]].
    apply SublayerConnection_forward_called in H3. destruct H3 as [n [y H3]].
    unfold video_over_text in H3. rewrite Hn in H3. discriminate H3.
  - unfold EncoderLayer_after_fusion in H4.
    apply bind_inv in H4. destruct H4 as [s3 [_ H4]].
    apply bind_inv in H4. destruct H4 as [[sv u] [H4 _]].
    apply SublayerConnection_forward_called in H4. destruct H4 as [n [y H4]].
    unfold stateless in H4. rewrite Hn in H4. discriminate H4.
  - unfold EncoderLayer_after_fusion in H4.
    apply bind_inv in H4. destruct H4 as [s3 [_ H4]].
    apply bind_inv in H4. destruct H4 as [[sv u] [_ H4]].
    apply bind_inv in H4. destruct H4 as [ap [H4 _]].
    rewrite Hn in H4. discriminate H4.
Qed.

(** X3: inside one layer the action prediction is computed without the
    video mask: two calls that differ only in [video_mask] and both return
    give the same action prediction. *)
Theorem EncoderLayer_act_pred_ignores_video_mask (l l1 l2 : EncoderLayer)
    (seq seq_mask video video_mask video_mask' out1 act1 out2 act2 : T)
    (type : string) :
  EncoderLayer_forward l seq seq_mask video video_mask type = Ok ((out1, act1), l1) ->
  EncoderLayer_forward l seq seq_mask video video_mask' type = Ok ((out2, act2), l2) ->
  act1 = act2 /\ self_attn l1 = self_attn l2 /\ seq_attn l1 = seq_attn l2.
Proof.
  rewrite !EncoderLayer_forward_steps. intros H1 H2.
  destruct (EncoderLayer_step1 l seq seq_mask) as [[seq1 sa]|]; [|discriminate H1].
  cbn [bind] in H1, H2.
  apply bind_inv in H1. destruct H1 as [[vs1 va1] [_ H1]].
  apply bind_inv in H2. destruct H2 as [[vs2 va2] [_ H2]].
  destruct (EncoderLayer_seq_vid l seq1 seq_mask video) as [[seq_vid qa]|];
    [|discriminate H1].
  cbn [bind] in H1, H2.
  apply bind_inv in H1. destruct H1 as [[o1 a1] [F1 H1]].
  apply bind_inv in H2. destruct H2 as [[o2 a2] [F2 H2]].
  injection H1 as <- <- <-. injection H2 as <- <- <-.
  unfold EncoderLayer_after_fusion in F1, F2.
  destruct (py_index (sublayer l) 3) as [s3|]; [|discriminate F1].
  cbn [bind] in F1, F2.
  destruct (SublayerConnection_forward s3 seq_vid _) as [[sv u]|]; [|discriminate F1].
  cbn [bind] in F1, F2.
  destruct (EncoderLayer_act_pred (classifier l) sv type) as [ap|]; [|discriminate F1].
  cbn [bind] in F1, F2.
  apply bind_inv in F1. destruct F1 as [x1 [_ F1]].
  apply bind_inv in F2. destruct F2 as [x2 [_ F2]].
  injection F1 as _ <-. injection F2 as _ <-.
  repeat split.
Qed.

End EncoderLayerMore.

Lemma EncoderLayer_forward_needs_optional_modules_witness :
  exists l,
    Inputs.bare_layer = Ok l /\
    fails (EncoderLayer_forward l [2; 5; 512] Scenario.ensrc_mask [2; 3; 512]
             Scenario.video_mask "en2ko"%string).
Proof.
  eexists. split; [vm_compute; reflexivity|].
  apply EncoderLayer_forward_needs_optional_modules.
  left. reflexivity.
Defined.

Lemma EncoderLayer_act_pred_ignores_video_mask_witness :
  exists l out1 act1 l1 out2 act2 l2,
    Example.layer false = Ok l /\
    EncoderLayer_forward l Example.seq Example.seq_mask Example.video
      Example.video_mask "en2ko"%string = Ok ((out1, act1), l1) /\
    EncoderLayer_forward l Example.seq Example.seq_mask Example.video
      Inputs.other_video_mask "en2ko"%string = Ok ((out2, act2), l2) /\
    act1 = act2.
Proof.
  do 7 eexists.
  split; [vm_compute; reflexivity|].
  match goal with
  | |- ?A /\ _ => assert (H1 : A) by (vm_compute; reflexivity); split; [exact H1|]
  end.
  match goal with
  | |- ?A /\ _ => assert (H2 : A) by (vm_compute; reflexivity); split; [exact H2|]
  end.
  exact (proj1 (EncoderLayer_act_pred_ignores_video_mask _ _ _ _ _ _ _ _ _ _ _ _ _
                  H1 H2)).
Defined.

(** ** The decoder stack *)

Section DecoderFacts.

Context {T : Type} {RT : Torch T}.

Lemma Decoder_loop_app (l1 l2 : list DecoderLayer)
    (x query_memory query_mask tgt_mask : T) :
  Decoder_loop (l1 ++ l2) x query_memory query_mask tgt_mask =
  '(x1, l1') <- Decoder_loop l1 x query_memory query_mask tgt_mask ;;
  '(x2, l2') <- Decoder_loop l2 x1 query_memory query_mask tgt_mask ;;
  Ok (x2, l1' ++ l2').
Proof.
  revert x.
  induction l1 as [|layer l1 IH]; intros x; cbn [Decoder_loop app].
  - rewrite bind_ok.
    destruct (Decoder_loop l2 x query_memory query_mask tgt_mask) as [[x2 l2']|e];
      reflexivity.
  - destruct (DecoderLayer_forward layer x query_memory query_mask tgt_mask)
      as [[x' layer']|e]; cbn [bind]; [|reflexivity].
    rewrite IH.
    destruct (Decoder_loop l1 x' query_memory query_mask tgt_mask)
      as [[x1 l1']|e]; cbn [bind]; [|reflexivity].
    destruct (Decoder_loop l2 x1 query_memory query_mask tgt_mask)
      as [[x2 l2']|e]; reflexivity.
Qed.

(** X4: a decoder built with [N <= 0] layers does not raise as the encoder
    does: it returns the closing norm of its input, without reading the
    memory or the masks.  Built with [N >= 1] layers it is the first [N-1]
    layers, then the last, then the norm. *)
Theorem Decoder_forward_by_depth (layer : DecoderLayer) (N : Z) (d : Decoder)
    (x query_memory query_mask tgt_mask : T) :
  Decoder_init layer N = Ok d ->
  (N <= 0 ->
   Decoder_forward d x query_memory query_mask tgt_mask =
   (n <- LayerNorm_forward (dec_norm d) x ;; Ok (n, d)))
  /\
  (1 <= N ->
   Decoder_forward d x query_memory query_mask tgt_mask =
   '(x1, front') <-
      Decoder_loop (clones layer (N - 1)) x query_memory query_mask tgt_mask ;;
   '(x2, last') <- DecoderLayer_forward layer x1 query_memory query_mask tgt_mask ;;
   n <- LayerNorm_forward (dec_norm d) x2 ;;
   Ok (n, mkDecoder (front' ++ [last']) (dec_norm d))).
Proof.
  intros Hinit. unfold Decoder_init in Hinit.
  apply bind_inv in Hinit. destruct Hinit as [n [_ Hn]].
  injection Hn as <-. unfold Decoder_forward. cbn [dec_layers dec_norm].
  split; intros HN.
  - rewrite (clones_nil layer N HN). cbn [Decoder_loop bind]. reflexivity.
  - rewrite (clones_snoc layer N HN), Decoder_loop_app.
    destruct (Decoder_loop (clones layer (N - 1)) x query_memory query_mask tgt_mask)
      as [[x1 front']|e]; cbn [bind]; [|reflexivity].
    cbn [Decoder_loop].
    destruct (DecoderLayer_forward layer x1 query_memory query_mask tgt_mask)
      as [[x2 last']|e]; cbn [bind]; reflexivity.
Qed.

End DecoderFacts.

Lemma Decoder_forward_by_depth_witness :
  exists layer d,
    Inputs.decoder_layer = Ok layer /\
    Decoder_init layer 0 = Ok d /\
    Decoder_forward d [2; 4; 512] [2; 5; 512] Scenario.ensrc_mask Scenario.kotgt_mask
    = (n <- LayerNorm_forward (dec_norm d) [2; 4; 512] ;; Ok (n, d)) /\
    Decoder_forward d [2; 4; 512] [2; 5; 512] Scenario.ensrc_mask Scenario.kotgt_mask
    = Ok ([2; 4; 512], d).
Proof.
  eexists. eexists.
  split; [vm_compute; reflexivity|].
  match goal with
  | |- ?A /\ _ => assert (H : A) by (vm_compute; reflexivity); split; [exact H|]
  end.
  split.
  - exact (proj1 (Decoder_forward_by_depth _ 0 _ [2; 4; 512] [2; 5; 512]
                    Scenario.ensrc_mask Scenario.kotgt_mask H) ltac:(lia)).
  - vm_compute. reflexivity.
Defined.

(** ** Shapes through multi-headed attention *)

Module ShapeFacts.

Import Shape.

Section OnHost.

Context {host : Host}.

Lemma eqb_minus_one (a : Z) : 0 <= a -> (a =? -1) = false.
Proof. intros H. apply Z.eqb_neq. lia. Qed.

Lemma leb_zero (a : Z) : 0 <= a -> (0 <=? a) = true.
Proof. intros H. apply Z.leb_le. exact H. Qed.

(** [x.view(nbatches, -1, h, d_k)] on a batch of [t] rows of width [h * d_k]. *)
Lemma view_split_heads (b t h_ dk : Z) :
  0 < b -> 0 <= t -> 0 < h_ -> 0 < dk ->
  view_shape [b; t; h_ * dk] [b; -1; h_; dk] = Ok [b; t; h_; dk].
Proof.
  intros Hb Ht Hh Hd. unfold view_shape, valid, numel.
  cbn. rewrite !eqb_minus_one by lia. cbn. rewrite !leb_zero by lia. cbn.
  assert (Hp : b * (h_ * (dk * 1)) <> 0) by nia.
  destruct (Z.eqb_spec (b * (h_ * (dk * 1))) 0) as [E|_]; [contradiction|].
  replace (b * (t * (h_ * dk * 1))) with (t * (b * (h_ * (dk * 1)))) by ring.
  rewrite Z.mod_mul, Z.div_mul by exact Hp.
  reflexivity.
Qed.

(** [x.view(nbatches, -1, h * d_k)] on the heads put side by side again. *)
Lemma view_merge_heads (b t h_ dk : Z) :
  0 < b -> 0 <= t -> 0 < h_ -> 0 < dk ->
  view_shape [b; t; h_; dk] [b; -1; h_ * dk] = Ok [b; t; h_ * dk].
Proof.
  intros Hb Ht Hh Hd. unfold view_shape.
  assert (Hm : 0 <= h_ * dk) by nia.
  unfold valid, numel.
  cbn -[Z.mul]. rewrite !eqb_minus_one by lia. cbn -[Z.mul].
  rewrite !leb_zero by lia. cbn -[Z.mul].
  assert (Hp : b * (h_ * dk * 1) <> 0) by nia.
  destruct (Z.eqb_spec (b * (h_ * dk * 1)) 0) as [E|_]; [contradiction|].
  replace (b * (t * (h_ * (dk * 1)))) with (t * (b * (h_ * dk * 1))) by ring.
  rewrite Z.mod_mul, Z.div_mul by exact Hp.
  reflexivity.
Qed.

Lemma shape_eqb_refl (s : shape) : shape_eqb s s = true.
Proof.
  unfold shape_eqb. destruct (list_eq_dec Z.eq_dec s s) as [_|H]; [reflexivity|].
  exfalso. apply H. reflexivity.
Qed.

Lemma linear_rows (b t i o : Z) :
  linear_shape [b; t; i] [o; i] (Some [o]) = Ok [b; t; o].
Proof. unfold linear_shape. cbn. rewrite !Z.eqb_refl. reflexivity. Qed.

Lemma matmul_heads (a b n m p : Z) :
  matmul_shape [a; b; n; m] [a; b; m; p] = Ok [a; b; n; p].
Proof.
  unfold matmul_shape, matmul2. cbn. rewrite !Z.eqb_refl. reflexivity.
Qed.

(** A mask of one row per sentence, or of one row per query, unsqueezed
    for the heads, fills scores of shape (b, h, tq, tk). *)
Lemma masked_fill_heads (b h_ tq tk r : Z) (v : scalar) :
  r = 1 \/ r = tq ->
  masked_fill [b; h_; tq; tk] [b; 1; r; tk] v = Ok [b; h_; tq; tk].
Proof.
  intros Hr. unfold masked_fill, broadcast. cbn.
  rewrite !Z.eqb_refl. cbn.
  destruct (Z.eqb_spec tq r) as [<-|Hne];
    [|destruct Hr as [-> | ->]; [|contradiction];
      destruct (Z.eqb_spec tq 1) as [|_]; [contradiction|]];
    cbn; (destruct (Z.eqb_spec h_ 1) as [->|_]; cbn; rewrite shape_eqb_refl;
          reflexivity).
Qed.

Lemma MultiHeadedAttention_init_value (h_ dk d_in : Z) (p : Q) :
  0 < h_ -> 0 < dk ->
  (Qle_bool 0 p && Qle_bool p 1)%bool = true ->
  MultiHeadedAttention_init (T := shape) h_ (h_ * dk) d_in p =
  Ok (attn_module_of h_ dk (if d_in <? 0 then h_ * dk else d_in) p).
Proof.
  intros Hh Hd Hp. unfold MultiHeadedAttention_init, Dropout_init. rewrite Hp.
  destruct (Z.eqb_spec h_ 0) as [|_]; [lia|].
  assert (Hm : (h_ * dk) mod h_ = 0) by (rewrite Z.mul_comm; apply Z.mod_mul; lia).
  rewrite Hm. cbn [Z.eqb negb].
  assert (Hq : h_ * dk / h_ = dk) by (rewrite Z.mul_comm; apply Z.div_mul; lia).
  rewrite Hq.
  set (d := if d_in <? 0 then h_ * dk else d_in).
  assert (Hd0 : 0 <= d) by (subst d; destruct (Z.ltb_spec d_in 0); nia).
  assert (Hm0 : 0 <= h_ * dk) by nia.
  unfold Linear_init, Param_new. cbn -[Z.mul].
  unfold new, valid. cbn -[Z.mul]. rewrite !leb_zero by assumption.
  cbn -[Z.mul]. reflexivity.
Qed.

Section Forward.

Variables h_ dk d b tq tk : Z.
Variable p : Q.
Hypothesis h_pos : 0 < h_.
Hypothesis dk_pos : 0 < dk.
Hypothesis b_pos : 0 < b.
Hypothesis tq_nonneg : 0 <= tq.
Hypothesis tk_nonneg : 0 <= tk.
Hypothesis p_valid : (Qle_bool 0 p && Qle_bool p 1)%bool = true.

Lemma project_heads_shape (m : MultiHeadedAttention (T := shape)) (t : Z) :
  h m = h_ -> d_k m = dk -> 0 <= t ->
  project_heads m b
    (mkLinear (mkParam [h_ * dk; d] LinearWeight)
              (Some (mkParam [h_ * dk] LinearBias)), [b; t; d])
  = Ok [b; h_; t; dk].
Proof.
  intros Hh Hk Ht. unfold project_heads, Linear_forward. rewrite Hh, Hk.
  pose proof (linear_rows b t d (h_ * dk)) as Hl.
  pose proof (view_split_heads b t h_ dk b_pos Ht h_pos dk_pos) as Hv.
  cbn -[Z.mul linear_shape view_shape].
  unfold shape in *.
  rewrite Hl. cbn -[Z.mul view_shape]. rewrite Hv. reflexivity.
Qed.

Lemma attention_heads_shape (mask : option shape) :
  mask = None \/ mask = Some [b; 1; 1; tk] \/ mask = Some [b; 1; tq; tk] ->
  attention [b; h_; tq; dk] [b; h_; tk; dk] [b; h_; tk; dk] mask
    (Some (mkDropout p))
  = Ok ([b; h_; tq; dk], [b; h_; tq; tk]).
Proof.
  intros Hmask. unfold attention, Dropout_forward.
  pose proof (matmul_heads b h_ tq dk tk) as M1.
  pose proof (matmul_heads b h_ tq tk dk) as M2.
  pose proof (fun v => masked_fill_heads b h_ tq tk 1 v (or_introl eq_refl)) as F1.
  pose proof (fun v => masked_fill_heads b h_ tq tk tq v (or_intror eq_refl)) as F2.
  destruct Hmask as [-> | [-> | ->]];
    cbv -[Z.mul matmul_shape masked_fill dropout_shape];
    unfold shape in *; rewrite M1;
    cbv -[Z.mul matmul_shape masked_fill dropout_shape];
    rewrite ?F1, ?F2;
    cbv -[Z.mul matmul_shape masked_fill dropout_shape];
    unfold dropout_shape; rewrite p_valid;
    cbv -[Z.mul matmul_shape]; rewrite M2; reflexivity.
Qed.

Lemma MultiHeadedAttention_forward_shape_of (mask : option shape) :
  mask = None \/ mask = Some [b; 1; tk] \/ mask = Some [b; tq; tk] ->
  MultiHeadedAttention_forward (attn_module_of h_ dk d p)
    [b; tq; d] [b; tk; d] [b; tk; d] mask
  = Ok ([b; tq; d], set_attn (attn_module_of h_ dk d p) [b; h_; tq; tk]).
Proof.
  intros Hmask. unfold MultiHeadedAttention_forward.
  set (m := attn_module_of h_ dk d p).
  pose proof (view_merge_heads b tq h_ dk b_pos tq_nonneg h_pos dk_pos) as Hv.
  pose proof (linear_rows b tq (h_ * dk) d) as Hl.
  pose proof (attention_heads_shape None (or_introl eq_refl)) as A0.
  pose proof (attention_heads_shape (Some [b; 1; 1; tk])
                (or_intror (or_introl eq_refl))) as A1.
  pose proof (attention_heads_shape (Some [b; 1; tq; tk])
                (or_intror (or_intror eq_refl))) as A2.
  assert (P : forall t, 0 <= t ->
             project_heads m b
               (mkLinear (mkParam [h_ * dk; d] LinearWeight)
                         (Some (mkParam [h_ * dk] LinearBias)), [b; t; d])
             = Ok [b; h_; t; dk])
    by (intros t Ht; apply project_heads_shape; (reflexivity || assumption)).
  unfold shape in *.
  destruct Hmask as [-> | [-> | ->]];
    [ | change (unsqueeze [b; 1; tk] 1) with (Ok (A := list Z) [b; 1; 1; tk])
      | change (unsqueeze [b; tq; tk] 1) with (Ok (A := list Z) [b; 1; tq; tk]) ];
    cbn [bind];
    change (size [b; tq; d]) with [b; tq; d];
    change (combine (linears m) [[b; tq; d]; [b; tk; d]; [b; tk; d]])
      with [(mkLinear (mkParam [h_ * dk; d] LinearWeight)
                      (Some (mkParam [h_ * dk] LinearBias)), [b; tq; d]);
            (mkLinear (mkParam [h_ * dk; d] LinearWeight)
                      (Some (mkParam [h_ * dk] LinearBias)), [b; tk; d]);
            (mkLinear (mkParam [h_ * dk; d] LinearWeight)
                      (Some (mkParam [h_ * dk] LinearBias)), [b; tk; d])];
    cbn [mapM];
    rewrite !P by assumption;
    cbn [bind];
    change (mha_dropout m) with (mkDropout p);
    first [rewrite A0 | rewrite A1 | rewrite A2];
    cbn [bind];
    change (transpose [b; h_; tq; dk] 1 2) with (Ok (A := list Z) [b; tq; h_; dk]);
    cbn [bind];
    change (contiguous [b; tq; h_; dk]) with (Ok (A := list Z) [b; tq; h_; dk]);
    cbn [bind];
    change (view [b; tq; h_; dk] [b; -1; h m * d_k m])
      with (view_shape [b; tq; h_; dk] [b; -1; h_ * dk]);
    unfold shape in *; rewrite Hv; cbn [bind];
    change (py_index (linears m) (-1))
      with (Ok (mkLinear (T := list Z) (mkParam [d; h_ * dk] LinearWeight)
                         (Some (mkParam [d] LinearBias))));
    cbn [bind]; unfold Linear_forward; cbn [lin_weight lin_bias pdata option_map];
    change (linear [b; tq; h_ * dk] [d; h_ * dk] (Some [d]))
      with (linear_shape [b; tq; h_ * dk] [d; h_ * dk] (Some [d]));
    rewrite Hl; reflexivity.
Qed.

End Forward.

(** X5: an attention module built for [h] heads on a width [d_model] that
    [h] divides maps a query of [tq] rows and keys and values of [tk] rows,
    in a batch of [b], to [tq] rows of the input width, and keeps attention
    weights of shape (b, h, tq, tk); without a mask, with one mask row per
    sentence, or with one per query. *)
Theorem MultiHeadedAttention_forward_shape
    (h_ d_model d_in b tq tk : Z) (p : Q) (mask : option shape)
    (m : MultiHeadedAttention) :
  0 < h_ -> 0 < d_model -> 0 < b -> 0 <= tq -> 0 <= tk ->
  (Qle_bool 0 p && Qle_bool p 1)%bool = true ->
  mask = None \/ mask = Some [b; 1; tk] \/ mask = Some [b; tq; tk] ->
  MultiHeadedAttention_init (T := shape) h_ d_model d_in p = Ok m ->
  let d := if d_in <? 0 then d_model else d_in in
  MultiHeadedAttention_forward m [b; tq; d] [b; tk; d] [b; tk; d] mask
  = Ok ([b; tq; d], set_attn m [b; h_; tq; tk]).
Proof.
  intros Hh Hd Hb Htq Htk Hp Hmask Hinit d.
  assert (Hm : d_model mod h_ = 0).
  { unfold MultiHeadedAttention_init in Hinit.
    destruct (h_ =? 0); [discriminate Hinit|].
    destruct (Z.eqb_spec (d_model mod h_) 0) as [E|_]; [exact E|discriminate Hinit]. }
  set (dk := d_model / h_).
  assert (Hdm : d_model = h_ * dk)
    by (subst dk; apply Z_div_exact_full_2; [lia|exact Hm]).
  assert (Hdk : 0 < dk) by nia.
  subst d. rewrite Hdm in Hinit |- *.
  rewrite MultiHeadedAttention_init_value in Hinit by assumption.
  injection Hinit as <-.
  apply MultiHeadedAttention_forward_shape_of; assumption.
Qed.

End OnHost.

Lemma MultiHeadedAttention_forward_shape_witness :
  exists m,
    MultiHeadedAttention_init (T := shape) 8 512 (-1) (1 # 10) = Ok m /\
    MultiHeadedAttention_forward m [2; 5; 512] [2; 3; 512] [2; 3; 512]
      (Some [2; 1; 3])
    = Ok ([2; 5; 512], set_attn m [2; 8; 5; 3]).
Proof.
  eexists.
  match goal with
  | |- ?A /\ _ => assert (H : A) by (vm_compute; reflexivity); split; [exact H|]
  end.
  exact (MultiHeadedAttention_forward_shape 8 512 (-1) 2 5 3 (1 # 10)
           (Some [2; 1; 3]) _ ltac:(lia) ltac:(lia) ltac:(lia) ltac:(lia) ltac:(lia)
           eq_refl (or_intror (or_introl eq_refl)) H).
Defined.

End ShapeFacts.

(** ** Distributions *)

Module DistributionFacts.

Import Shape Numeric NumericFacts AttentionSpec AttentionFacts LastAxis.

Local Open Scope R_scope.

Lemma log_softmax_last (z y : tensor) (idx : index) :
  log_softmax_num z (-1) = Ok y ->
  (0 < last_len y)%Z ->
  along_last y exp idx = 1.
Proof.
  intros H Hn.
  assert (Hw : exists d, wrap_dim (ndim (sh z)) (-1) = Ok d).
  { unfold log_softmax_num in H. destruct (wrap_dim (ndim (sh z)) (-1)) as [d|];
      [exists d; reflexivity|discriminate H]. }
  destruct Hw as [d Hw].
  assert (Hs : sh y = sh z).
  { unfold log_softmax_num in H. rewrite Hw in H. injection H as <-. reflexivity. }
  pose proof (wrap_last _ _ Hw) as Hd.
  unfold along_last, last_len, last_axis, dim_len in *. rewrite Hs in *.
  pose proof (log_softmax_num_normalised z y (-1) d idx Hw) as Hsum.
  unfold dim_len in Hsum. rewrite Hd in Hsum. apply Hsum; assumption.
Qed.

Lemma softmax_last (x p : tensor) (idx : index) :
  softmax_num x (-1) = Ok p ->
  (0 < last_len p)%Z ->
  0 < dat p idx /\ along_last p (fun r => r) idx = 1.
Proof.
  intros H Hn. destruct (softmax_num_dat _ _ H) as [Hs Hp].
  unfold along_last, last_len, last_axis in *. rewrite Hs in *.
  fold (keys x) in *. fold (key_axis x).
  assert (Hpos : forall i,
             0 < sum_over (keys x) (fun j => exp (dat x (set_nth i (key_axis x) j)))).
  { intros i.
    apply (sum_over_exp_pos _ (fun j => dat x (set_nth i (key_axis x) j))), Hn. }
  split.
  - rewrite Hp. apply Rdiv_lt_0_compat; [apply exp_pos|apply Hpos].
  - unfold sum_over.
    rewrite (rsum_map_ext _
      (fun j => exp (dat x (set_nth idx (key_axis x) j)) *
                / sum_over (keys x) (fun k => exp (dat x (set_nth idx (key_axis x) k))))).
    + rewrite rsum_map_scale.
      change (rsum (map (fun j => exp (dat x (set_nth idx (key_axis x) j)))
                        (range (keys x))))
        with (sum_over (keys x) (fun k => exp (dat x (set_nth idx (key_axis x) k)))).
      specialize (Hpos idx). field. lra.
    + intros j _. rewrite Hp. unfold Rdiv. f_equal. f_equal.
      unfold sum_over. apply rsum_map_ext. intros k _.
      rewrite set_nth_set_nth. reflexivity.
Qed.

Section Distributions.

Variable draw : init -> shape -> index -> R.

Let RTn : Torch tensor := runtime draw.

(** X6: with dropout off (no dropout module passed, or the modules in
    evaluation mode), the weights [attention] returns are a distribution
    over the keys for every query: no entry is negative, and the entries
    sum to one along the last axis; with a mask or without, whatever the
    mask. *)
Theorem attention_returns_distribution (md : mode)
    (query key value out p : tensor) (mask : option tensor) (d : option Dropout) :
  d = None \/ md = Evaluation ->
  attention (RT := runtime_in draw md) query key value mask d = Ok (out, p) ->
  (0 < last_len p)%Z ->
  forall idx, 0 <= dat p idx /\ along_last p (fun r => r) idx = 1.
Proof.
  unfold attention. intros Hoff H Hn idx.
  apply bind_inv in H. destruct H as [d_k [_ H]].
  apply bind_inv in H. destruct H as [kt [_ H]].
  apply bind_inv in H. destruct H as [qk [_ H]].
  apply bind_inv in H. destruct H as [scores [_ H]].
  apply bind_inv in H. destruct H as [filled [_ H]].
  apply bind_inv in H. destruct H as [p0 [Hp0 H]].
  apply bind_inv in H. destruct H as [p1 [Hp1 H]].
  apply bind_inv in H. destruct H as [o [_ H]].
  injection H as _ <-.
  apply (dropout_option_dat draw md d _ _ Hoff) in Hp1. destruct Hp1 as [Hs1 Hd1].
  assert (Hn0 : (0 < last_len p0)%Z) by (unfold last_len in *; rewrite <- Hs1; exact Hn).
  destruct (softmax_last filled p0 idx Hp0 Hn0) as [Hpos Hsum].
  unfold along_last, last_len, last_axis in *. rewrite Hs1, Hd1.
  split; [left; exact Hpos|exact Hsum].
Qed.

(** X7: the exponentials of what [Generator.forward] returns sum to one
    over the vocabulary, at every position. *)
Theorem Generator_forward_distribution (g : Generator) (x y : tensor) :
  Generator_forward (RT := RTn) g x = Ok y ->
  (0 < last_len y)%Z ->
  forall idx, along_last y exp idx = 1.
Proof.
  unfold Generator_forward. intros H Hn idx.
  apply bind_inv in H. destruct H as [z [_ H]].
  exact (log_softmax_last z y idx H Hn).
Qed.

(** X8: with per-language classifiers, whatever the dict holds and
    whatever the flag, an action prediction that is returned is a
    log-distribution over the classes at every frame. *)
Theorem EncoderLayer_act_pred_dict_distribution
    (d : list (string * Linear)) (seq_vid a : tensor) (type : string) :
  EncoderLayer_act_pred (RT := RTn) (ClassifierDict d) seq_vid type = Ok a ->
  (0 < last_len a)%Z ->
  forall idx, along_last a exp idx = 1.
Proof.
  unfold EncoderLayer_act_pred. intros H Hn idx.
  destruct (String.eqb type "en2ko");
    apply bind_inv in H; destruct H as [l [_ H]];
    apply bind_inv in H; destruct H as [z [_ H]];
    exact (log_softmax_last z a idx H Hn).
Qed.

End Distributions.

Lemma attention_returns_distribution_witness :
  exists out p,
    attention (RT := runtime draw0) q1 k2 v2 (Some first_masked) None = Ok (out, p) /\
    0 <= dat p [0; 0]%Z /\
    along_last p (fun r => r) [0; 0]%Z = 1.
Proof.
  eexists. eexists.
  match goal with
  | |- ?A /\ _ => assert (H : A) by reflexivity; split; [exact H|]
  end.
  exact (attention_returns_distribution draw0 Evaluation _ _ _ _ _ _ None
           (or_introl eq_refl) H eq_refl [0; 0]%Z).
Defined.

Lemma Generator_forward_distribution_witness :
  exists y,
    Generator_forward (RT := runtime draw0) small_generator small_hidden = Ok y /\
    sh y = [1; 1; 3]%Z /\
    along_last y exp [0; 0; 0]%Z = 1.
Proof.
  eexists.
  match goal with
  | |- ?A /\ _ => assert (H : A) by reflexivity; split; [exact H|]
  end.
  split; [reflexivity|].
  exact (Generator_forward_distribution draw0 _ _ _ H eq_refl [0; 0; 0]%Z).
Defined.

Lemma EncoderLayer_act_pred_dict_distribution_witness :
  exists a,
    EncoderLayer_act_pred (RT := runtime draw0)
      (ClassifierDict [("en"%string, proj small_generator);
                       ("ko"%string, proj small_generator)])
      small_hidden "ko2en"%string = Ok a /\
    along_last a exp [0; 0; 0]%Z = 1.
Proof.
  eexists.
  match goal with
  | |- ?A /\ _ => assert (H : A) by reflexivity; split; [exact H|]
  end.
  exact (EncoderLayer_act_pred_dict_distribution draw0 _ _ _ _ H eq_refl [0; 0; 0]%Z).
Defined.

End DistributionFacts.

(** ** Positional encoding, from its constructor *)

Module PositionFacts.

Import Shape.

Section OnHost.

Context {host : Host}.

Lemma PositionalEncoding_init_value (d_model max_len : Z) (p : Q)
    (pos : PositionalEncoding) :
  PositionalEncoding_init (T := shape) d_model p max_len = Ok pos ->
  pe pos = [1; max_len; d_model] /\ pe_dropout pos = mkDropout p /\
  0 <= max_len /\ 0 <= d_model /\
  (Qle_bool 0 p && Qle_bool p 1)%bool = true /\ d_model <> 0.
Proof.
  unfold PositionalEncoding_init, Dropout_init. intros H.
  destruct (Qle_bool 0 p && Qle_bool p 1)%bool eqn:Hp; [|discriminate H].
  cbn [bind] in H.
  apply bind_inv in H. destruct H as [table [Ht H]].
  cbn in Ht. unfold new, valid in Ht. cbn in Ht.
  destruct (Z.leb_spec 0 max_len) as [Hm|]; [|discriminate Ht].
  destruct (Z.leb_spec 0 d_model) as [Hd|]; [|discriminate Ht].
  cbn in Ht. injection Ht as <-.
  destruct (Z.eqb_spec d_model 0) as [|Hd0]; [discriminate H|].
  destruct (Z.odd d_model && (1 <? d_model))%bool; [discriminate H|].
  cbn in H. injection H as <-. cbn. repeat split; assumption.
Qed.

Lemma Dropout_forward_valid (p : Q) (x : shape) :
  (Qle_bool 0 p && Qle_bool p 1)%bool = true ->
  Dropout_forward (mkDropout p) x = Ok x.
Proof.
  intros Hp. unfold Dropout_forward. cbn. unfold dropout_shape. rewrite Hp.
  reflexivity.
Qed.

Section Constructed.

Variables d_model max_len : Z.
Variable p : Q.
Variable pos : PositionalEncoding (T := shape).
Hypothesis built : PositionalEncoding_init (T := shape) d_model p max_len = Ok pos.
Hypothesis p_valid : (Qle_bool 0 p && Qle_bool p 1)%bool = true.

Lemma pos_shape : pe pos = [1; max_len; d_model].
Proof. exact (proj1 (PositionalEncoding_init_value _ _ _ _ built)). Qed.

Lemma pos_dropout (x : shape) : Dropout_forward (pe_dropout pos) x = Ok x.
Proof.
  rewrite (proj1 (proj2 (PositionalEncoding_init_value _ _ _ _ built))).
  apply Dropout_forward_valid, p_valid.
Qed.

(** X9: batched input no longer than the table keeps its shape, and the
    first add succeeds, so the fallback is not taken. *)
Theorem PositionalEncoding_forward_in_range (b t : Z) :
  0 <= t <= max_len ->
  add_pe pos [b; t; d_model] = Ok [b; t; d_model] /\
  PositionalEncoding_forward pos [b; t; d_model] = Ok [b; t; d_model].
Proof.
  intros Ht.
  exact (PositionalEncoding_forward_batched pos max_len d_model pos_shape
           pos_dropout b t Ht).
Qed.

(** X10: un-batched input of [t] rows, [t] no longer than the table and
    neither 1 nor the width, the width above 1 and within the table, makes
    the first add fail and comes back as a batch of one. *)
Theorem PositionalEncoding_forward_fallback (t : Z) :
  0 <= t <= max_len -> 1 < d_model <= max_len -> t <> 1 -> t <> d_model ->
  fails (add_pe pos [t; d_model]) /\
  PositionalEncoding_forward pos [t; d_model] = Ok [1; t; d_model].
Proof.
  intros Ht Hd H1 Hne.
  exact (PositionalEncoding_forward_unbatched pos max_len d_model pos_shape
           pos_dropout t Ht Hd H1 Hne).
Qed.

(** X11: batched input longer than the table is not always refused.  The
    first add fails; the fallback then reads the batch size as the length:
    a batch of two or more raises, but a single sequence comes back with
    one more dimension, (1, 1, t, d_model). *)
Theorem PositionalEncoding_forward_too_long (b t : Z) :
  2 <= max_len -> max_len < t ->
  fails (add_pe pos [b; t; d_model]) /\
  (b = 1 -> PositionalEncoding_forward pos [b; t; d_model] = Ok [1; 1; t; d_model]) /\
  (2 <= b -> PositionalEncoding_forward pos [b; t; d_model] = Raise RuntimeError).
Proof.
  intros Hm Ht.
  assert (E : add_pe pos [b; t; d_model] = Raise RuntimeError).
  { unfold add_pe. simpl. rewrite pos_shape. simpl.
    unfold slice_len.
    destruct (Z.ltb_spec t 0) as [|_]; [lia|].
    rewrite Z.min_r, Z.max_r by lia.
    unfold broadcast. simpl. rewrite Z.eqb_refl. simpl.
    destruct (Z.eqb_spec t max_len) as [|_]; [lia|].
    destruct (Z.eqb_spec t 1) as [|_]; [lia|].
    destruct (Z.eqb_spec max_len 1) as [|_]; [lia|].
    destruct (b =? 1); reflexivity. }
  split; [eexists; exact E|].
  unfold PositionalEncoding_forward. rewrite E. cbn [try_except].
  change (unsqueeze [b; t; d_model] 0) with (Ok (A := shape) [1; b; t; d_model]).
  cbn [bind].
  split.
  - intros ->. unfold add_pe. simpl. rewrite pos_shape. simpl.
    unfold slice_len. simpl.
    rewrite Z.min_l, Z.max_r by lia.
    unfold broadcast. simpl. rewrite Z.eqb_refl. simpl.
    destruct (Z.eqb_spec t 1) as [|_]; [lia|]. simpl.
    apply pos_dropout.
  - intros Hb. unfold add_pe. simpl. rewrite pos_shape. simpl.
    unfold slice_len.
    destruct (Z.ltb_spec b 0) as [|_]; [lia|].
    unfold broadcast. simpl. rewrite Z.eqb_refl. simpl.
    destruct (Z.eqb_spec b 1) as [|_]; [lia|].
    set (b' := Z.max 0 (Z.min b max_len)).
    assert (Hb' : 2 <= b' <= max_len) by (subst b'; lia).
    destruct (Z.eqb_spec t b') as [|_]; [lia|].
    destruct (Z.eqb_spec t 1) as [|_]; [lia|].
    destruct (Z.eqb_spec b' 1) as [|_]; [lia|].
    reflexivity.
Qed.

End Constructed.

End OnHost.

Lemma PositionalEncoding_forward_in_range_witness :
  exists pos,
    Scenario.position = Ok pos /\
    add_pe pos [2; 5; 512] = Ok [2; 5; 512] /\
    PositionalEncoding_forward pos [2; 5; 512] = Ok [2; 5; 512].
Proof.
  eexists.
  match goal with
  | |- ?A /\ _ => assert (H : A) by (vm_compute; reflexivity); split; [exact H|]
  end.
  exact (PositionalEncoding_forward_in_range 512 5000 (1 # 10) _ H eq_refl 2 5
           ltac:(lia)).
Defined.

Lemma PositionalEncoding_forward_fallback_witness :
  exists pos,
    Scenario.position = Ok pos /\
    fails (add_pe pos [7; 512]) /\
    PositionalEncoding_forward pos [7; 512] = Ok [1; 7; 512].
Proof.
  eexists.
  match goal with
  | |- ?A /\ _ => assert (H : A) by (vm_compute; reflexivity); split; [exact H|]
  end.
  exact (PositionalEncoding_forward_fallback 512 5000 (1 # 10) _ H eq_refl 7
           ltac:(lia) ltac:(lia) ltac:(lia) ltac:(lia)).
Defined.

Lemma PositionalEncoding_forward_too_long_witness :
  exists pos,
    Scenario.position = Ok pos /\
    PositionalEncoding_forward pos [1; 6000; 512] = Ok [1; 1; 6000; 512] /\
    PositionalEncoding_forward pos [2; 6000; 512] = Raise RuntimeError.
Proof.
  eexists.
  match goal with
  | |- ?A /\ _ => assert (H : A) by (vm_compute; reflexivity); split; [exact H|]
  end.
  split.
  - exact (proj1 (proj2 (PositionalEncoding_forward_too_long 512 5000 (1 # 10) _ H
                           eq_refl 1 6000 ltac:(lia) ltac:(lia))) eq_refl).
  - exact (proj2 (proj2 (PositionalEncoding_forward_too_long 512 5000 (1 # 10) _ H
                           eq_refl 2 6000 ltac:(lia) ltac:(lia))) ltac:(lia)).
Defined.

End PositionFacts.

(** ** The size of a model *)

Section Structure.

Context {T : Type} {RT : Torch T}.

Lemma Linear_init_count (i o : Z) (b : bool) (l : Linear) :
  Linear_init i o b = Ok l ->
  List.length (Linear_parameters l) = if b then 2%nat else 1%nat.
Proof.
  unfold Linear_init. intros H.
  apply bind_inv in H. destruct H as [w [_ H]].
  destruct b.
  - apply bind_inv in H. destruct H as [bi [_ H]]. injection H as <-. reflexivity.
  - injection H as <-. reflexivity.
Qed.

Lemma flat_map_clones_count {M : Type} (g : M -> list (@Param T)) (m : M) (N : Z) :
  List.length (flat_map g (clones m N)) = (Z.to_nat N * List.length (g m))%nat.
Proof.
  unfold clones, range_len.
  induction (Z.to_nat N) as [|n IH]; cbn [repeat flat_map]; [reflexivity|].
  rewrite length_app, IH. reflexivity.
Qed.

Lemma clones_count {M : Type} (m : M) (N : Z) :
  List.length (clones m N) = Z.to_nat N.
Proof. unfold clones, range_len. apply repeat_length. Qed.

Lemma MultiHeadedAttention_init_count (h_ d_model d_in : Z) (p : Q)
    (m : MultiHeadedAttention) :
  MultiHeadedAttention_init h_ d_model d_in p = Ok m ->
  List.length (MultiHeadedAttention_parameters m) = 8%nat /\
  List.length (linears m) = 4%nat.
Proof.
  unfold MultiHeadedAttention_init. intros H.
  destruct (h_ =? 0); [discriminate H|].
  destruct (negb (d_model mod h_ =? 0)); [discriminate H|].
  apply bind_inv in H. destruct H as [l [Hl H]].
  apply bind_inv in H. destruct H as [l4 [Hl4 H]].
  apply bind_inv in H. destruct H as [dp [_ H]]. injection H as <-.
  apply Linear_init_count in Hl, Hl4.
  unfold MultiHeadedAttention_parameters. cbn [linears].
  split; [|reflexivity].
  cbn [flat_map]. rewrite !length_app, Hl, Hl4. reflexivity.
Qed.

Lemma PositionwiseFeedForward_init_count (d_model d_ff d_out : Z) (p : Q)
    (f : PositionwiseFeedForward) :
  PositionwiseFeedForward_init d_model d_ff p d_out = Ok f ->
  List.length (PositionwiseFeedForward_parameters f) = 4%nat.
Proof.
  unfold PositionwiseFeedForward_init. intros H.
  apply bind_inv in H. destruct H as [w1 [H1 H]].
  apply bind_inv in H. destruct H as [w2 [H2 H]].
  apply bind_inv in H. destruct H as [dp [_ H]]. injection H as <-.
  apply Linear_init_count in H1, H2.
  unfold PositionwiseFeedForward_parameters. cbn [w_1 w_2].
  rewrite length_app, H1, H2. reflexivity.
Qed.

Lemma SublayerConnection_init_count (n : Z) (p : Q) (s : SublayerConnection) :
  SublayerConnection_init n p = Ok s ->
  List.length (SublayerConnection_parameters s) = 2%nat.
Proof. intros _. reflexivity. Qed.

Lemma make_classifier_count (d_model : Z) (share : bool) (c : Classifier) :
  make_classifier d_model share = Ok c ->
  List.length (Classifier_parameters c) = if share then 1%nat else 0%nat.
Proof.
  unfold make_classifier. intros H. destruct share.
  - apply bind_inv in H. destruct H as [l [Hl H]]. injection H as <-.
    apply Linear_init_count in Hl. exact Hl.
  - apply bind_inv in H. destruct H as [e0 [_ H]].
    apply bind_inv in H. destruct H as [e [_ H]].
    apply bind_inv in H. destruct H as [k0 [_ H]].
    apply bind_inv in H. destruct H as [k [_ H]]. injection H as <-. reflexivity.
Qed.

(** X12: a model [make_model] returns for [N >= 0] has [N] encoder layers
    and [N] decoder layers, five sublayer connections in each encoder
    layer and three in each decoder layer, and [model.parameters()] yields
    12 + 68 N tensors with per-language classifiers, 12 + 69 N with the
    shared one. *)
Theorem make_model_size (en_vocab ko_vocab N d_model d_ff h_ : Z) (p : Q)
    (share : bool) (m : EncoderDecoder) :
  make_model en_vocab ko_vocab N d_model d_ff h_ p share = Ok m ->
  List.length (enc_layers (encoder m)) = Z.to_nat N /\
  List.length (dec_layers (decoder m)) = Z.to_nat N /\
  Forall (fun l => List.length (sublayer l) = 5%nat) (enc_layers (encoder m)) /\
  Forall (fun l => List.length (dl_sublayer l) = 3%nat) (dec_layers (decoder m)) /\
  List.length (parameters m)
  = (12 + Z.to_nat N * (68 + if share then 1 else 0))%nat.
Proof.
  unfold make_model. intros H.
  apply bind_inv in H. destruct H as [m0 [H0 H]]. injection H as <-.
  rewrite parameters_update, length_map.
  unfold make_model_build in H0.
  apply bind_inv in H0. destruct H0 as [attn_ [Eattn H0]].
  apply bind_inv in H0. destruct H0 as [ff [Eff H0]].
  apply bind_inv in H0. destruct H0 as [position [_ H0]].
  apply bind_inv in H0. destruct H0 as [en_gen [Eeg H0]].
  apply bind_inv in H0. destruct H0 as [ko_gen [Ekg H0]].
  apply bind_inv in H0. destruct H0 as [en_emb [Eee H0]].
  apply bind_inv in H0. destruct H0 as [ko_emb [Eke H0]].
  apply bind_inv in H0. destruct H0 as [cls [Ecls H0]].
  apply bind_inv in H0. destruct H0 as [layer [Elayer H0]].
  apply bind_inv in H0. destruct H0 as [enc [Eenc H0]].
  apply bind_inv in H0. destruct H0 as [vl [Evl H0]].
  apply bind_inv in H0. destruct H0 as [dlayer [Edl H0]].
  apply bind_inv in H0. destruct H0 as [dec [Edec H0]].
  injection H0 as <-.
  apply MultiHeadedAttention_init_count in Eattn. destruct Eattn as [Eattn _].
  apply PositionwiseFeedForward_init_count in Eff.
  apply make_classifier_count in Ecls.
  apply Linear_init_count in Evl.
  unfold Generator_init in Eeg, Ekg.
  apply bind_inv in Eeg. destruct Eeg as [egl [Hegl Eeg]]. injection Eeg as <-.
  apply bind_inv in Ekg. destruct Ekg as [kgl [Hkgl Ekg]]. injection Ekg as <-.
  apply Linear_init_count in Hegl, Hkgl.
  unfold EncoderLayer_init in Elayer.
  apply bind_inv in Elayer. destruct Elayer as [sc [_ Elayer]]. injection Elayer as <-.
  unfold DecoderLayer_init in Edl.
  apply bind_inv in Edl. destruct Edl as [dsc [_ Edl]]. injection Edl as <-.
  unfold Encoder_init in Eenc.
  apply bind_inv in Eenc. destruct Eenc as [en [_ Eenc]]. injection Eenc as <-.
  unfold Decoder_init in Edec.
  apply bind_inv in Edec. destruct Edec as [dn [_ Edec]]. injection Edec as <-.
  cbn [update_parameters encoder decoder Encoder_update Decoder_update
       enc_layers dec_layers].
  rewrite !length_map, !clones_count.
  split; [reflexivity|]. split; [reflexivity|].
  split.
  { apply Forall_forall. intros l Hl. apply in_map_iff in Hl.
    destruct Hl as [l0 [<- Hl0]]. unfold clones in Hl0. apply repeat_spec in Hl0.
    subst l0. cbn [EncoderLayer_update sublayer]. rewrite length_map. reflexivity. }
  split.
  { apply Forall_forall. intros l Hl. apply in_map_iff in Hl.
    destruct Hl as [l0 [<- Hl0]]. unfold clones in Hl0. apply repeat_spec in Hl0.
    subst l0. cbn [DecoderLayer_update dl_sublayer]. rewrite length_map. reflexivity. }
  unfold parameters, Encoder_parameters, Decoder_parameters.
  cbn [en_embed ko_embed encoder vid_encoder decoder en_generator ko_generator
       emb lut enc_layers enc_norm dec_layers dec_norm vid_linear proj].
  rewrite !length_app, !flat_map_clones_count, Evl, Hegl, Hkgl.
  unfold EncoderLayer_parameters, DecoderLayer_parameters.
  cbn [self_attn vid_attn ff1 sublayer seq_attn ff2 classifier
       dl_self_attn src_attn feed_forward dl_sublayer option_list flat_map].
  rewrite !length_app, !flat_map_clones_count, Eattn, Eff, Ecls.
  cbn [List.length LayerNorm_parameters SublayerConnection_parameters].
  change (Z.to_nat 5) with 5%nat. change (Z.to_nat 3) with 3%nat.
  destruct share; lia.
Qed.

End Structure.

Lemma make_model_size_witness :
  exists m,
    Scenario.model true = Ok m /\
    List.length (enc_layers (encoder m)) = 2%nat /\
    List.length (parameters m) = 150%nat.
Proof.
  eexists.
  match goal with
  | |- ?A /\ _ => assert (H : A) by (vm_compute; reflexivity); split; [exact H|]
  end.
  destruct (make_model_size _ _ _ _ _ _ _ _ _ H) as (He & _ & _ & _ & Hp).
  split; [exact He | exact Hp].
Defined.

(** ** The direction flag *)

Section Direction.

Context {T : Type} {RT : Torch T}.

Variable type : string.
Hypothesis not_en2ko : String.eqb type "en2ko" = false.

Lemma EncoderLayer_act_pred_flag (c : Classifier) (seq_vid : T) :
  EncoderLayer_act_pred c seq_vid type = EncoderLayer_act_pred c seq_vid "ko2en".
Proof.
  unfold EncoderLayer_act_pred. rewrite not_en2ko. reflexivity.
Qed.

Lemma EncoderLayer_forward_flag (l : EncoderLayer) (seq seq_mask video video_mask : T) :
  EncoderLayer_forward l seq seq_mask video video_mask type =
  EncoderLayer_forward l seq seq_mask video video_mask "ko2en".
Proof.
  rewrite !EncoderLayer_forward_steps.
  destruct (EncoderLayer_step1 l seq seq_mask) as [[seq1 sa]|]; [|reflexivity].
  cbn [bind].
  destruct (EncoderLayer_vid_seq l seq1 video video_mask) as [[vid_seq va]|];
    [|reflexivity].
  cbn [bind].
  destruct (EncoderLayer_seq_vid l seq1 seq_mask video) as [[seq_vid qa]|];
    [|reflexivity].
  cbn [bind].
  assert (E : EncoderLayer_after_fusion l vid_seq seq_vid type =
              EncoderLayer_after_fusion l vid_seq seq_vid "ko2en").
  { unfold EncoderLayer_after_fusion.
    destruct (py_index (sublayer l) 3) as [s3|]; [|reflexivity]. cbn [bind].
    destruct (SublayerConnection_forward s3 seq_vid _) as [[sv u]|]; [|reflexivity].
    cbn [bind]. rewrite EncoderLayer_act_pred_flag. reflexivity. }
  rewrite E. reflexivity.
Qed.

Lemma Encoder_loop_flag (layers : list EncoderLayer) (x : T) (a : option T)
    (mask video video_mask : T) :
  Encoder_loop layers x a mask video video_mask type =
  Encoder_loop layers x a mask video video_mask "ko2en".
Proof.
  revert x a. induction layers as [|layer rest IH]; intros x a; cbn [Encoder_loop].
  - reflexivity.
  - rewrite EncoderLayer_forward_flag.
    destruct (EncoderLayer_forward layer x mask video video_mask "ko2en")
      as [[[x' a'] layer']|]; [|reflexivity].
    cbn [bind]. rewrite IH. reflexivity.
Qed.

(** X14: the direction is tested against ['en2ko'] only: any other flag,
    a misspelt one included, encodes with the Korean embedding and the
    ['ko'] classifier and decodes with the English embedding, exactly as
    ['ko2en'] does. *)
Theorem other_flags_mean_ko2en (m : EncoderDecoder)
    (query query_mask video video_mask query_memory tgt tgt_mask : T) :
  encode m query query_mask video video_mask type =
  encode m query query_mask video video_mask "ko2en"
  /\
  decode m query_memory query_mask tgt tgt_mask type =
  decode m query_memory query_mask tgt tgt_mask "ko2en".
Proof.
  split.
  - unfold encode, Encoder_forward. rewrite not_en2ko. cbn [String.eqb Ascii.eqb Bool.eqb].
    destruct (Embed_forward (ko_embed m) query) as [q|]; [|reflexivity]. cbn [bind].
    destruct (vid_encode m video) as [v|]; [|reflexivity]. cbn [bind].
    rewrite Encoder_loop_flag. reflexivity.
  - unfold decode. rewrite not_en2ko. reflexivity.
Qed.

End Direction.

Lemma other_flags_mean_ko2en_witness :
  exists m,
    Scenario.model false = Ok m /\
    encode m Scenario.ko Scenario.kosrc_mask Scenario.video Scenario.video_mask
      "ko2eng"%string =
    encode m Scenario.ko Scenario.kosrc_mask Scenario.video Scenario.video_mask
      "ko2en"%string /\
    is_ok (encode m Scenario.ko Scenario.kosrc_mask Scenario.video
             Scenario.video_mask "ko2eng"%string) = true.
Proof.
  eexists. split; [vm_compute; reflexivity|].
  split.
  - exact (proj1 (other_flags_mean_ko2en "ko2eng"%string eq_refl _
                    Scenario.ko Scenario.kosrc_mask Scenario.video
                    Scenario.video_mask Scenario.ko Scenario.ko Scenario.ko)).
  - vm_compute. reflexivity.
Defined.

(** ** The embeddings of a built model *)

Module EmbedFacts.

Import Shape InitFacts PositionFacts.

Section Built.

Context {host : Host}.

Variables en_vocab ko_vocab N d_model d_ff h_ : Z.
Variable p : Q.
Variable share : bool.
Variable m : EncoderDecoder (T := shape).
Hypothesis built :
  make_model (T := shape) en_vocab ko_vocab N d_model d_ff h_ p share = Ok m.
Hypothesis p_valid : (Qle_bool 0 p && Qle_bool p 1)%bool = true.

(** The front of the model as [make_model] leaves it. *)
Lemma make_model_front :
  exists pos,
    PositionalEncoding_init (T := shape) d_model p 5000 = Ok pos /\
    emb_position (en_embed m) = pos /\ emb_position (ko_embed m) = pos /\
    vid_position (vid_encoder m) = pos /\
    pdata (lut (emb (en_embed m))) = [en_vocab; d_model] /\
    pdata (lut (emb (ko_embed m))) = [ko_vocab; d_model] /\
    emb_d_model (emb (en_embed m)) = d_model /\
    emb_d_model (emb (ko_embed m)) = d_model /\
    pdata (lin_weight (vid_linear (vid_encoder m))) = [d_model; 1024] /\
    option_map pdata (lin_bias (vid_linear (vid_encoder m))) = Some [d_model].
Proof.
  pose proof built as H. unfold make_model in H.
  apply bind_inv in H. destruct H as [m0 [H0 H]]. injection H as Hm.
  unfold make_model_build in H0.
  apply bind_inv in H0. destruct H0 as [attn_ [_ H0]].
  apply bind_inv in H0. destruct H0 as [ff [_ H0]].
  apply bind_inv in H0. destruct H0 as [position [Epos H0]].
  apply bind_inv in H0. destruct H0 as [en_gen [_ H0]].
  apply bind_inv in H0. destruct H0 as [ko_gen [_ H0]].
  apply bind_inv in H0. destruct H0 as [en_emb [Eee H0]].
  apply bind_inv in H0. destruct H0 as [ko_emb [Eke H0]].
  apply bind_inv in H0. destruct H0 as [cls [_ H0]].
  apply bind_inv in H0. destruct H0 as [layer [_ H0]].
  apply bind_inv in H0. destruct H0 as [enc [_ H0]].
  apply bind_inv in H0. destruct H0 as [vl [Evl H0]].
  apply bind_inv in H0. destruct H0 as [dlayer [_ H0]].
  apply bind_inv in H0. destruct H0 as [dec [_ H0]].
  injection H0 as <-. subst m.
  unfold Embeddings_init in Eee, Eke.
  apply bind_inv in Eee. destruct Eee as [ew [Eew Eee]]. injection Eee as <-.
  apply bind_inv in Eke. destruct Eke as [kw [Ekw Eke]]. injection Eke as <-.
  apply Param_new_shape in Eew, Ekw. destruct Eew as [Eew _], Ekw as [Ekw _].
  unfold Linear_init in Evl.
  apply bind_inv in Evl. destruct Evl as [w [Ew Evl]].
  apply bind_inv in Evl. destruct Evl as [b [Eb Evl]]. injection Evl as <-.
  apply Param_new_shape in Ew, Eb. destruct Ew as [Ew _], Eb as [Eb _].
  exists position. split; [exact Epos|].
  assert (X : forall q : Param (T := shape), pdata (xavier_step q) = pdata q)
    by (intros q; unfold xavier_step; destruct (1 <? Param_dim q)%nat; reflexivity).
  cbn. rewrite !X, Eew, Ekw, Ew, Eb. repeat split.
Qed.

(** X15: the video encoder of a built model takes frames of 1024 features
    and nothing else: [t] frames, [t] within the table, come back with the
    model width; any other feature width raises. *)
Theorem vid_encode_width (b t w : Z) :
  0 <= t <= 5000 ->
  vid_encode m [b; t; 1024] = Ok [b; t; d_model] /\
  (w <> 1024 -> vid_encode m [b; t; w] = Raise RuntimeError).
Proof.
  intros Ht.
  destruct make_model_front as (pos & Epos & _ & _ & Evp & _ & _ & _ & _ & Ew & Eb).
  unfold vid_encode, VidEncoder_forward, Linear_forward. rewrite Ew, Eb, Evp.
  split.
  - change (linear [b; t; 1024] [d_model; 1024] (Some [d_model]))
      with (linear_shape [b; t; 1024] [d_model; 1024] (Some [d_model])).
    rewrite ShapeFacts.linear_rows. cbn [bind].
    change (relu [b; t; d_model]) with (Ok (A := shape) [b; t; d_model]).
    cbn [bind].
    exact (proj2 (PositionalEncoding_forward_batched pos 5000 d_model
                    (pos_shape d_model 5000 p pos Epos)
                    (pos_dropout d_model 5000 p pos Epos p_valid) b t Ht)).
  - intros Hw.
    change (linear [b; t; w] [d_model; 1024] (Some [d_model]))
      with (linear_shape [b; t; w] [d_model; 1024] (Some [d_model])).
    unfold linear_shape. cbn [rev app].
    destruct (Z.eqb_spec w 1024) as [|_]; [contradiction|]. reflexivity.
Qed.

Lemma embedding_within (x : shape) (vocab d : Z) :
  0 < vocab -> ids_within x vocab = true ->
  embedding_shape x [vocab; d] = Ok (x ++ [d]).
Proof.
  intros Hv Hi. unfold embedding_shape. cbn [embedding_dims bind nth].
  rewrite Hi. destruct (Z.ltb_spec 0 vocab) as [_|]; [|lia].
  destruct (numel x =? 0); reflexivity.
Qed.



End Built.

Lemma vid_encode_width_witness :
  exists m,
    Scenario.model false = Ok m /\
    vid_encode m [2; 3; 1024] = Ok [2; 3; 512] /\
    vid_encode m [2; 3; 512] = Raise RuntimeError.
Proof.
  eexists.
  match goal with
  | |- ?A /\ _ => assert (H : A) by (vm_compute; reflexivity); split; [exact H|]
  end.
  split.
  - exact (proj1 (vid_encode_width _ _ _ _ _ _ _ _ _ H eq_refl 2 3 512 ltac:(lia))).
  - exact (proj2 (vid_encode_width _ _ _ _ _ _ _ _ _ H eq_refl 2 3 512 ltac:(lia))
             ltac:(lia)).
Defined.


End EmbedFacts.

(** ** The pooling and pass-through connections *)

Module ConnectionFacts.

Import Shape Numeric NumericFacts AttentionSpec LastAxis.

Local Open Scope R_scope.

Lemma bin_dat (f : R -> R -> R) (a b r : tensor) :
  bin f a b = Ok r ->
  forall idx, dat r idx = f (dat a (bidx (sh a) idx)) (dat b (bidx (sh b) idx)).
Proof.
  unfold bin. intros H idx.
  apply bind_inv in H. destruct H as [s [_ H]]. injection H as <-. reflexivity.
Qed.

(** Operands of the same shapes give a result of the same shape. *)

Section Pooling.

Variable draw : init -> shape -> index -> R.

Let RTn : Torch tensor := runtime draw.

(** X17: when the input and what the sublayer returns on its norm are
    three-dimensional, what [expand_forward] adds to its input is the same
    at every position of a sequence: the result is the input plus a term
    that depends on the sentence and the feature only. *)
Theorem expand_forward_adds_one_vector {S : Type} (sc : SublayerConnection)
    (x r : tensor) (s : S) (f : tensor -> res (tensor * S)) :
  SublayerConnection_expand_forward (RT := RTn) sc x f = Ok (r, s) ->
  List.length (sh x) = 3%nat ->
  (forall n y s',
     LayerNorm_forward (RT := RTn) (norm sc) x = Ok n ->
     f n = Ok (y, s') -> List.length (sh y) = 3%nat) ->
  exists pooled : Z -> Z -> R,
    forall b t j,
      dat r [b; t; j]%Z = dat x (bidx (sh x) [b; t; j]%Z) + pooled b j.
Proof.
  unfold SublayerConnection_expand_forward. intros H Hx Hf.
  apply bind_inv in H. destruct H as [n [Hn H]].
  apply bind_inv in H. destruct H as [[y s'] [Hy H]].
  apply bind_inv in H. destruct H as [out [Hout H]].
  apply bind_inv in H. destruct H as [m [Hm H]].
  apply bind_inv in H. destruct H as [u [Hu H]].
  apply bind_inv in H. destruct H as [e [He H]].
  apply bind_inv in H. destruct H as [r' [Hr H]].
  injection H as <- <-.
  specialize (Hf _ _ _ Hn Hy).
  cbn in Hout, Hm, Hu, He, Hr.
  unfold dropout_num in Hout.
  apply bind_inv in Hout. destruct Hout as [so [Hso Hout]]. injection Hout as <-.
  unfold dropout_shape in Hso.
  destruct (Qle_bool 0 (drop_p (sc_dropout sc)) && Qle_bool (drop_p (sc_dropout sc)) 1)%bool;
    [|discriminate Hso].
  injection Hso as <-.
  destruct (sh y) as [|B' [|T' [|D' [|? ?]]]] eqn:Ey; try discriminate Hf.
  destruct (sh x) as [|B [|Tn [|D [|? ?]]]] eqn:Ex; try discriminate Hx.
  unfold mean_num in Hm. cbn [sh] in Hm.
  change (wrap_dim (ndim [B'; T'; D']) 1) with (Ok 1%Z) in Hm.
  change (reduce [B'; T'; D'] 1 false) with (Ok [B'; D']) in Hm.
  cbn [bind] in Hm. injection Hm as <-.
  unfold unsqueeze_num in Hu. cbn [sh] in Hu.
  change (wrap_dim (ndim [B'; D'] + 1) 1) with (Ok 1%Z) in Hu.
  change (unsqueeze_shape [B'; D'] 1) with (Ok [B'; 1; D']%Z) in Hu.
  cbn [bind] in Hu. injection Hu as <-.
  unfold expand_as_num in He. cbn [sh] in He.
  apply bind_inv in He. destruct He as [se [Hse He]]. injection He as <-.
  assert (Ese : se = [B; Tn; D]).
  { unfold expand_as_shape in Hse. rewrite Ex in Hse.
    destruct (List.length [B; Tn; D] <? List.length [B'; 1%Z; D'])%nat;
      [discriminate Hse|].
    destruct (broadcast [B'; 1%Z; D'] [B; Tn; D]) as [rr|]; [|discriminate Hse].
    cbn [bind] in Hse.
    destruct (shape_eqb rr [B; Tn; D]); [|discriminate Hse].
    injection Hse as <-. reflexivity. }
  subst se.
  exists (fun b j =>
    sum_over (dim_len [B'; T'; D'] 1)
      (fun k => dat y [if B' =? 1 then 0 else if B =? 1 then 0 else b; k;
                       if D' =? 1 then 0 else if D =? 1 then 0 else j]%Z)
    / IZR (dim_len [B'; T'; D'] 1)).
  intros b t j.
  rewrite (bin_dat _ _ _ _ Hr). rewrite Ex. f_equal.
Qed.

End Pooling.

Lemma expand_forward_adds_one_vector_witness :
  exists r pooled,
    SublayerConnection_expand_forward (RT := runtime draw0) small_connection
      small_text constant_sublayer = Ok (r, tt) /\
    forall b t j,
      dat r [b; t; j]%Z = dat small_text (bidx (sh small_text) [b; t; j]%Z) + pooled b j.
Proof.
  eexists.
  assert (H : SublayerConnection_expand_forward (RT := runtime draw0) small_connection
                small_text constant_sublayer = Ok (_, tt)) by reflexivity.
  destruct (expand_forward_adds_one_vector draw0 small_connection small_text _ tt
              constant_sublayer H eq_refl) as [pooled Hp].
  { intros n y s' _ Hy. unfold constant_sublayer in Hy. injection Hy as <- _.
    reflexivity. }
  exists pooled. split; [exact H|exact Hp].
Defined.

End ConnectionFacts.


(** ** Shapes through the layers *)

Module ForwardShapes.

Import Shape ShapeFacts WellShaped PositionFacts InitFacts.

Section OnHost.

Context {host : Host}.

Lemma Linear_forward_ok (i o b t : Z) (l : Linear (T := shape)) :
  linear_ok i o l -> Linear_forward l [b; t; i] = Ok [b; t; o].
Proof.
  intros [Hw Hb]. unfold Linear_forward. rewrite Hw, Hb.
  exact (linear_rows b t i o).
Qed.

Lemma Dropout_forward_ok (dp : Dropout) (x : shape) :
  dropout_valid dp -> Dropout_forward dp x = Ok x.
Proof.
  intros Hp. unfold Dropout_forward. cbn. unfold dropout_shape.
  unfold dropout_valid in Hp. rewrite Hp. reflexivity.
Qed.

Lemma broadcast_rows_self (b t D : Z) :
  broadcast [b; t; D] [b; t; D] = Ok [b; t; D].
Proof. unfold broadcast. cbn. rewrite !Z.eqb_refl. reflexivity. Qed.

Lemma broadcast_rows_col (b t D : Z) :
  broadcast [b; t; D] [b; t; 1] = Ok [b; t; D].
Proof.
  unfold broadcast. cbn. rewrite !Z.eqb_refl. cbn.
  destruct (Z.eqb_spec D 1) as [->|_]; reflexivity.
Qed.

Lemma broadcast_vec_rows (b t D : Z) :
  broadcast [D] [b; t; D] = Ok [b; t; D].
Proof. unfold broadcast. cbn. rewrite !Z.eqb_refl. reflexivity. Qed.

Lemma broadcast_rows_vec (b t D : Z) :
  broadcast [b; t; D] [D] = Ok [b; t; D].
Proof. unfold broadcast. cbn. rewrite !Z.eqb_refl. reflexivity. Qed.

Lemma LayerNorm_forward_ok (D b t : Z) (n : LayerNorm (T := shape)) :
  norm_ok D n -> LayerNorm_forward n [b; t; D] = Ok [b; t; D].
Proof.
  intros [Ha Hb]. unfold LayerNorm_forward. rewrite Ha, Hb.
  change (mean [b; t; D] (-1) true) with (Ok (A := shape) [b; t; 1]).
  change (std [b; t; D] (-1) true) with (Ok (A := shape) [b; t; 1]).
  cbn [bind].
  change (t_sub [b; t; D] [b; t; 1]) with (broadcast [b; t; D] [b; t; 1]).
  rewrite broadcast_rows_col. cbn [bind].
  change (t_mul [D] [b; t; D]) with (broadcast [D] [b; t; D]).
  rewrite broadcast_vec_rows. cbn [bind].
  change (add_scalar [b; t; 1] (Lit (eps n))) with (Ok (A := shape) [b; t; 1]).
  cbn [bind].
  change (t_div [b; t; D] [b; t; 1]) with (broadcast [b; t; D] [b; t; 1]).
  rewrite broadcast_rows_col. cbn [bind].
  change (t_add [b; t; D] [D]) with (broadcast [b; t; D] [D]).
  apply broadcast_rows_vec.
Qed.

(** A residual connection around a sublayer that keeps the shape keeps the
    shape, and hands on what the sublayer updated. *)
Lemma SublayerConnection_forward_ok {S : Type} (D b t : Z)
    (sc : SublayerConnection (T := shape)) (f : shape -> res (shape * S)) (s : S) :
  connection_ok D sc ->
  f [b; t; D] = Ok ([b; t; D], s) ->
  SublayerConnection_forward sc [b; t; D] f = Ok ([b; t; D], s).
Proof.
  intros [Hn Hd] Hf. unfold SublayerConnection_forward.
  rewrite (LayerNorm_forward_ok D b t _ Hn). cbn [bind].
  rewrite Hf. cbn [bind].
  rewrite (Dropout_forward_ok _ _ Hd). cbn [bind].
  change (t_add [b; t; D] [b; t; D]) with (broadcast [b; t; D] [b; t; D]).
  rewrite broadcast_rows_self. reflexivity.
Qed.

Lemma PositionwiseFeedForward_forward_ok (D d_ff b t : Z)
    (f : PositionwiseFeedForward (T := shape)) :
  ff_ok D d_ff f -> PositionwiseFeedForward_forward f [b; t; D] = Ok [b; t; D].
Proof.
  intros (H1 & H2 & Hd). unfold PositionwiseFeedForward_forward.
  rewrite (Linear_forward_ok _ _ b t _ H1). cbn [bind].
  change (relu [b; t; d_ff]) with (Ok (A := shape) [b; t; d_ff]). cbn [bind].
  rewrite (Dropout_forward_ok _ _ Hd). cbn [bind].
  exact (Linear_forward_ok _ _ b t _ H2).
Qed.

Section Sizes.

Variables h_ dk d_ff b : Z.
Hypothesis h_pos : 0 < h_.
Hypothesis dk_pos : 0 < dk.
Hypothesis b_pos : 0 < b.

Lemma project_heads_ok (m : MultiHeadedAttention (T := shape)) (l : Linear) (t : Z) :
  h m = h_ -> d_k m = dk -> 0 <= t ->
  linear_ok (h_ * dk) (h_ * dk) l ->
  project_heads m b (l, [b; t; h_ * dk]) = Ok [b; h_; t; dk].
Proof.
  intros Hh Hk Ht Hl. unfold project_heads. cbn [fst snd].
  rewrite (Linear_forward_ok _ _ b t _ Hl), Hh, Hk. cbn [bind].
  change (view [b; t; h_ * dk] [b; -1; h_; dk])
    with (view_shape [b; t; h_ * dk] [b; -1; h_; dk]).
  rewrite view_split_heads by assumption. reflexivity.
Qed.

Lemma attn_ok_set_attn (m : MultiHeadedAttention (T := shape)) (a : shape) :
  attn_ok h_ dk m -> attn_ok h_ dk (set_attn m a).
Proof. intros H. exact H. Qed.

(** Attention between [tq] queries and [tk] keys of the model width. *)
Lemma MultiHeadedAttention_forward_ok (m : MultiHeadedAttention (T := shape))
    (tq tk : Z) (mask : option shape) :
  attn_ok h_ dk m -> 0 <= tq -> 0 <= tk ->
  mask = None \/ mask = Some [b; 1; tk] \/ mask = Some [b; tq; tk] ->
  MultiHeadedAttention_forward m [b; tq; h_ * dk] [b; tk; h_ * dk] [b; tk; h_ * dk] mask
  = Ok ([b; tq; h_ * dk], set_attn m [b; h_; tq; tk]).
Proof.
  intros (Hh & Hk & Hd & l1 & l2 & l3 & l4 & Hl & H1 & H2 & H3 & H4) Htq Htk Hmask.
  unfold MultiHeadedAttention_forward.
  pose proof (view_merge_heads b tq h_ dk b_pos Htq h_pos dk_pos) as Hv.
  assert (Hp : (Qle_bool 0 (drop_p (mha_dropout m)) &&
                Qle_bool (drop_p (mha_dropout m)) 1)%bool = true) by exact Hd.
  assert (Hdp : mha_dropout m = mkDropout (drop_p (mha_dropout m)))
    by (destruct (mha_dropout m); reflexivity).
  pose proof (attention_heads_shape h_ dk b tq tk (drop_p (mha_dropout m)) Hp None
                (or_introl eq_refl)) as A0.
  pose proof (attention_heads_shape h_ dk b tq tk (drop_p (mha_dropout m)) Hp
                (Some [b; 1; 1; tk]) (or_intror (or_introl eq_refl))) as A1.
  pose proof (attention_heads_shape h_ dk b tq tk (drop_p (mha_dropout m)) Hp
                (Some [b; 1; tq; tk]) (or_intror (or_intror eq_refl))) as A2.
  rewrite <- Hdp in A0, A1, A2.
  pose proof (project_heads_ok m l1 tq Hh Hk Htq H1) as P1.
  pose proof (project_heads_ok m l2 tk Hh Hk Htk H2) as P2.
  pose proof (project_heads_ok m l3 tk Hh Hk Htk H3) as P3.
  pose proof (Linear_forward_ok _ _ b tq _ H4) as L4.
  rewrite Hl, Hh, Hk.
  unfold shape in *.
  destruct Hmask as [-> | [-> | ->]];
    [ | change (unsqueeze [b; 1; tk] 1) with (Ok (A := list Z) [b; 1; 1; tk])
      | change (unsqueeze [b; tq; tk] 1) with (Ok (A := list Z) [b; 1; tq; tk]) ];
    cbn [bind];
    change (size [b; tq; h_ * dk]) with [b; tq; h_ * dk];
    cbn [combine mapM];
    rewrite P1; cbn [bind]; rewrite P2; cbn [bind]; rewrite P3;
    cbn [bind];
    first [rewrite A0 | rewrite A1 | rewrite A2];
    cbn [bind];
    change (transpose [b; h_; tq; dk] 1 2) with (Ok (A := list Z) [b; tq; h_; dk]);
    cbn [bind];
    change (contiguous [b; tq; h_; dk]) with (Ok (A := list Z) [b; tq; h_; dk]);
    cbn [bind];
    change (view [b; tq; h_; dk] [b; -1; h_ * dk])
      with (view_shape [b; tq; h_; dk] [b; -1; h_ * dk]);
    rewrite Hv; cbn [bind];
    change (py_index [l1; l2; l3; l4] (-1)) with (Ok l4);
    cbn [bind];
    rewrite L4; reflexivity.
Qed.

Lemma act_pred_ok (c : Classifier (T := shape)) (t : Z) (type : string) :
  classifier_ok (h_ * dk) c ->
  EncoderLayer_act_pred c [b; t; h_ * dk] type = Ok [b; t; 401].
Proof.
  unfold classifier_ok, EncoderLayer_act_pred, Linear_forward. intros H.
  destruct c as [|l|d]; [contradiction| |].
  - destruct H as [Hw Hb]. rewrite Hw, Hb. cbn [option_map].
    change (linear [b; t; h_ * dk] [401; h_ * dk] None)
      with (linear_shape [b; t; h_ * dk] [401; h_ * dk] None).
    unfold linear_shape. cbn [rev app]. rewrite Z.eqb_refl. reflexivity.
  - destruct H as (e & k & -> & Hew & Heb & Hkw & Hkb).
    destruct (String.eqb type "en2ko"); cbn [dict_get String.eqb Ascii.eqb Bool.eqb bind];
      rewrite ?Hew, ?Heb, ?Hkw, ?Hkb; cbn [option_map];
      change (linear [b; t; h_ * dk] [401; h_ * dk] None)
        with (linear_shape [b; t; h_ * dk] [401; h_ * dk] None);
      unfold linear_shape; cbn [rev app]; rewrite Z.eqb_refl; reflexivity.
Qed.

(** One encoder layer on [ts] tokens and [tv] frames. *)
Lemma EncoderLayer_forward_ok (l : EncoderLayer (T := shape)) (ts tv : Z)
    (type : string) :
  encoder_layer_ok h_ dk d_ff l -> 0 <= ts -> 0 <= tv ->
  exists l',
    EncoderLayer_forward l [b; ts; h_ * dk] [b; 1; ts] [b; tv; h_ * dk] [b; 1; tv] type
    = Ok (([b; ts; h_ * dk], [b; tv; 401]), l') /\
    encoder_layer_ok h_ dk d_ff l'.
Proof.
  intros (Hsa & Hva & Hf1 & (s0 & s1 & s2 & s3 & s4 & Hs & C0 & C1 & C2 & C3 & C4)
          & (qa & Hqa & Hqa') & (f2 & Hf2 & Hf2') & Hc) Hts Htv.
  eexists. split.
  - unfold EncoderLayer_forward. rewrite Hs.
    change (py_index [s0; s1; s2; s3; s4] 0) with (Ok s0).
    change (py_index [s0; s1; s2; s3; s4] 1) with (Ok s1).
    change (py_index [s0; s1; s2; s3; s4] 2) with (Ok s2).
    change (py_index [s0; s1; s2; s3; s4] 3) with (Ok s3).
    change (py_index [s0; s1; s2; s3; s4] 4) with (Ok s4).
    cbn [bind].
    erewrite (SublayerConnection_forward_ok (h_ * dk) b ts s0 _
               (set_attn (self_attn l) [b; h_; ts; ts]) C0)
      by (apply MultiHeadedAttention_forward_ok; auto).
    cbn [bind].
    erewrite (SublayerConnection_forward_ok (h_ * dk) b ts s1 _
               (set_attn (vid_attn l) [b; h_; ts; tv]) C1)
      by (apply MultiHeadedAttention_forward_ok; auto).
    cbn [bind].
    erewrite (SublayerConnection_forward_ok (h_ * dk) b tv s2 _
               (set_attn qa [b; h_; tv; ts]) C2)
      by (rewrite Hqa; cbn [call_option];
          apply MultiHeadedAttention_forward_ok; auto).
    cbn [bind].
    erewrite (SublayerConnection_forward_ok (h_ * dk) b tv s3 _ tt C3)
      by (unfold stateless; rewrite Hf2; cbn [call_option];
          rewrite (PositionwiseFeedForward_forward_ok _ _ b tv _ Hf2');
          reflexivity).
    cbn [bind].
    rewrite (act_pred_ok _ tv type Hc). cbn [bind].
    erewrite (SublayerConnection_forward_ok (h_ * dk) b ts s4 _ tt C4)
      by (unfold stateless;
          rewrite (PositionwiseFeedForward_forward_ok _ _ b ts _ Hf1);
          reflexivity).
    cbn [bind]. reflexivity.
  - unfold encoder_layer_ok.
    cbn [EncoderLayer_set_attns self_attn vid_attn ff1 sublayer seq_attn ff2 classifier].
    split; [exact Hsa|]. split; [exact Hva|]. split; [exact Hf1|].
    split; [exists s0, s1, s2, s3, s4; tauto|].
    split; [exists (set_attn qa [b; h_; tv; ts]); split; [reflexivity|exact Hqa']|].
    split; [exists f2; split; assumption|exact Hc].
Qed.

End Sizes.

Section Stacks.

Variables en_vocab ko_vocab h_ dk d_ff b : Z.
Hypothesis h_pos : 0 < h_.
Hypothesis dk_pos : 0 < dk.
Hypothesis b_pos : 0 < b.

Lemma Encoder_loop_ok (layers : list (EncoderLayer (T := shape))) (ts tv : Z)
    (type : string) (act : option shape) :
  Forall (encoder_layer_ok h_ dk d_ff) layers -> 0 <= ts -> 0 <= tv ->
  exists layers',
    Encoder_loop layers [b; ts; h_ * dk] act [b; 1; ts] [b; tv; h_ * dk] [b; 1; tv] type
    = Ok (([b; ts; h_ * dk],
           match layers with [] => act | _ :: _ => Some [b; tv; 401] end), layers') /\
    Forall (encoder_layer_ok h_ dk d_ff) layers' /\
    (layers <> [] -> layers' <> []).
Proof.
  intros Hl Hts Htv. revert act.
  induction Hl as [|l rest Hok _ IH]; intros act.
  - exists []. repeat split; [constructor|tauto].
  - destruct (EncoderLayer_forward_ok h_ dk d_ff b h_pos dk_pos b_pos l ts tv type
                Hok Hts Htv) as (l' & E & Hok').
    destruct (IH (Some [b; tv; 401])) as (rest' & Er & Hr & _).
    exists (l' :: rest'). cbn [Encoder_loop]. rewrite E. cbn [bind].
    unfold shape in *. rewrite Er. cbn [bind].
    split; [destruct rest; reflexivity|].
    split; [constructor; assumption|discriminate].
Qed.

Lemma Encoder_forward_ok (e : Encoder (T := shape)) (ts tv : Z) (type : string) :
  encoder_ok h_ dk d_ff e -> 0 <= ts -> 0 <= tv ->
  exists e',
    Encoder_forward e [b; ts; h_ * dk] [b; 1; ts] [b; tv; h_ * dk] [b; 1; tv] type
    = Ok (([b; ts; h_ * dk], [b; tv; 401]), e') /\
    encoder_ok h_ dk d_ff e'.
Proof.
  intros (Hne & Hl & Hn) Hts Htv.
  destruct (Encoder_loop_ok (enc_layers e) ts tv type None Hl Hts Htv)
    as (layers' & E & Hl' & Hne').
  exists (mkEncoder layers' (enc_norm e)). unfold Encoder_forward. rewrite E.
  cbn [bind]. rewrite (LayerNorm_forward_ok _ b ts _ Hn). cbn [bind].
  destruct (enc_layers e) as [|l0 rest]; [contradiction Hne; reflexivity|].
  split; [reflexivity|].
  split; [apply Hne'; discriminate|]. split; assumption.
Qed.

(** One decoder layer on [tg] target positions over [ts] encoded ones. *)
Lemma DecoderLayer_forward_ok (l : DecoderLayer (T := shape)) (tg ts : Z) :
  decoder_layer_ok h_ dk d_ff l -> 0 <= tg -> 0 <= ts ->
  exists l',
    DecoderLayer_forward l [b; tg; h_ * dk] [b; ts; h_ * dk] [b; 1; ts] [b; tg; tg]
    = Ok ([b; tg; h_ * dk], l') /\
    decoder_layer_ok h_ dk d_ff l'.
Proof.
  intros (Hsa & Hqa & Hf & s0 & s1 & s2 & Hs & C0 & C1 & C2) Htt Hts.
  eexists. split.
  - unfold DecoderLayer_forward. cbv zeta. rewrite Hs.
    change (py_index [s0; s1; s2] 0) with (Ok s0).
    change (py_index [s0; s1; s2] (0 + 1)) with (Ok s1).
    change (py_index [s0; s1; s2] (0 + 1 + 1)) with (Ok s2).
    cbn [bind].
    erewrite (SublayerConnection_forward_ok (h_ * dk) b tg s0 _
               (set_attn (dl_self_attn l) [b; h_; tg; tg]) C0)
      by (apply MultiHeadedAttention_forward_ok; auto).
    cbn [bind].
    erewrite (SublayerConnection_forward_ok (h_ * dk) b tg s1 _
               (set_attn (src_attn l) [b; h_; tg; ts]) C1)
      by (apply MultiHeadedAttention_forward_ok; auto).
    cbn [bind].
    erewrite (SublayerConnection_forward_ok (h_ * dk) b tg s2 _ tt C2)
      by (unfold stateless;
          rewrite (PositionwiseFeedForward_forward_ok _ _ b tg _ Hf);
          reflexivity).
    cbn [bind]. reflexivity.
  - unfold decoder_layer_ok. cbn [dl_self_attn src_attn feed_forward dl_sublayer].
    split; [exact Hsa|]. split; [exact Hqa|]. split; [exact Hf|].
    exists s0, s1, s2. tauto.
Qed.

Lemma Decoder_loop_ok (layers : list (DecoderLayer (T := shape))) (tg ts : Z) :
  Forall (decoder_layer_ok h_ dk d_ff) layers -> 0 <= tg -> 0 <= ts ->
  exists layers',
    Decoder_loop layers [b; tg; h_ * dk] [b; ts; h_ * dk] [b; 1; ts] [b; tg; tg]
    = Ok ([b; tg; h_ * dk], layers') /\
    Forall (decoder_layer_ok h_ dk d_ff) layers'.
Proof.
  intros Hl Htt Hts.
  induction Hl as [|l rest Hok _ IH].
  - exists []. split; [reflexivity|constructor].
  - destruct (DecoderLayer_forward_ok l tg ts Hok Htt Hts) as (l' & E & Hok').
    destruct IH as (rest' & Er & Hr).
    exists (l' :: rest'). cbn [Decoder_loop]. rewrite E. cbn [bind].
    rewrite Er. cbn [bind]. split; [reflexivity|constructor; assumption].
Qed.

Lemma Decoder_forward_ok (d : Decoder (T := shape)) (tg ts : Z) :
  decoder_ok h_ dk d_ff d -> 0 <= tg -> 0 <= ts ->
  exists d',
    Decoder_forward d [b; tg; h_ * dk] [b; ts; h_ * dk] [b; 1; ts] [b; tg; tg]
    = Ok ([b; tg; h_ * dk], d') /\
    decoder_ok h_ dk d_ff d'.
Proof.
  intros (Hl & Hn) Htt Hts.
  destruct (Decoder_loop_ok (dec_layers d) tg ts Hl Htt Hts) as (layers' & E & Hl').
  exists (mkDecoder layers' (dec_norm d)). unfold Decoder_forward. rewrite E.
  cbn [bind]. rewrite (LayerNorm_forward_ok _ b tg _ Hn). cbn [bind].
  split; [reflexivity|]. split; assumption.
Qed.

Lemma position_forward_ok (pos : PositionalEncoding (T := shape)) (t : Z) :
  position_ok (h_ * dk) pos -> 0 <= t <= 5000 ->
  PositionalEncoding_forward pos [b; t; h_ * dk] = Ok [b; t; h_ * dk].
Proof.
  intros [Hpe Hd] Ht.
  exact (proj2 (PositionalEncoding_forward_batched pos 5000 (h_ * dk) Hpe
                  (fun x => Dropout_forward_ok _ x Hd) b t Ht)).
Qed.

Lemma Embed_forward_ok (e : Embed (T := shape)) (vocab t : Z) :
  embed_ok vocab (h_ * dk) e -> 0 <= t <= 5000 ->
  0 < vocab -> ids_within [b; t] vocab = true ->
  Embed_forward e [b; t] = Ok [b; t; h_ * dk].
Proof.
  intros [Hw Hp] Ht Hv Hi. unfold Embed_forward, Embeddings_forward.
  rewrite Hw.
  change (embedding [b; t] [vocab; h_ * dk])
    with (embedding_shape [b; t] [vocab; h_ * dk]).
  rewrite (EmbedFacts.embedding_within _ _ _ Hv Hi). cbn [bind app].
  exact (position_forward_ok _ t Hp Ht).
Qed.

Lemma VidEncoder_forward_ok (v : VidEncoder (T := shape)) (t : Z) :
  vid_encoder_ok (h_ * dk) v -> 0 <= t <= 5000 ->
  VidEncoder_forward v [b; t; 1024] = Ok [b; t; h_ * dk].
Proof.
  intros [Hl Hp] Ht. unfold VidEncoder_forward.
  rewrite (Linear_forward_ok _ _ b t _ Hl). cbn [bind].
  change (relu [b; t; h_ * dk]) with (Ok (A := shape) [b; t; h_ * dk]).
  cbn [bind]. exact (position_forward_ok _ t Hp Ht).
Qed.

(** The vocabulary of the source of a direction, and of its target. *)
Lemma encode_ok (m : EncoderDecoder (T := shape)) (ts tv : Z) (type : string) :
  model_ok en_vocab ko_vocab h_ dk d_ff m -> 0 <= ts <= 5000 -> 0 <= tv <= 5000 ->
  0 < (if String.eqb type "en2ko" then en_vocab else ko_vocab) ->
  ids_within [b; ts] (if String.eqb type "en2ko" then en_vocab else ko_vocab) = true ->
  exists m',
    encode m [b; ts] [b; 1; ts] [b; tv; 1024] [b; 1; tv] type
    = Ok (([b; ts; h_ * dk], [b; tv; 401]), m') /\
    model_ok en_vocab ko_vocab h_ dk d_ff m'.
Proof.
  intros (He & Hk & Hv & Hen & Hde) Hts Htv Hvoc Hids.
  destruct (Encoder_forward_ok (encoder m) ts tv type Hen (proj1 Hts) (proj1 Htv))
    as (e' & E & He').
  exists (set_encoder m e'). split.
  - unfold encode, vid_encode.
    rewrite (VidEncoder_forward_ok _ tv Hv Htv).
    destruct (String.eqb type "en2ko").
    + rewrite (Embed_forward_ok _ _ ts He Hts Hvoc Hids). cbn [bind].
      rewrite E. reflexivity.
    + rewrite (Embed_forward_ok _ _ ts Hk Hts Hvoc Hids). cbn [bind].
      rewrite E. reflexivity.
  - unfold model_ok. cbn [set_encoder en_embed ko_embed vid_encoder encoder decoder].
    tauto.
Qed.

Lemma decode_ok (m : EncoderDecoder (T := shape)) (tg ts : Z) (type : string) :
  model_ok en_vocab ko_vocab h_ dk d_ff m -> 0 <= tg <= 5000 -> 0 <= ts ->
  0 < (if String.eqb type "en2ko" then ko_vocab else en_vocab) ->
  ids_within [b; tg] (if String.eqb type "en2ko" then ko_vocab else en_vocab) = true ->
  exists m',
    decode m [b; ts; h_ * dk] [b; 1; ts] [b; tg] [b; tg; tg] type
    = Ok ([b; tg; h_ * dk], m') /\
    model_ok en_vocab ko_vocab h_ dk d_ff m'.
Proof.
  intros (He & Hk & Hv & Hen & Hde) Htt Hts Hvoc Hids.
  destruct (Decoder_forward_ok (decoder m) tg ts Hde (proj1 Htt) Hts)
    as (d' & E & Hd').
  exists (set_decoder m d'). split.
  - unfold decode.
    destruct (String.eqb type "en2ko").
    + rewrite (Embed_forward_ok _ _ tg Hk Htt Hvoc Hids). cbn [bind].
      rewrite E. reflexivity.
    + rewrite (Embed_forward_ok _ _ tg He Htt Hvoc Hids). cbn [bind].
      rewrite E. reflexivity.
  - unfold model_ok. cbn [set_decoder en_embed ko_embed vid_encoder encoder decoder].
    tauto.
Qed.

(** The whole forward pass on a well-shaped model. *)
Lemma EncoderDecoder_forward_ok (m : EncoderDecoder (T := shape)) (te tk tv : Z) :
  model_ok en_vocab ko_vocab h_ dk d_ff m ->
  1 <= te <= 5000 -> 1 <= tk <= 5000 -> 0 <= tv <= 5000 ->
  0 < en_vocab -> 0 < ko_vocab ->
  ids_within [b; te] en_vocab = true ->
  ids_within [b; tk] ko_vocab = true ->
  ids_within [b; te - 1] en_vocab = true ->
  ids_within [b; tk - 1] ko_vocab = true ->
  exists m',
    EncoderDecoder_forward m
      [b; te] [b; 1; te] [b; te - 1; te - 1]
      [b; tk] [b; 1; tk] [b; tk - 1; tk - 1]
      [b; tv; 1024] [b; 1; tv]
    = Ok (([b; tk - 1; h_ * dk], [b; te - 1; h_ * dk], [b; tv; 401], [b; tv; 401]), m') /\
    model_ok en_vocab ko_vocab h_ dk d_ff m'.
Proof.
  intros Hm Hte Htk Htv Hev Hkv Ie Ik Ie1 Ik1.
  destruct (encode_ok m te tv "en2ko" Hm ltac:(lia) Htv Hev Ie) as (m1 & E1 & Hm1).
  destruct (decode_ok m1 (tk - 1) te "en2ko" Hm1 ltac:(lia) ltac:(lia) Hkv Ik1)
    as (m2 & E2 & Hm2).
  destruct (encode_ok m2 tk tv "ko2en" Hm2 ltac:(lia) Htv Hkv Ik) as (m3 & E3 & Hm3).
  destruct (decode_ok m3 (te - 1) tk "ko2en" Hm3 ltac:(lia) ltac:(lia) Hev Ie1)
    as (m4 & E4 & Hm4).
  exists m4. split; [|exact Hm4].
  unfold EncoderDecoder_forward. rewrite E1. cbn [bind].
  assert (Sk : slice1_to_shape [b; tk] (-1) = Ok [b; tk - 1]).
  { unfold slice1_to_shape, slice_len. cbn [Z.ltb Z.compare].
    do 3 f_equal. lia. }
  assert (Se : slice1_to_shape [b; te] (-1) = Ok [b; te - 1]).
  { unfold slice1_to_shape, slice_len. cbn [Z.ltb Z.compare].
    do 3 f_equal. lia. }
  change (slice1_to [b; tk] (-1)) with (slice1_to_shape [b; tk] (-1)).
  change (slice1_to [b; te] (-1)) with (slice1_to_shape [b; te] (-1)).
  rewrite Sk, Se. cbn [bind]. rewrite E2. cbn [bind]. rewrite E3. cbn [bind].
  rewrite E4. reflexivity.
Qed.

End Stacks.

(** *** What the constructors build *)

Lemma Linear_init_ok (i o : Z) (l : Linear (T := shape)) :
  Linear_init i o true = Ok l -> linear_ok i o l.
Proof.
  unfold Linear_init. intros H.
  apply bind_inv in H. destruct H as [w [Ew H]].
  apply bind_inv in H. destruct H as [c [Ec H]]. injection H as <-.
  apply Param_new_shape in Ew, Ec. destruct Ew as [Ew _], Ec as [Ec _].
  split; cbn; [exact Ew|rewrite Ec; reflexivity].
Qed.

Lemma Linear_init_no_bias (i o : Z) (l : Linear (T := shape)) :
  Linear_init i o false = Ok l -> pdata (lin_weight l) = [o; i] /\ lin_bias l = None.
Proof.
  unfold Linear_init. intros H.
  apply bind_inv in H. destruct H as [w [Ew H]]. injection H as <-.
  apply Param_new_shape in Ew. destruct Ew as [Ew _].
  split; [exact Ew|reflexivity].
Qed.

Lemma LayerNorm_init_ok (D : Z) (n : LayerNorm (T := shape)) :
  LayerNorm_init D = Ok n -> norm_ok D n.
Proof.
  unfold LayerNorm_init. intros H.
  apply bind_inv in H. destruct H as [a [Ea H]].
  apply bind_inv in H. destruct H as [c [Ec H]]. injection H as <-.
  apply Param_new_shape in Ea, Ec. destruct Ea as [Ea _], Ec as [Ec _].
  split; assumption.
Qed.

Lemma Dropout_init_ok (p : Q) (d : Dropout) :
  Dropout_init p = Ok d -> d = mkDropout p /\ dropout_valid d.
Proof.
  unfold Dropout_init, dropout_valid. intros H.
  destruct (Qle_bool 0 p && Qle_bool p 1)%bool eqn:Hp; [|discriminate H].
  injection H as <-. split; [reflexivity|exact Hp].
Qed.

Lemma SublayerConnection_init_ok (D : Z) (p : Q) (sc : SublayerConnection (T := shape)) :
  SublayerConnection_init D p = Ok sc -> connection_ok D sc.
Proof.
  unfold SublayerConnection_init. intros H.
  apply bind_inv in H. destruct H as [n [En H]].
  apply bind_inv in H. destruct H as [d [Ed H]]. injection H as <-.
  split; [exact (LayerNorm_init_ok _ _ En)|exact (proj2 (Dropout_init_ok _ _ Ed))].
Qed.

Lemma PositionwiseFeedForward_init_ok (D d_ff : Z) (p : Q)
    (f : PositionwiseFeedForward (T := shape)) :
  PositionwiseFeedForward_init D d_ff p (-1) = Ok f -> ff_ok D d_ff f.
Proof.
  unfold PositionwiseFeedForward_init. intros H.
  apply bind_inv in H. destruct H as [w1 [E1 H]].
  apply bind_inv in H. destruct H as [w2 [E2 H]].
  apply bind_inv in H. destruct H as [d [Ed H]]. injection H as <-.
  cbn in E2.
  split; [exact (Linear_init_ok _ _ _ E1)|].
  split; [exact (Linear_init_ok _ _ _ E2)|exact (proj2 (Dropout_init_ok _ _ Ed))].
Qed.

Lemma make_classifier_ok (D : Z) (share : bool) (c : Classifier (T := shape)) :
  make_classifier D share = Ok c -> classifier_ok D c.
Proof.
  unfold make_classifier. intros H. destruct share.
  - apply bind_inv in H. destruct H as [l [El H]]. injection H as <-.
    exact (Linear_init_no_bias _ _ _ El).
  - apply bind_inv in H. destruct H as [e0 [Ee H]].
    apply bind_inv in H. destruct H as [e [Ece H]].
    apply bind_inv in H. destruct H as [k0 [Ek H]].
    apply bind_inv in H. destruct H as [k [Eck H]]. injection H as <-.
    apply Linear_cuda_same in Ece, Eck. subst e k.
    apply Linear_init_no_bias in Ee, Ek.
    exists e0, k0. tauto.
Qed.

Lemma attn_module_of_ok (h_ dk : Z) (p : Q) :
  dropout_valid (mkDropout p) -> attn_ok h_ dk (attn_module_of h_ dk (h_ * dk) p).
Proof.
  intros Hp. unfold attn_ok, attn_module_of. cbn -[Z.mul].
  repeat split; try exact Hp.
  eexists _, _, _, _. split; [reflexivity|].
  unfold linear_ok. cbn -[Z.mul]. tauto.
Qed.

(** *** The initialisation loop keeps every shape *)

Lemma xavier_step_pdata (q : Param (T := shape)) : pdata (xavier_step q) = pdata q.
Proof. unfold xavier_step. destruct (1 <? Param_dim q)%nat; reflexivity. Qed.

Lemma linear_ok_update (i o : Z) (l : Linear (T := shape)) :
  linear_ok i o l -> linear_ok i o (Linear_update xavier_step l).
Proof.
  intros [Hw Hb]. unfold linear_ok, Linear_update. cbn.
  rewrite xavier_step_pdata. split; [exact Hw|].
  destruct (lin_bias l) as [c|]; [|discriminate Hb].
  cbn in *. rewrite xavier_step_pdata. exact Hb.
Qed.

Lemma norm_ok_update (D : Z) (n : LayerNorm (T := shape)) :
  norm_ok D n -> norm_ok D (LayerNorm_update xavier_step n).
Proof.
  intros [Ha Hb]. unfold norm_ok, LayerNorm_update. cbn.
  rewrite !xavier_step_pdata. split; assumption.
Qed.

Lemma connection_ok_update (D : Z) (sc : SublayerConnection (T := shape)) :
  connection_ok D sc -> connection_ok D (SublayerConnection_update xavier_step sc).
Proof.
  intros [Hn Hd]. split; [exact (norm_ok_update _ _ Hn)|exact Hd].
Qed.

Lemma attn_ok_update (h_ dk : Z) (m : MultiHeadedAttention (T := shape)) :
  attn_ok h_ dk m -> attn_ok h_ dk (MultiHeadedAttention_update xavier_step m).
Proof.
  intros (Hh & Hk & Hd & l1 & l2 & l3 & l4 & Hl & H1 & H2 & H3 & H4).
  unfold attn_ok, MultiHeadedAttention_update. cbn [h d_k mha_dropout linears].
  split; [exact Hh|]. split; [exact Hk|]. split; [exact Hd|].
  rewrite Hl. eexists _, _, _, _. split; [reflexivity|].
  split; [exact (linear_ok_update _ _ _ H1)|].
  split; [exact (linear_ok_update _ _ _ H2)|].
  split; [exact (linear_ok_update _ _ _ H3)|exact (linear_ok_update _ _ _ H4)].
Qed.

Lemma ff_ok_update (D d_ff : Z) (f : PositionwiseFeedForward (T := shape)) :
  ff_ok D d_ff f -> ff_ok D d_ff (PositionwiseFeedForward_update xavier_step f).
Proof.
  intros (H1 & H2 & Hd). unfold ff_ok, PositionwiseFeedForward_update.
  cbn [w_1 w_2 ff_dropout].
  split; [apply linear_ok_update; exact H1|].
  split; [apply linear_ok_update; exact H2|exact Hd].
Qed.

Lemma classifier_ok_update (D : Z) (c : Classifier (T := shape)) :
  classifier_ok D c -> classifier_ok D (Classifier_update xavier_step c).
Proof.
  destruct c as [|l|d]; cbn; [tauto| |tauto].
  intros [Hw Hb]. rewrite xavier_step_pdata, Hb. split; [exact Hw|reflexivity].
Qed.

Lemma encoder_layer_ok_update (h_ dk d_ff : Z) (l : EncoderLayer (T := shape)) :
  encoder_layer_ok h_ dk d_ff l ->
  encoder_layer_ok h_ dk d_ff (EncoderLayer_update xavier_step l).
Proof.
  intros (Hsa & Hva & Hf1 & (s0 & s1 & s2 & s3 & s4 & Hs & C0 & C1 & C2 & C3 & C4)
          & (qa & Hqa & Hqa') & (f2 & Hf2 & Hf2') & Hc).
  unfold encoder_layer_ok, EncoderLayer_update.
  cbn [self_attn vid_attn ff1 sublayer seq_attn ff2 classifier].
  split; [exact (attn_ok_update _ _ _ Hsa)|].
  split; [exact (attn_ok_update _ _ _ Hva)|].
  split; [exact (ff_ok_update _ _ _ Hf1)|].
  split.
  { rewrite Hs. eexists _, _, _, _, _. split; [reflexivity|].
    split; [exact (connection_ok_update _ _ C0)|].
    split; [exact (connection_ok_update _ _ C1)|].
    split; [exact (connection_ok_update _ _ C2)|].
    split; [exact (connection_ok_update _ _ C3)|exact (connection_ok_update _ _ C4)]. }
  split.
  { rewrite Hqa. eexists. split; [reflexivity|exact (attn_ok_update _ _ _ Hqa')]. }
  split.
  { rewrite Hf2. eexists. split; [reflexivity|exact (ff_ok_update _ _ _ Hf2')]. }
  exact (classifier_ok_update _ _ Hc).
Qed.

Lemma decoder_layer_ok_update (h_ dk d_ff : Z) (l : DecoderLayer (T := shape)) :
  decoder_layer_ok h_ dk d_ff l ->
  decoder_layer_ok h_ dk d_ff (DecoderLayer_update xavier_step l).
Proof.
  intros (Hsa & Hqa & Hf & s0 & s1 & s2 & Hs & C0 & C1 & C2).
  unfold decoder_layer_ok, DecoderLayer_update.
  cbn [dl_self_attn src_attn feed_forward dl_sublayer].
  split; [exact (attn_ok_update _ _ _ Hsa)|].
  split; [exact (attn_ok_update _ _ _ Hqa)|].
  split; [exact (ff_ok_update _ _ _ Hf)|].
  rewrite Hs. eexists _, _, _. split; [reflexivity|].
  split; [exact (connection_ok_update _ _ C0)|].
  split; [exact (connection_ok_update _ _ C1)|exact (connection_ok_update _ _ C2)].
Qed.

Lemma Forall_clones {M : Type} (P : M -> Prop) (x : M) (N : Z) :
  P x -> Forall P (clones x N).
Proof.
  intros H. unfold clones. apply Forall_forall. intros y Hy.
  apply repeat_spec in Hy. subst y. exact H.
Qed.

Lemma clones_not_nil {M : Type} (x : M) (N : Z) : 0 < N -> clones x N <> [].
Proof.
  intros HN E. apply (f_equal (@List.length M)) in E.
  rewrite clones_count in E. cbn in E. lia.
Qed.

Section Built.

Variables en_vocab ko_vocab N h_ dk d_ff : Z.
Variable p : Q.
Variable share : bool.
Variable m : EncoderDecoder (T := shape).
Hypothesis built :
  make_model (T := shape) en_vocab ko_vocab N (h_ * dk) d_ff h_ p share = Ok m.
Hypothesis h_pos : 0 < h_.
Hypothesis dk_pos : 0 < dk.
Hypothesis N_pos : 0 < N.

(** A built model is well shaped. *)
Lemma make_model_ok : model_ok en_vocab ko_vocab h_ dk d_ff m.
Proof.
  pose proof built as H. unfold make_model in H.
  apply bind_inv in H. destruct H as [m0 [H0 H]]. injection H as Hm.
  unfold make_model_build in H0.
  apply bind_inv in H0. destruct H0 as [attn_ [Eat H0]].
  apply bind_inv in H0. destruct H0 as [ff [Eff H0]].
  apply bind_inv in H0. destruct H0 as [position [Epos H0]].
  apply bind_inv in H0. destruct H0 as [en_gen [_ H0]].
  apply bind_inv in H0. destruct H0 as [ko_gen [_ H0]].
  apply bind_inv in H0. destruct H0 as [en_emb [Eee H0]].
  apply bind_inv in H0. destruct H0 as [ko_emb [Eke H0]].
  apply bind_inv in H0. destruct H0 as [cls [Ecl H0]].
  apply bind_inv in H0. destruct H0 as [layer [Ela H0]].
  apply bind_inv in H0. destruct H0 as [enc [Een H0]].
  apply bind_inv in H0. destruct H0 as [vl [Evl H0]].
  apply bind_inv in H0. destruct H0 as [dlayer [Edl H0]].
  apply bind_inv in H0. destruct H0 as [dec [Ede H0]].
  injection H0 as <-. subst m.
  assert (Hp : dropout_valid (mkDropout p))
    by exact (proj1 (proj2 (proj2 (proj2 (proj2
                (PositionalEncoding_init_value _ _ _ _ Epos)))))).
  assert (Hat : attn_ok h_ dk attn_).
  { rewrite (MultiHeadedAttention_init_value h_ dk (-1) (1 # 10) h_pos dk_pos eq_refl)
      in Eat.
    injection Eat as <-. apply attn_module_of_ok. reflexivity. }
  pose proof (PositionwiseFeedForward_init_ok _ _ _ _ Eff) as Hff.
  pose proof (make_classifier_ok _ _ _ Ecl) as Hcl.
  assert (Hpos : position_ok (h_ * dk) position).
  { destruct (PositionalEncoding_init_value _ _ _ _ Epos) as (Hpe & Hd & _).
    split; [exact Hpe|]. rewrite Hd. exact Hp. }
  unfold Embeddings_init in Eee, Eke.
  apply bind_inv in Eee. destruct Eee as [ew [Eew Eee]]. injection Eee as <-.
  apply bind_inv in Eke. destruct Eke as [kw [Ekw Eke]]. injection Eke as <-.
  apply Param_new_shape in Eew, Ekw. destruct Eew as [Eew _], Ekw as [Ekw _].
  pose proof (Linear_init_ok _ _ _ Evl) as Hvl.
  unfold EncoderLayer_init in Ela.
  apply bind_inv in Ela. destruct Ela as [sc [Esc Ela]]. injection Ela as <-.
  pose proof (SublayerConnection_init_ok _ _ _ Esc) as Hsc.
  unfold DecoderLayer_init in Edl.
  apply bind_inv in Edl. destruct Edl as [dsc [Edsc Edl]]. injection Edl as <-.
  pose proof (SublayerConnection_init_ok _ _ _ Edsc) as Hdsc.
  unfold Encoder_init in Een.
  apply bind_inv in Een. destruct Een as [en [Enn Een]]. injection Een as <-.
  unfold Decoder_init in Ede.
  apply bind_inv in Ede. destruct Ede as [dn [Edn Ede]]. injection Ede as <-.
  cbn [el_size dl_size] in Enn, Edn.
  apply LayerNorm_init_ok in Enn, Edn.
  unfold model_ok, update_parameters.
  cbn [en_embed ko_embed vid_encoder encoder decoder].
  split.
  { split; [|exact Hpos]. cbn. rewrite xavier_step_pdata. exact Eew. }
  split.
  { split; [|exact Hpos]. cbn. rewrite xavier_step_pdata. exact Ekw. }
  split.
  { split; [|exact Hpos]. apply linear_ok_update. exact Hvl. }
  split.
  - unfold encoder_ok, Encoder_update. cbn [enc_layers enc_norm].
    split.
    { intros E. apply map_eq_nil in E. exact (clones_not_nil _ N N_pos E). }
    split; [|exact (norm_ok_update _ _ Enn)].
    apply Forall_map. apply Forall_clones. apply encoder_layer_ok_update.
    unfold encoder_layer_ok. cbn [self_attn vid_attn ff1 sublayer seq_attn ff2 classifier].
    split; [exact Hat|]. split; [exact Hat|]. split; [exact Hff|].
    split; [exists sc, sc, sc, sc, sc; split; [reflexivity|tauto]|].
    split; [exists attn_; split; [reflexivity|exact Hat]|].
    split; [exists ff; split; [reflexivity|exact Hff]|exact Hcl].
  - unfold decoder_ok, Decoder_update. cbn [dec_layers dec_norm].
    split; [|exact (norm_ok_update _ _ Edn)].
    apply Forall_map. apply Forall_clones. apply decoder_layer_ok_update.
    unfold decoder_layer_ok. cbn [dl_self_attn src_attn feed_forward dl_sublayer].
    split; [exact Hat|]. split; [exact Hat|]. split; [exact Hff|].
    exists dsc, dsc, dsc. split; [reflexivity|tauto].
Qed.

End Built.

End OnHost.

(** X18: on any host, every model [make_model] returns for a depth
    [N >= 1], a number of heads [h_ >= 1], a head width [dk >= 1] and
    non-empty vocabularies runs [forward] on any batch of [b >= 1]
    sentences of [te] and [tk] tokens and [tv] video frames, each within
    the 5000 positions of the table, provided the token ids, of the
    sentences and of the sentences without their last token, are within
    their vocabularies: the two decoder outputs have the length of the
    target without its last token and the model width, and the two action
    predictions have 401 classes per frame. *)
Theorem make_model_forward_shapes {host : Host}
    (en_vocab ko_vocab N h_ dk d_ff : Z) (p : Q)
    (share : bool) (m : EncoderDecoder (T := shape)) (b te tk tv : Z) :
  make_model en_vocab ko_vocab N (h_ * dk) d_ff h_ p share = Ok m ->
  0 < h_ -> 0 < dk -> 0 < N ->
  0 < b -> 1 <= te <= 5000 -> 1 <= tk <= 5000 -> 0 <= tv <= 5000 ->
  0 < en_vocab -> 0 < ko_vocab ->
  ids_within [b; te] en_vocab = true ->
  ids_within [b; tk] ko_vocab = true ->
  ids_within [b; te - 1] en_vocab = true ->
  ids_within [b; tk - 1] ko_vocab = true ->
  exists m',
    EncoderDecoder_forward m
      [b; te] [b; 1; te] [b; te - 1; te - 1]
      [b; tk] [b; 1; tk] [b; tk - 1; tk - 1]
      [b; tv; 1024] [b; 1; tv]
    = Ok (([b; tk - 1; h_ * dk], [b; te - 1; h_ * dk], [b; tv; 401], [b; tv; 401]), m').
Proof.
  intros Hm Hh Hk HN Hb Hte Htk Htv Hev Hkv Ie Ik Ie1 Ik1.
  pose proof (make_model_ok en_vocab ko_vocab N h_ dk d_ff p share m Hm Hh Hk HN)
    as Hok.
  destruct (EncoderDecoder_forward_ok en_vocab ko_vocab h_ dk d_ff b Hh Hk Hb m
              te tk tv Hok Hte Htk Htv Hev Hkv Ie Ik Ie1 Ik1)
    as (m' & E & _).
  exists m'. exact E.
Qed.

Lemma make_model_forward_shapes_witness :
  exists m m',
    Scenario.model true = Ok m /\
    EncoderDecoder_forward m [3; 7] [3; 1; 7] [3; 6; 6] [3; 4] [3; 1; 4] [3; 3; 3]
                           [3; 9; 1024] [3; 1; 9]
    = Ok (([3; 3; 512], [3; 6; 512], [3; 9; 401], [3; 9; 401]), m').
Proof.
  assert (Hm : { m | Scenario.model true = Ok m })
    by (eexists; vm_compute; reflexivity).
  destruct Hm as [m H].
  destruct (make_model_forward_shapes 100 120 2 8 64 2048 (1 # 10) true m 3 7 4 9 H
              ltac:(lia) ltac:(lia) ltac:(lia)
              ltac:(lia) ltac:(lia) ltac:(lia) ltac:(lia) ltac:(lia) ltac:(lia)
              eq_refl eq_refl eq_refl eq_refl) as [m' E].
  exists m, m'. split; [exact H|exact E].
Defined.

End ForwardShapes.

(** ** What a call of the attention module stores *)

(** C8 (as the code has it): a call that returns has projected the query,
    the key and the value by the first three linear maps, called
    [attention] on the three once, and stored the distribution that call
    returned in the module's [attn] attribute, replacing what was there;
    the projections, the head count, the head width and the dropout are
    what they were.  On a module of [h_] heads of width [dk], for a query
    of [tq] rows and keys of [tk] rows in a batch of [b], what is stored
    has the shape (b, h_, tq, tk), whatever was stored before. *)
Theorem MultiHeadedAttention_forward_stores_attn :
  (forall (T : Type) (RT : Torch T) (m m' : MultiHeadedAttention)
          (query key value out : T) (mask : option T),
     MultiHeadedAttention_forward m query key value mask = Ok (out, m') ->
     exists nbatches qT qC l1 l2 l3 rest q k v mask' x p,
       size query = [nbatches; qT; qC] /\
       linears m = l1 :: l2 :: l3 :: rest /\
       project_heads m nbatches (l1, query) = Ok q /\
       project_heads m nbatches (l2, key) = Ok k /\
       project_heads m nbatches (l3, value) = Ok v /\
       match mask with
       | Some km => u <- unsqueeze km 1 ;; Ok (Some u)
       | None => Ok None
       end = Ok mask' /\
       attention q k v mask' (Some (mha_dropout m)) = Ok (x, p) /\
       m' = set_attn m p /\
       attn m' = Some p /\
       linears m' = linears m /\
       (d_k m', h m', mha_d_model m', mha_dropout m')
       = (d_k m, h m, mha_d_model m, mha_dropout m))
  /\
  (forall (host : Shape.Host) (h_ dk b tq tk : Z)
          (m : MultiHeadedAttention (T := Shape.shape)) (mask : option Shape.shape),
     WellShaped.attn_ok h_ dk m ->
     0 < h_ -> 0 < dk -> 0 < b -> 0 <= tq -> 0 <= tk ->
     mask = None \/ mask = Some [b; 1; tk] \/ mask = Some [b; tq; tk] ->
     exists out m',
       MultiHeadedAttention_forward m
         [b; tq; h_ * dk] [b; tk; h_ * dk] [b; tk; h_ * dk] mask = Ok (out, m') /\
       attn m' = Some [b; h_; tq; tk] /\
       m' = set_attn m [b; h_; tq; tk]).
Proof.
  split.
  - intros T RT m m' query key value out mask H.
    destruct (MultiHeadedAttention_forward_inv m m' query key value out mask H)
      as (nbatches & qT & qC & l1 & l2 & l3 & rest & q & k & v & mask' & x & p &
          Hs & Hl & Hq & Hk & Hv & Hm & Ha & ->).
    exists nbatches, qT, qC, l1, l2, l3, rest, q, k, v, mask', x, p.
    repeat split; assumption.
  - intros host h_ dk b tq tk m mask Hok Hh Hk Hb Htq Htk Hmask.
    eexists. eexists. split.
    + exact (ForwardShapes.MultiHeadedAttention_forward_ok h_ dk b Hh Hk Hb m tq tk
               mask Hok Htq Htk Hmask).
    + split; reflexivity.
Qed.

Lemma MultiHeadedAttention_forward_stores_attn_witness :
  exists m out m',
    Scenario.attn_module = Ok m /\
    MultiHeadedAttention_forward m [2; 5; 512] [2; 3; 512] [2; 3; 512]
      (Some [2; 1; 3]) = Ok (out, m') /\
    (exists p, attn m' = Some p /\ m' = set_attn m p) /\
    attn m' = Some [2; 8; 5; 3] /\
    exists out2 m2,
      MultiHeadedAttention_forward m' [2; 4; 512] [2; 4; 512] [2; 4; 512] None
      = Ok (out2, m2) /\
      attn m2 = Some [2; 8; 4; 4].
Proof.
  eexists. eexists. eexists.
  split; [vm_compute; reflexivity|].
  match goal with
  | |- ?A /\ _ => assert (H : A) by (vm_compute; reflexivity); split; [exact H|]
  end.
  split.
  - destruct (proj1 MultiHeadedAttention_forward_stores_attn _ _ _ _ _ _ _ _ _ H)
      as (nbatches & qT & qC & l1 & l2 & l3 & rest & q & k & v & mask' & x & p &
          _ & _ & _ & _ & _ & _ & _ & Hm & Hp & _).
    exists p. split; assumption.
  - split; [reflexivity|].
    destruct (proj2 MultiHeadedAttention_forward_stores_attn Shape.cuda_host
                8 64 2 4 4
                (set_attn (attn_module_of 8 64 512 (1 # 10)) [2; 8; 5; 3]) None
                (ForwardShapes.attn_module_of_ok 8 64 (1 # 10) eq_refl)
                ltac:(lia) ltac:(lia) ltac:(lia) ltac:(lia) ltac:(lia)
                (or_introl eq_refl))
      as (out2 & m2 & E2 & Ha2 & _).
    exists out2, m2. split; [exact E2|exact Ha2].
Defined.

(** ** The generator: scores and log-probabilities *)

Module GeneratorFacts.

Import Shape Numeric NumericFacts AttentionSpec AttentionFacts LastAxis.

Local Open Scope R_scope.

Lemma wrap_last_ok (n : nat) :
  exists d, wrap_dim (Z.of_nat n) (-1) = Ok d.
Proof.
  unfold wrap_dim. cbv zeta.
  destruct (Z.of_nat n =? 0)%Z eqn:E.
  - eexists. reflexivity.
  - apply Z.eqb_neq in E.
    destruct (Z.ltb_spec (-1) (- Z.of_nat n)); [lia|].
    destruct (Z.leb_spec (Z.of_nat n) (-1)); [lia|].
    eexists. reflexivity.
Qed.

Section Scores.

Variable draw : init -> shape -> index -> R.

Let RTn : Torch tensor := runtime draw.

(** X19: [forward] returns whenever [inference] does, with the same shape,
    and what it adds to the scores of [inference] does not depend on the
    word: at every position the difference between two words is the same
    in both, so both rank the vocabulary alike. *)
Theorem Generator_forward_ranks_as_inference (g : Generator) (x z : tensor) :
  Generator_inference (RT := RTn) g x = Ok z ->
  exists y,
    Generator_forward (RT := RTn) g x = Ok y /\
    sh y = sh z /\
    forall idx j k,
      dat y (set_nth idx (last_axis z) j) - dat y (set_nth idx (last_axis z) k)
      = dat z (set_nth idx (last_axis z) j) - dat z (set_nth idx (last_axis z) k).
Proof.
  unfold Generator_inference, Generator_forward. intros H. rewrite H. cbn [bind].
  change (log_softmax z (-1)) with (log_softmax_num z (-1)).
  unfold log_softmax_num.
  destruct (wrap_last_ok (List.length (sh z))) as [d Hw].
  unfold ndim. rewrite Hw. cbn [bind].
  eexists. split; [reflexivity|]. split; [reflexivity|].
  intros idx j k. cbn [dat].
  pose proof (wrap_last _ _ Hw) as Hd.
  unfold last_axis, ndim. rewrite <- Hd.
  rewrite !exp_sum_set_nth. lra.
Qed.

End Scores.

Lemma Generator_forward_ranks_as_inference_witness :
  exists z y,
    Generator_inference (RT := runtime draw0) small_generator small_hidden = Ok z /\
    Generator_forward (RT := runtime draw0) small_generator small_hidden = Ok y /\
    sh y = sh z /\
    dat y [0; 0; 2]%Z - dat y [0; 0; 0]%Z = dat z [0; 0; 2]%Z - dat z [0; 0; 0]%Z.
Proof.
  eexists.
  assert (H : Generator_inference (RT := runtime draw0) small_generator small_hidden
              = Ok _) by reflexivity.
  destruct (Generator_forward_ranks_as_inference draw0 _ _ _ H) as (y & Ey & Hs & Hr).
  exists y. split; [exact H|]. split; [exact Ey|]. split; [exact Hs|].
  exact (Hr [0; 0; 0]%Z 2%Z 0%Z).
Defined.

End GeneratorFacts.

(** ** The feed-forward network works position by position *)

Module FeedForwardFacts.

Import Shape Numeric NumericFacts AttentionSpec AttentionFacts LastAxis.

Local Open Scope R_scope.

Lemma linear_num_row (x x' w : tensor) (c : option tensor) (a a' : tensor)
    (idx : index) :
  linear_num x w c = Ok a -> linear_num x' w c = Ok a' ->
  same_row x x' idx -> same_row a a' idx.
Proof.
  unfold linear_num. intros H H' Hrow. unfold same_row, feature in Hrow.
  apply bind_inv in H. destruct H as [s [_ H]]. injection H as <-.
  apply bind_inv in H'. destruct H' as [s' [_ H']]. injection H' as <-.
  intros k. cbn [dat]. unfold feature. rewrite !set_nth_length.
  assert (E : sum_over (dim_len (sh w) 1)
                (fun k0 => dat x (set_nth (set_nth idx (List.length idx - 1) k)
                                          (List.length idx - 1) k0) *
                           dat w [nth (List.length idx - 1)
                                      (set_nth idx (List.length idx - 1) k) 0%Z; k0])
              = sum_over (dim_len (sh w) 1)
                (fun k0 => dat x' (set_nth (set_nth idx (List.length idx - 1) k)
                                           (List.length idx - 1) k0) *
                           dat w [nth (List.length idx - 1)
                                      (set_nth idx (List.length idx - 1) k) 0%Z; k0])).
  { unfold sum_over. apply rsum_map_ext. intros j _.
    rewrite !set_nth_set_nth. rewrite (Hrow j). reflexivity. }
  cbv zeta. rewrite E. reflexivity.
Qed.

Section Rows.

Variable draw : init -> shape -> index -> R.

Let RTn : Torch tensor := runtime draw.

(** X20: in evaluation mode the output of the feed-forward network at a
    position is a function of the input at that position: two inputs that
    hold the same vector there give the same vector there, whatever they
    hold elsewhere. *)
Theorem PositionwiseFeedForward_forward_positionwise
    (f : PositionwiseFeedForward) (x x' y y' : tensor) (idx : index) :
  PositionwiseFeedForward_forward (RT := RTn) f x = Ok y ->
  PositionwiseFeedForward_forward (RT := RTn) f x' = Ok y' ->
  (forall k, dat x (set_nth idx (List.length idx - 1) k)
             = dat x' (set_nth idx (List.length idx - 1) k)) ->
  forall j, dat y (set_nth idx (List.length idx - 1) j)
            = dat y' (set_nth idx (List.length idx - 1) j).
Proof.
  unfold PositionwiseFeedForward_forward. intros H H' Hrow.
  apply bind_inv in H. destruct H as [a [Ha H]].
  apply bind_inv in H. destruct H as [r [Hr H]].
  apply bind_inv in H. destruct H as [d [Hd H]].
  apply bind_inv in H'. destruct H' as [a' [Ha' H']].
  apply bind_inv in H'. destruct H' as [r' [Hr' H']].
  apply bind_inv in H'. destruct H' as [d' [Hd' H']].
  pose proof (linear_num_row _ _ _ _ _ _ idx Ha Ha' Hrow) as Ra.
  assert (Rd : same_row d d' idx).
  { cbn in Hr, Hr'. injection Hr as <-. injection Hr' as <-.
    cbn in Hd, Hd'. unfold dropout_num in Hd, Hd'.
    apply bind_inv in Hd. destruct Hd as [s [_ Hd]]. injection Hd as <-.
    apply bind_inv in Hd'. destruct Hd' as [s' [_ Hd']]. injection Hd' as <-.
    intros k. cbn [dat]. rewrite (Ra k). reflexivity. }
  exact (linear_num_row _ _ _ _ _ _ idx H H' Rd).
Qed.

End Rows.

Lemma PositionwiseFeedForward_forward_positionwise_witness :
  exists y y',
    PositionwiseFeedForward_forward (RT := runtime draw0) small_ff two_positions = Ok y /\
    PositionwiseFeedForward_forward (RT := runtime draw0) small_ff two_positions_changed
    = Ok y' /\
    dat two_positions [0; 1; 0]%Z <> dat two_positions_changed [0; 1; 0]%Z /\
    dat y [0; 0; 1]%Z = dat y' [0; 0; 1]%Z.
Proof.
  eexists. eexists.
  match goal with
  | |- ?A /\ _ => assert (H : A) by reflexivity; split; [exact H|]
  end.
  match goal with
  | |- ?A /\ _ => assert (H' : A) by reflexivity; split; [exact H'|]
  end.
  split; [cbn; lra|].
  exact (PositionwiseFeedForward_forward_positionwise draw0 _ _ _ _ _
           [0; 0; 0]%Z H H' (fun k => eq_refl) 1%Z).
Defined.

End FeedForwardFacts.

(** ** Widths the model cannot be built with *)

Section OddWidth.

Context {T : Type} {RT : Torch T}.

Lemma PositionalEncoding_init_odd (d_model : Z) (p : Q) :
  Z.odd d_model = true -> 1 < d_model ->
  fails (PositionalEncoding_init d_model p 5000).
Proof.
  intros Ho Hd. unfold PositionalEncoding_init.
  destruct (Dropout_init p) as [d|e]; cbn [bind]; [|eexists; reflexivity].
  destruct (tensor_new Sinusoid [5000; d_model]) as [table|e]; cbn [bind];
    [|eexists; reflexivity].
  destruct (d_model =? 0); [eexists; reflexivity|].
  rewrite Ho. destruct (Z.ltb_spec 1 d_model); [|lia].
  eexists. reflexivity.
Qed.

(** X21: no model of odd width above 1 can be built: the table of
    positions is filled from as many columns for the cosines as for the
    sines, one too many when the width is odd, and [make_model] raises
    whatever its other arguments. *)
Theorem make_model_odd_width_fails (en_vocab ko_vocab N d_model d_ff h_ : Z)
    (p : Q) (share : bool) :
  Z.odd d_model = true -> 1 < d_model ->
  fails (make_model en_vocab ko_vocab N d_model d_ff h_ p share).
Proof.
  intros Ho Hd. unfold make_model, make_model_build.
  destruct (MultiHeadedAttention_init h_ d_model (-1) (1 # 10)) as [a|e];
    cbn [bind]; [|eexists; reflexivity].
  destruct (PositionwiseFeedForward_init d_model d_ff p (-1)) as [f|e];
    cbn [bind]; [|eexists; reflexivity].
  destruct (PositionalEncoding_init_odd d_model p Ho Hd) as [e E].
  rewrite E. eexists. reflexivity.
Qed.

End OddWidth.

Lemma make_model_odd_width_fails_witness :
  make_model (T := Shape.shape) 100 120 2 9 2048 3 (1 # 10) false = Raise RuntimeError /\
  fails (make_model (T := Shape.shape) 100 120 2 9 2048 3 (1 # 10) false).
Proof.
  split; [vm_compute; reflexivity|].
  exact (make_model_odd_width_fails (T := Shape.shape) 100 120 2 9 2048 3 (1 # 10) false
           eq_refl ltac:(lia)).
Defined.

(** ** The host *)

Module HostFacts.

Import Shape.

Lemma Linear_cuda_without_device {host : Host} (l : Linear (T := shape)) (e : exn) :
  cuda_device = Raise e -> Linear_cuda l = Raise e.
Proof.
  intros He. unfold Linear_cuda, Param_cuda. cbn. unfold cuda_shape.
  rewrite He. reflexivity.
Qed.

(** X22: the per-language classifiers are moved to the CUDA device while
    the model is built, so on a host without one [make_model] with
    [share_classifier = False] raises whatever its other arguments; with
    the shared classifier the device is not asked for, and the model built
    is the same on every host. *)
Theorem make_model_needs_cuda_unless_shared {host : Host}
    (en_vocab ko_vocab N d_model d_ff h_ : Z) (p : Q) (e : exn) :
  cuda_device = Raise e ->
  fails (make_model (T := shape) en_vocab ko_vocab N d_model d_ff h_ p false)
  /\
  make_model (RT := runtime (H := host)) en_vocab ko_vocab N d_model d_ff h_ p true
  = make_model (RT := runtime (H := cuda_host)) en_vocab ko_vocab N d_model d_ff h_ p true.
Proof.
  intros He. split; [|reflexivity].
  unfold make_model, make_model_build.
  destruct (MultiHeadedAttention_init h_ d_model (-1) (1 # 10)) as [a|?];
    cbn [bind]; [|eexists; reflexivity].
  destruct (PositionwiseFeedForward_init d_model d_ff p (-1)) as [f|?];
    cbn [bind]; [|eexists; reflexivity].
  destruct (PositionalEncoding_init d_model p 5000) as [pos|?];
    cbn [bind]; [|eexists; reflexivity].
  destruct (Generator_init d_model en_vocab) as [eg|?];
    cbn [bind]; [|eexists; reflexivity].
  destruct (Generator_init d_model ko_vocab) as [kg|?];
    cbn [bind]; [|eexists; reflexivity].
  destruct (Embeddings_init d_model en_vocab) as [ee|?];
    cbn [bind]; [|eexists; reflexivity].
  destruct (Embeddings_init d_model ko_vocab) as [ke|?];
    cbn [bind]; [|eexists; reflexivity].
  unfold make_classifier.
  destruct (Linear_init d_model 401 false) as [l|?];
    cbn [bind]; [|eexists; reflexivity].
  rewrite (Linear_cuda_without_device l e He). eexists. reflexivity.
Qed.

Lemma make_model_needs_cuda_unless_shared_witness :
  make_model (RT := runtime (H := cpu_host)) 100 120 2 512 2048 8 (1 # 10) false
  = Raise AssertionError /\
  fails (make_model (RT := runtime (H := cpu_host)) 100 120 2 512 2048 8 (1 # 10) false)
  /\
  make_model (RT := runtime (H := cpu_host)) 100 120 2 512 2048 8 (1 # 10) true
  = Scenario.model true.
Proof.
  split; [vm_compute; reflexivity|].
  exact (make_model_needs_cuda_unless_shared (host := cpu_host)
           100 120 2 512 2048 8 (1 # 10) AssertionError eq_refl).
Defined.

End HostFacts.
